(** * reupspots-app: the credit ledger, booking and escrow core

    A shallow embedding of [shared/schema.ts], [shared/pricing.ts],
    [shared/credits.ts], [shared/subscriptions.ts], the [DatabaseStorage]
    methods of [server/storage.ts] and the booking, post and escrow
    handlers of [server/routes.ts], followed by the properties of the
    ledger and of the booking state machine.  Further modules embed the
    verification, application, credit purchase, follow, notification,
    review, document and earnings handlers with their storage methods,
    and the toast hook of the client.

    Conventions.
    - A JavaScript [number] holding money is a [Q].  Every money value
      the code computes is an integer or a multiple of a quarter, and on
      those IEEE doubles are exact below 2^53, so rational arithmetic
      agrees with the program.
    - An [integer] column is a [Z]; the range check PostgreSQL applies to
      a 32-bit column is not modelled in the storage methods.  Module
      [Columns] states the range, and the properties of an insert that
      depend on it assume it.
    - A table with a unique key is a [gmap] on that key; a table read in
      insertion order is a [list].
    - A value that may be [undefined] or [null] is an [option].
    - A string holds no NUL character, which a [text] column refuses.
    - The tables [TIER_FEES], [BOOST_FEES] and [CREDIT_COSTS] are looked
      up by their own keys.  Module [Prototype] lists the names every
      object literal inherits from [Object.prototype]; the properties of
      a lookup that depend on the difference assume a key that is none
      of them.
    - Timestamps are milliseconds in [Z], supplied by the caller as
      [now].  [Pricing.getBoostExpiry] adds hours of 3600000 ms; module
      [BoostZone] has the same function in a time zone. *)

From Stdlib Require Import ZArith QArith Qround String List Lia.
From stdpp Require Import gmap strings list fin_maps pretty.

Local Open Scope string_scope.
Local Open Scope Z_scope.

(** ** JavaScript helpers *)

Module Js.

(** [x || d] for a number that may be [undefined]: zero is falsy. *)
Definition or_num (x : option Q) (d : Q) : Q :=
  match x with
  | Some q => if Qeq_bool q 0 then d else q
  | None => d
  end.

(** [x || d] for an integer that may be [undefined]. *)
Definition or_int (x : option Z) (d : Z) : Z :=
  match x with
  | Some z => if Z.eqb z 0 then d else z
  | None => d
  end.

(** [x || d] for a string that may be [undefined]: the empty string is
    falsy. *)
Definition or_str (x : option string) (d : string) : string :=
  match x with
  | Some s => if String.eqb s "" then d else s
  | None => d
  end.

(** Truthiness of an optional boolean, of an optional string and of an
    optional integer. *)
Definition truthy_bool (x : option bool) : bool :=
  match x with Some b => b | None => false end.

Definition truthy_str (x : option string) : bool :=
  match x with Some s => negb (String.eqb s "") | None => false end.

Definition truthy_int (x : option Z) : bool :=
  match x with Some z => negb (Z.eqb z 0) | None => false end.

(** [Math.round]: the nearest integer, halves towards plus infinity. *)
Definition round (x : Q) : Z := Qfloor (x + (1 # 2))%Q.

(** [Math.ceil]. *)
Definition ceil (x : Q) : Z := Qceiling x.

(** Own-property lookup [obj[key]] in an object literal. *)
Fixpoint get {A : Type} (key : string) (obj : list (string * A)) : option A :=
  match obj with
  | [] => None
  | (k, v) :: rest => if String.eqb k key then Some v else get key rest
  end.

(** [arr.includes(x)] on an array of strings. *)
Definition includes (arr : list string) (x : string) : bool :=
  existsb (String.eqb x) arr.

End Js.

(** ** shared/schema.ts *)

Module Schema.

Definition EVENT_CATEGORIES : list string :=
  [ "Club Party"; "Festival"; "Concert"; "Job Fair";
    "Open Mic"; "Art Show"; "Pop-Up Shop"; "Community Meetup";
    "Sports Event"; "Block Party"; "Networking Event"; "Showcase";
    "Other Event" ].

Definition ALL_EVENT_CATEGORIES : list string :=
  EVENT_CATEGORIES ++ [ "Adult Club Event" ].

Definition PLATFORM_FEE_PERCENT : Z := 6.

Definition TIER_FEES : list (string * Q) :=
  [ ("Slots", 1 # 4); ("Missions", 1 # 2); ("Tasks", 1 # 1);
    ("Projects", 2 # 1); ("Chances", 5 # 2) ]%Q.

Record BoostFee := { fee : Q; hours : Z }.

Definition BOOST_FEES : list (string * BoostFee) :=
  [ ("None", {| fee := 0; hours := 0 |});
    ("24h Boost", {| fee := 3 # 1; hours := 24 |});
    ("72h Boost", {| fee := 7 # 1; hours := 72 |});
    ("7 Day Featured", {| fee := 15 # 1; hours := 168 |}) ].

Module CREDIT_COSTS.

Definition post : list (string * Z) :=
  [ ("Slots", 1); ("Missions", 2); ("Tasks", 3); ("Projects", 4);
    ("Chances", 5) ].

Definition event : Z := 1.

Definition eventNsfw : Z := 3.

Definition boost : list (string * Z) :=
  [ ("None", 0); ("24h Boost", 2); ("72h Boost", 4);
    ("7 Day Featured", 8) ].

Definition apply : Z := 1.

Definition verification : Z := 10.

End CREDIT_COSTS.

Definition ADMIN_EMAILS : list string := [ "cubansreupspots@gmail.com" ].

(** Only the keys of [LICENSED_CATEGORIES] are consulted by the
    handlers. *)
Definition LICENSED_CATEGORIES : list (string * unit) :=
  [ ("Warehouse & Logistics", tt); ("Skilled Trades", tt);
    ("Studio & Engineering", tt); ("Fitness & Training", tt);
    ("Chefs & Culinary", tt) ].

(** A row of [credits]. *)
Record Credit := { c_userId : string; c_balance : Z }.

(** A row of [credit_logs]. *)
Record CreditLog := {
  l_userId : string;
  l_action : string;
  l_amount : Z;
  l_description : string
}.

(** A row of [verification_requests]. *)
Record VerificationRequest := {
  v_userId : string;
  v_status : option string;
  v_ageConfirmed : option bool
}.

(** A row of [professional_verifications]. *)
Record ProfessionalVerification := {
  pv_userId : string;
  pv_category : string;
  pv_status : option string
}.

(** The column of [profiles] the handlers read. *)
Record Profile := { pr_userId : string; pr_plan : option string }.

(** The value handed to [createPost]: the parsed request body with
    [userId] and [boostExpiresAt] added.  Free-text columns that the
    handler only copies (venue, address, date, description, ...) are left
    out. *)
Record InsertPost := {
  ip_userId : string;
  ip_postType : option string;
  ip_title : string;
  ip_category : string;
  ip_tier : string;
  ip_pay : Z;
  ip_promoterName : string;
  ip_boostLevel : option string;
  ip_boostExpiresAt : option Z;
  ip_nsfw : option bool
}.

(** A row of [posts]. *)
Record Post := { p_id : Z; p_data : InsertPost }.

(** The value handed to [createBooking]. *)
Record InsertBooking := {
  ib_postId : option Z;
  ib_workerSlug : option string;
  ib_buyerUid : string;
  ib_tier : string;
  ib_basePay : Z;
  ib_platformFee : Z;
  ib_boost : string;
  ib_boostFee : Z;
  ib_totalAmount : Z;
  ib_status : string;
  ib_paymentStructure : string;
  ib_depositAmount : option Z;
  ib_finalAmount : option Z;
  ib_depositStatus : option string;
  ib_finalStatus : option string
}.

(** A row of [bookings]. *)
Record Booking := {
  id : Z;
  postId : option Z;
  workerSlug : option string;
  buyerUid : string;
  tier : string;
  basePay : Z;
  platformFee : Z;
  boost : option string;
  boostFee : option Z;
  totalAmount : Z;
  status : option string;
  paymentMethod : option string;
  stripeSessionId : option string;
  stripePaymentIntentId : option string;
  paymentStructure : option string;
  depositAmount : option Z;
  finalAmount : option Z;
  depositStatus : option string;
  finalStatus : option string;
  depositStripeSessionId : option string;
  finalStripeSessionId : option string;
  escrowStatus : option string;
  escrowAuthorizedAt : option Z;
  escrowCapturedAt : option Z
}.

End Schema.

(** ** shared/pricing.ts *)

Module Pricing.
Import Schema.

Record Total := {
  t_basePay : Q;
  tierFee : Q;
  boostFee : Q;
  totalAmount : Q
}.

Definition calculateTotal (basePay : Q) (tier boost : string) : Total :=
  let tierFee := Js.or_num (Js.get tier TIER_FEES) 0 in
  let boostFee := Js.or_num (fee <$> Js.get boost BOOST_FEES) 0 in
  let totalAmount := (basePay + tierFee + boostFee)%Q in
  {| t_basePay := basePay; tierFee := tierFee; boostFee := boostFee;
     totalAmount := totalAmount |}.

(** [now] stands for [new Date()]; adding hours with [setHours] is taken
    as adding that many hours of 3600000 ms, which is what it does in a
    time zone that keeps one offset ([BoostZone] has the general
    case). *)
Definition getBoostExpiry (now : Z) (boost : string) : option Z :=
  let hours := Js.or_int (hours <$> Js.get boost BOOST_FEES) 0 in
  if Z.eqb hours 0 then None else Some (now + hours * 3600000).

End Pricing.

(** ** shared/credits.ts *)

Module Credits.
Import Schema.

Definition INITIAL_CREDITS : Z := 3.

Definition getPostCreditCost (tier : string) : Z :=
  Js.or_int (Js.get tier CREDIT_COSTS.post) 1.

Definition getEventCreditCost (isNsfw : bool) : Z :=
  if isNsfw then CREDIT_COSTS.eventNsfw else CREDIT_COSTS.event.

Definition getBoostCreditCost (boost : string) : Z :=
  Js.or_int (Js.get boost CREDIT_COSTS.boost) 0.

Definition getApplyCreditCost : Z := CREDIT_COSTS.apply.

Definition canAfford (balance cost : Z) (plan : string) : bool :=
  if String.eqb plan "elite" then true else Z.leb cost balance.

End Credits.

(** ** shared/subscriptions.ts *)

Module Subscriptions.

(** The fields of a plan that the handlers read. *)
Record PlanDetails := {
  name : string;
  monthlyCredits : Z;
  boostsEnabled : bool;
  unlimitedPosts : bool
}.

Definition PLAN_DETAILS : list (string * PlanDetails) :=
  [ ("free", {| name := "Free"; monthlyCredits := 3;
                boostsEnabled := false; unlimitedPosts := false |});
    ("pro", {| name := "Pro"; monthlyCredits := 30;
               boostsEnabled := true; unlimitedPosts := false |});
    ("elite", {| name := "Elite"; monthlyCredits := 999;
                 boostsEnabled := true; unlimitedPosts := true |}) ].

Definition getPlanDetails (plan : string) : PlanDetails :=
  match Js.get plan PLAN_DETAILS with
  | Some d => d
  | None => {| name := "Free"; monthlyCredits := 3;
               boostsEnabled := false; unlimitedPosts := false |}
  end.

Definition canUseBoosts (plan : string) : bool :=
  boostsEnabled (getPlanDetails plan).

Definition hasUnlimitedPosts (plan : string) : bool :=
  unlimitedPosts (getPlanDetails plan).

End Subscriptions.

(** ** server/storage.ts *)

Module Storage.
Import Schema.

(** The tables.  [credits.user_id] and [profiles.user_id] are unique and
    [bookings.id] is the serial primary key, so those tables are maps on
    that column; [credit_logs] is kept in insertion order. *)
Record Db := {
  posts : list Post;
  profiles : gmap string Profile;
  bookings : gmap Z Booking;
  nextBookingId : Z;
  credits : gmap string Z;
  creditLogs : list CreditLog;
  verificationRequests : list VerificationRequest;
  professionalVerifications : list ProfessionalVerification
}.

Definition emptyDb : Db :=
  {| posts := []; profiles := ∅; bookings := ∅; nextBookingId := 1;
     credits := ∅; creditLogs := []; verificationRequests := [];
     professionalVerifications := [] |}.

Definition withPosts (d : Db) (x : list Post) : Db :=
  {| posts := x; profiles := profiles d; bookings := bookings d;
     nextBookingId := nextBookingId d; credits := credits d;
     creditLogs := creditLogs d;
     verificationRequests := verificationRequests d;
     professionalVerifications := professionalVerifications d |}.

Definition withBookings (d : Db) (x : gmap Z Booking) (next : Z) : Db :=
  {| posts := posts d; profiles := profiles d; bookings := x;
     nextBookingId := next; credits := credits d;
     creditLogs := creditLogs d;
     verificationRequests := verificationRequests d;
     professionalVerifications := professionalVerifications d |}.

Definition withCredits (d : Db) (x : gmap string Z) : Db :=
  {| posts := posts d; profiles := profiles d; bookings := bookings d;
     nextBookingId := nextBookingId d; credits := x;
     creditLogs := creditLogs d;
     verificationRequests := verificationRequests d;
     professionalVerifications := professionalVerifications d |}.

Definition withCreditLogs (d : Db) (x : list CreditLog) : Db :=
  {| posts := posts d; profiles := profiles d; bookings := bookings d;
     nextBookingId := nextBookingId d; credits := credits d;
     creditLogs := x;
     verificationRequests := verificationRequests d;
     professionalVerifications := professionalVerifications d |}.

(** [o === s] for a nullable text column. *)
Definition eqStr (o : option string) (s : string) : bool :=
  match o with Some x => String.eqb x s | None => false end.

(** *** Posts and profiles *)

Definition createPost (d : Db) (post : InsertPost) : Db * Post :=
  let newPost := {| p_id := Z.of_nat (length (posts d)) + 1; p_data := post |} in
  (withPosts d (posts d ++ [newPost]), newPost).

Definition getProfileByUserId (d : Db) (userId : string) : option Profile :=
  profiles d !! userId.

(** *** Bookings *)

Definition createBooking (d : Db) (booking : InsertBooking) : Db * Booking :=
  let newBooking :=
    {| id := nextBookingId d;
       postId := ib_postId booking;
       workerSlug := ib_workerSlug booking;
       buyerUid := ib_buyerUid booking;
       tier := ib_tier booking;
       basePay := ib_basePay booking;
       platformFee := ib_platformFee booking;
       boost := Some (ib_boost booking);
       boostFee := Some (ib_boostFee booking);
       totalAmount := ib_totalAmount booking;
       status := Some (ib_status booking);
       paymentMethod := Some "external";
       stripeSessionId := None;
       stripePaymentIntentId := None;
       paymentStructure := Some (ib_paymentStructure booking);
       depositAmount := ib_depositAmount booking;
       finalAmount := ib_finalAmount booking;
       depositStatus := ib_depositStatus booking;
       finalStatus := ib_finalStatus booking;
       depositStripeSessionId := None;
       finalStripeSessionId := None;
       escrowStatus := Some "none";
       escrowAuthorizedAt := None;
       escrowCapturedAt := None |} in
  (withBookings d (<[nextBookingId d := newBooking]> (bookings d))
     (nextBookingId d + 1),
   newBooking).

Definition getBooking (d : Db) (bookingId : Z) : option Booking :=
  bookings d !! bookingId.

(** The object given to [db.update(bookings).set(...)]: a key that is
    absent leaves its column alone. *)
Record SetData := {
  s_status : option string;
  s_paymentMethod : option string;
  s_stripeSessionId : option string;
  s_stripePaymentIntentId : option string;
  s_depositStatus : option string;
  s_finalStatus : option string;
  s_depositStripeSessionId : option string;
  s_finalStripeSessionId : option string;
  s_escrowStatus : option string;
  s_escrowAuthorizedAt : option Z;
  s_escrowCapturedAt : option Z
}.

Definition over {A : Type} (new old : option A) : option A :=
  match new with Some _ => new | None => old end.

Definition applySet (b : Booking) (s : SetData) : Booking :=
  {| id := id b; postId := postId b; workerSlug := workerSlug b;
     buyerUid := buyerUid b; tier := tier b; basePay := basePay b;
     platformFee := platformFee b; boost := boost b;
     boostFee := boostFee b; totalAmount := totalAmount b;
     status := over (s_status s) (status b);
     paymentMethod := over (s_paymentMethod s) (paymentMethod b);
     stripeSessionId := over (s_stripeSessionId s) (stripeSessionId b);
     stripePaymentIntentId :=
       over (s_stripePaymentIntentId s) (stripePaymentIntentId b);
     paymentStructure := paymentStructure b;
     depositAmount := depositAmount b; finalAmount := finalAmount b;
     depositStatus := over (s_depositStatus s) (depositStatus b);
     finalStatus := over (s_finalStatus s) (finalStatus b);
     depositStripeSessionId :=
       over (s_depositStripeSessionId s) (depositStripeSessionId b);
     finalStripeSessionId :=
       over (s_finalStripeSessionId s) (finalStripeSessionId b);
     escrowStatus := over (s_escrowStatus s) (escrowStatus b);
     escrowAuthorizedAt :=
       over (s_escrowAuthorizedAt s) (escrowAuthorizedAt b);
     escrowCapturedAt := over (s_escrowCapturedAt s) (escrowCapturedAt b) |}.

(** [db.update(bookings).set(s).where(eq(bookings.id, id)).returning()],
    first row. *)
Definition updateBookings (d : Db) (bookingId : Z) (s : SetData)
  : Db * option Booking :=
  match bookings d !! bookingId with
  | Some b =>
      let updated := applySet b s in
      (withBookings d (<[bookingId := updated]> (bookings d))
         (nextBookingId d),
       Some updated)
  | None => (d, None)
  end.

Definition noSet : SetData :=
  {| s_status := None; s_paymentMethod := None; s_stripeSessionId := None;
     s_stripePaymentIntentId := None; s_depositStatus := None;
     s_finalStatus := None; s_depositStripeSessionId := None;
     s_finalStripeSessionId := None; s_escrowStatus := None;
     s_escrowAuthorizedAt := None; s_escrowCapturedAt := None |}.

Definition setStatus (s : SetData) (v : option string) : SetData :=
  {| s_status := v; s_paymentMethod := s_paymentMethod s;
     s_stripeSessionId := s_stripeSessionId s;
     s_stripePaymentIntentId := s_stripePaymentIntentId s;
     s_depositStatus := s_depositStatus s;
     s_finalStatus := s_finalStatus s;
     s_depositStripeSessionId := s_depositStripeSessionId s;
     s_finalStripeSessionId := s_finalStripeSessionId s;
     s_escrowStatus := s_escrowStatus s;
     s_escrowAuthorizedAt := s_escrowAuthorizedAt s;
     s_escrowCapturedAt := s_escrowCapturedAt s |}.

Definition updateBookingStatus (d : Db) (bookingId : Z) (status : string)
  : Db * option Booking :=
  updateBookings d bookingId (setStatus noSet (Some status)).

(** The [data] argument of [updateBookingStripeInfo].  Every handler
    gives at least one property; the query builder refuses an update
    that sets nothing. *)
Record StripeInfo := {
  si_stripeSessionId : option string;
  si_stripePaymentIntentId : option string;
  si_paymentMethod : option string;
  si_status : option string
}.

Definition updateBookingStripeInfo (d : Db) (bookingId : Z) (data : StripeInfo)
  : Db * option Booking :=
  updateBookings d bookingId
    {| s_status := si_status data;
       s_paymentMethod := si_paymentMethod data;
       s_stripeSessionId := si_stripeSessionId data;
       s_stripePaymentIntentId := si_stripePaymentIntentId data;
       s_depositStatus := None; s_finalStatus := None;
       s_depositStripeSessionId := None; s_finalStripeSessionId := None;
       s_escrowStatus := None; s_escrowAuthorizedAt := None;
       s_escrowCapturedAt := None |}.

Definition updateBookingInstallment (d : Db) (bookingId : Z)
    (installment status : string) (stripeSessionId : option string)
  : Db * option Booking :=
  let session :=
    if Js.truthy_str stripeSessionId then stripeSessionId else None in
  let setData :=
    if String.eqb installment "deposit" then
      {| s_status := None; s_paymentMethod := None;
         s_stripeSessionId := None; s_stripePaymentIntentId := None;
         s_depositStatus := Some status; s_finalStatus := None;
         s_depositStripeSessionId := session;
         s_finalStripeSessionId := None;
         s_escrowStatus := None; s_escrowAuthorizedAt := None;
         s_escrowCapturedAt := None |}
    else
      {| s_status := None; s_paymentMethod := None;
         s_stripeSessionId := None; s_stripePaymentIntentId := None;
         s_depositStatus := None; s_finalStatus := Some status;
         s_depositStripeSessionId := None;
         s_finalStripeSessionId := session;
         s_escrowStatus := None; s_escrowAuthorizedAt := None;
         s_escrowCapturedAt := None |} in
  let '(d1, updated) := updateBookings d bookingId setData in
  match updated with
  | Some u =>
      if eqStr (paymentStructure u) "split_50_50" then
        if eqStr (depositStatus u) "paid" && eqStr (finalStatus u) "paid" then
          updateBookingStatus d1 bookingId "confirmed"
        else if eqStr (depositStatus u) "paid" && eqStr (finalStatus u) "pending" then
          updateBookingStatus d1 bookingId "deposit_paid"
        else if eqStr (depositStatus u) "submitted"
                || eqStr (finalStatus u) "submitted" then
          updateBookingStatus d1 bookingId "payment_submitted"
        else (d1, updated)
      else (d1, updated)
  | None => (d1, updated)
  end.

Definition updateBookingEscrow (now : Z) (d : Db) (bookingId : Z)
    (escrowStatus : string) : Db * option Booking :=
  updateBookings d bookingId
    {| s_status := None; s_paymentMethod := None;
       s_stripeSessionId := None; s_stripePaymentIntentId := None;
       s_depositStatus := None; s_finalStatus := None;
       s_depositStripeSessionId := None; s_finalStripeSessionId := None;
       s_escrowStatus := Some escrowStatus;
       s_escrowAuthorizedAt :=
         if String.eqb escrowStatus "authorized" then Some now else None;
       s_escrowCapturedAt :=
         if String.eqb escrowStatus "authorized" then None
         else if String.eqb escrowStatus "captured" then Some now
         else None |}.

(** *** Credits: the single statements *)

(** [select ... from credits where user_id = userId], first row. *)
Definition getCredits (d : Db) (userId : string) : option Credit :=
  (λ b, {| c_userId := userId; c_balance := b |}) <$> credits d !! userId.

(** [insert into credits values (userId, balance) returning *].  It is
    only reached after [getCredits] found no row. *)
Definition insertCredits (d : Db) (userId : string) (balance : Z)
  : Db * Credit :=
  (withCredits d (<[userId := balance]> (credits d)),
   {| c_userId := userId; c_balance := balance |}).

(** [update credits set balance = ... where user_id = userId
    returning *], first row. *)
Definition updateCredits (d : Db) (userId : string) (balance : Z)
  : Db * option Credit :=
  match credits d !! userId with
  | Some _ =>
      (withCredits d (<[userId := balance]> (credits d)),
       Some {| c_userId := userId; c_balance := balance |})
  | None => (d, None)
  end.

(** [insert into credit_logs values (...)]. *)
Definition insertCreditLog (d : Db) (userId action : string) (amount : Z)
    (description : string) : Db :=
  withCreditLogs d
    (creditLogs d ++
     [ {| l_userId := userId; l_action := action; l_amount := amount;
          l_description := description |} ]).

(** *** Credits: the methods, one call running to its end *)

Definition initCredits (d : Db) (userId : string) (balance : Z)
  : Db * Credit :=
  match getCredits d userId with
  | Some existing => (d, existing)
  | None =>
      let '(d1, credit) := insertCredits d userId balance in
      let d2 :=
        insertCreditLog d1 userId "init" balance
          "Initial credit allocation" in
      (d2, credit)
  end.

Definition deductCredits (d : Db) (userId : string) (amount : Z)
    (action description : string) : Db * option Credit :=
  match getCredits d userId with
  | None => (d, None)
  | Some current =>
      if (c_balance current <? amount)%Z then (d, None)
      else
        let '(d1, updated) :=
          updateCredits d userId (c_balance current - amount) in
        let d2 := insertCreditLog d1 userId action (- amount) description in
        (d2, updated)
  end.

Definition addCredits (d : Db) (userId : string) (amount : Z)
    (action description : string) : Db * option Credit :=
  match getCredits d userId with
  | None =>
      let '(d1, credit) := initCredits d userId amount in
      (d1, Some credit)
  | Some current =>
      let '(d1, updated) :=
        updateCredits d userId (c_balance current + amount) in
      let d2 := insertCreditLog d1 userId action amount description in
      (d2, updated)
  end.

(** Newest first. *)
Definition getCreditLogs (d : Db) (userId : string) : list CreditLog :=
  rev (filter (λ l, l_userId l = userId) (creditLogs d)).

(** *** Verification records *)

Definition getVerificationsByUser (d : Db) (userId : string)
  : list VerificationRequest :=
  rev (filter (λ v, v_userId v = userId) (verificationRequests d)).

Definition getProfessionalVerificationByUserAndCategory (d : Db)
    (userId category : string) : option ProfessionalVerification :=
  head (rev (filter
    (λ r, pv_userId r = userId ∧ pv_category r = category
          ∧ pv_status r = Some "approved")
    (professionalVerifications d))).

End Storage.

(** ** server/routes.ts *)

Module Routes.
Import Schema Storage.

(** The authenticated user of a request: [claims.sub] and the address
    [getUserEmail] finds.  A request that is not authenticated carries no
    user. *)
Record User := { sub : string; email : option string }.

(** A call made to the payment provider. *)
Inductive StripeCall :=
  | SessionsCreate (unitAmount : Z) (bookingId : Z)
  | SessionsRetrieve (sessionId : string)
  | PaymentIntentsRetrieve (paymentIntentId : string)
  | PaymentIntentsCapture (paymentIntentId : string)
  | PaymentIntentsCancel (paymentIntentId : string).

(** What the provider answers; [None] and [false] stand for a call that
    throws. *)
Record CheckoutSession := {
  cs_id : string;
  cs_url : string;
  cs_payment_status : string;
  cs_payment_intent : option string
}.

Record Stripe := {
  sessionsCreate : Z → Z → option CheckoutSession;
  sessionsRetrieve : string → option CheckoutSession;
  paymentIntentsRetrieve : string → option string;
  paymentIntentsCapture : string → bool;
  paymentIntentsCancel : string → bool
}.

(** The database together with the calls that reached the provider. *)
Record World := { db : Db; stripeCalls : list StripeCall }.

Definition withDb (w : World) (d : Db) : World :=
  {| db := d; stripeCalls := stripeCalls w |}.

Definition called (w : World) (c : StripeCall) : World :=
  {| db := db w; stripeCalls := stripeCalls w ++ [c] |}.

Inductive Body :=
  | Message (message : string)
  | LicenseRequired (message category : string)
  | BookingJson (booking : option Booking)
  | PostJson (post : Post)
  | UrlJson (url : string)
  | Success (success : bool) (escrowStatus : option string)
      (message : string).

Record Response := { code : Z; body : Body }.

Definition res (c : Z) (b : Body) : Response := {| code := c; body := b |}.

Definition isAdmin (user : User) : bool :=
  match email user with
  | Some e => negb (String.eqb e "") && Js.includes ADMIN_EMAILS e
  | None => false
  end.

Definition ensureCredits (d : Db) (userId : string) : Db * Credit :=
  match getCredits d userId with
  | Some credit => (d, credit)
  | None => initCredits d userId Credits.INITIAL_CREDITS
  end.

Definition getUserPlan (d : Db) (userId : string) : string :=
  Js.or_str (getProfileByUserId d userId ≫= pr_plan) "free".

(** *** POST /api/posts *)

Definition withNsfw (p : InsertPost) (v : option bool) : InsertPost :=
  {| ip_userId := ip_userId p; ip_postType := ip_postType p;
     ip_title := ip_title p; ip_category := ip_category p;
     ip_tier := ip_tier p; ip_pay := ip_pay p;
     ip_promoterName := ip_promoterName p;
     ip_boostLevel := ip_boostLevel p;
     ip_boostExpiresAt := ip_boostExpiresAt p; ip_nsfw := v |}.

Definition withOwner (p : InsertPost) (userId : string)
    (boostExpiresAt : option Z) : InsertPost :=
  {| ip_userId := userId; ip_postType := ip_postType p;
     ip_title := ip_title p; ip_category := ip_category p;
     ip_tier := ip_tier p; ip_pay := ip_pay p;
     ip_promoterName := ip_promoterName p;
     ip_boostLevel := ip_boostLevel p;
     ip_boostExpiresAt := boostExpiresAt; ip_nsfw := ip_nsfw p |}.

Definition isAgeVerified (d : Db) (userId : string) : bool :=
  existsb
    (λ v, eqStr (v_status v) "approved" && Js.truthy_bool (v_ageConfirmed v))
    (getVerificationsByUser d userId).

(** The handler, given the body as [api.posts.create.input] parsed it.
    The notifications written for followers afterwards touch no table
    modelled here. *)
Definition postsCreate (now : Z) (w : World) (user : option User)
    (input0 : InsertPost) : World * Response :=
  match user with
  | None => (w, res 401 (Message "Unauthorized"))
  | Some usr =>
    let userId := sub usr in
    let plan := getUserPlan (db w) userId in
    let isEvent := eqStr (ip_postType input0) "event" in
    if isEvent && negb (Js.includes ALL_EVENT_CATEGORIES (ip_category input0))
    then
      (w, res 400 (Message
        ("Invalid event category: " +:+ ip_category input0
         +:+ ". Please select a valid event category.")))
    else
    let input1 :=
      if isEvent && String.eqb (ip_category input0) "Adult Club Event"
      then withNsfw input0 (Some true) else input0 in
    let gated :=
      Js.truthy_bool (ip_nsfw input1)
      || String.eqb (ip_category input1) "Adult/NSFW"
      || String.eqb (ip_category input1) "Adult Club Event" in
    if gated && negb (isAgeVerified (db w) userId) then
      (w, res 400 (Message
        "Age-verified ID required to post Adult/NSFW content. Complete ID verification first."))
    else
    let input := if gated then withNsfw input1 (Some true) else input1 in
    if negb isEvent
       && bool_decide (is_Some (Js.get (ip_category input) LICENSED_CATEGORIES))
       && negb (bool_decide (is_Some
            (getProfessionalVerificationByUserAndCategory (db w) userId
               (ip_category input))))
    then
      (w, res 400 (LicenseRequired
        ("Professional verification required to post in "
         +:+ ip_category input
         +:+ ". Submit your license or certification first.")
        (ip_category input)))
    else
    if Js.truthy_str (ip_boostLevel input)
       && negb (eqStr (ip_boostLevel input) "None")
       && negb (Subscriptions.canUseBoosts plan)
    then (w, res 400 (Message "Boosts require a Pro or Elite plan."))
    else
    let boostLevel := Js.or_str (ip_boostLevel input) "None" in
    let isNsfwEvent :=
      isEvent && (Js.truthy_bool (ip_nsfw input)
                  || String.eqb (ip_category input) "Adult Club Event") in
    let postCost :=
      if isEvent then Credits.getEventCreditCost isNsfwEvent
      else Credits.getPostCreditCost (ip_tier input) in
    let boostCost := Credits.getBoostCreditCost boostLevel in
    let totalCost := postCost + boostCost in
    let charged : Db * option Response :=
      if negb (Subscriptions.hasUnlimitedPosts plan) then
        let '(d1, credit) := ensureCredits (db w) userId in
        if negb (Credits.canAfford (c_balance credit) totalCost plan) then
          (d1, Some (res 400 (Message
            ("Insufficient credits. Need " +:+ pretty totalCost
             +:+ ", have " +:+ pretty (c_balance credit) +:+ "."))))
        else
          let actionLabel := if isEvent then "create_event" else "create_post" in
          let desc :=
            if isEvent then
              "Posted event: " +:+ ip_title input +:+ " ("
              +:+ ip_category input +:+ ", boost: " +:+ boostLevel +:+ ")"
            else
              "Created post: " +:+ ip_title input +:+ " (tier: "
              +:+ ip_tier input +:+ ", boost: " +:+ boostLevel +:+ ")" in
          (fst (deductCredits d1 userId totalCost actionLabel desc), None)
      else (db w, None) in
    match charged with
    | (d2, Some r) => (withDb w d2, r)
    | (d2, None) =>
        let boostExpiry := Pricing.getBoostExpiry now boostLevel in
        let '(d3, post) := createPost d2 (withOwner input userId boostExpiry) in
        (withDb w d3, res 201 (PostJson post))
    end
  end.

(** *** POST /api/bookings *)

(** The parsed body.  [basePay] is declared [z.number()] and stored in
    the integer column [base_pay]; a booking is only ever inserted for an
    integer. *)
Record BookingInput := {
  bi_postId : option Z;
  bi_workerSlug : option string;
  bi_tier : string;
  bi_basePay : Z;
  bi_boost : option string;
  bi_paymentStructure : option string
}.

(** The two halves of a split payment, as the handler computes them from
    the total in cents. *)
Definition splitDeposit (totalAmountCents : Z) : Z :=
  Js.ceil (inject_Z totalAmountCents / 2)%Q.

Definition splitFinal (totalAmountCents : Z) : Z :=
  totalAmountCents - Js.ceil (inject_Z totalAmountCents / 2)%Q.

Definition bookingsCreate (w : World) (user : option User)
    (input : BookingInput) : World * Response :=
  match user with
  | None => (w, res 401 (Message "Unauthorized"))
  | Some usr =>
    let buyerUid := sub usr in
    let plan := getUserPlan (db w) buyerUid in
    let applyCost := Credits.getApplyCreditCost in
    let charged : Db * option Response :=
      if negb (Credits.canAfford 0 applyCost plan) then
        let '(d1, credit) := ensureCredits (db w) buyerUid in
        if negb (Credits.canAfford (c_balance credit) applyCost plan) then
          (d1, Some (res 400 (Message
            ("Insufficient credits. Need " +:+ pretty applyCost
             +:+ " credit to book."))))
        else
          (fst (deductCredits d1 buyerUid applyCost "booking"
                  "Booking request created"), None)
      else (db w, None) in
    match charged with
    | (d2, Some r) => (withDb w d2, r)
    | (d2, None) =>
        let pricing :=
          Pricing.calculateTotal (inject_Z (bi_basePay input))
            (bi_tier input) (Js.or_str (bi_boost input) "None") in
        let totalAmountCents := Js.round (Pricing.totalAmount pricing * 100)%Q in
        let payStructure := Js.or_str (bi_paymentStructure input) "full_upfront" in
        let isSplit := String.eqb payStructure "split_50_50" in
        let depositAmount :=
          if isSplit then Some (splitDeposit totalAmountCents) else None in
        let finalAmount :=
          if isSplit then Some (splitFinal totalAmountCents) else None in
        let '(d3, booking) :=
          createBooking d2
            {| ib_postId :=
                 if Js.truthy_int (bi_postId input) then bi_postId input
                 else None;
               ib_workerSlug :=
                 if Js.truthy_str (bi_workerSlug input)
                 then bi_workerSlug input else None;
               ib_buyerUid := buyerUid;
               ib_tier := bi_tier input;
               ib_basePay := bi_basePay input;
               ib_platformFee := Js.round (Pricing.tierFee pricing * 100)%Q;
               ib_boost := Js.or_str (bi_boost input) "None";
               ib_boostFee := Js.round (Pricing.boostFee pricing * 100)%Q;
               ib_totalAmount := totalAmountCents;
               ib_status := "pending_payment";
               ib_paymentStructure := payStructure;
               ib_depositAmount := depositAmount;
               ib_finalAmount := finalAmount;
               ib_depositStatus := if isSplit then Some "pending" else None;
               ib_finalStatus := if isSplit then Some "pending" else None |} in
        (withDb w d3, res 201 (BookingJson (Some booking)))
    end
  end.

(** *** POST /api/bookings/:id/mark-paid *)

Definition bookingsMarkPaid (w : World) (user : option User) (bookingId : Z)
    (installment : option string) : World * Response :=
  match user with
  | None => (w, res 401 (Message "Unauthorized"))
  | Some usr =>
    match getBooking (db w) bookingId with
    | None => (w, res 404 (Message "Booking not found"))
    | Some booking =>
      if negb (String.eqb (buyerUid booking) (sub usr)) then
        (w, res 403 (Message "Not your booking"))
      else if eqStr (paymentStructure booking) "split_50_50" then
        match installment with
        | Some inst =>
            if negb (Js.includes ["deposit"; "final"] inst) then
              (w, res 400 (Message
                "Must specify installment: 'deposit' or 'final'"))
            else if String.eqb inst "final"
                    && negb (eqStr (depositStatus booking) "paid") then
              (w, res 400 (Message
                "Deposit must be confirmed before paying the final installment"))
            else
              let '(d1, updated) :=
                updateBookingInstallment (db w) bookingId inst "submitted"
                  None in
              (withDb w d1, res 200 (BookingJson updated))
        | None =>
            (w, res 400 (Message
              "Must specify installment: 'deposit' or 'final'"))
        end
      else
        let '(d1, updated) :=
          updateBookingStatus (db w) bookingId "payment_submitted" in
        (withDb w d1, res 200 (BookingJson updated))
    end
  end.

(** *** POST /api/bookings/:id/confirm *)

Definition bookingsConfirm (w : World) (user : option User) (bookingId : Z)
    (installment : option string) : World * Response :=
  match user with
  | None => (w, res 401 (Message "Unauthorized"))
  | Some usr =>
    if negb (isAdmin usr) then
      (w, res 403 (Message "Admin access required"))
    else
    match getBooking (db w) bookingId with
    | None => (w, res 404 (Message "Booking not found"))
    | Some booking =>
      let viaInstallment :=
        if eqStr (paymentStructure booking) "split_50_50" then
          match installment with
          | Some inst =>
              if Js.includes ["deposit"; "final"] inst then Some inst
              else None
          | None => None
          end
        else None in
      match viaInstallment with
      | Some inst =>
          let '(d1, updated) :=
            updateBookingInstallment (db w) bookingId inst "paid" None in
          (withDb w d1, res 200 (BookingJson updated))
      | None =>
          let '(d1, updated) :=
            updateBookingStatus (db w) bookingId "confirmed" in
          (withDb w d1, res 200 (BookingJson updated))
      end
    end
  end.

(** *** POST /api/bookings/:id/cancel *)

Definition bookingsCancel (w : World) (user : option User) (bookingId : Z)
  : World * Response :=
  match user with
  | None => (w, res 401 (Message "Unauthorized"))
  | Some usr =>
    match getBooking (db w) bookingId with
    | None => (w, res 404 (Message "Booking not found"))
    | Some booking =>
      if negb (String.eqb (buyerUid booking) (sub usr)) && negb (isAdmin usr)
      then (w, res 403 (Message "Not authorized"))
      else
        let '(d1, updated) :=
          updateBookingStatus (db w) bookingId "cancelled" in
        (withDb w d1, res 200 (BookingJson updated))
    end
  end.

(** *** The escrow handlers

    [bookingId] is [req.body.bookingId]; a failing provider call is
    caught and answered with 500. *)

Definition escrowReserve (stripe : Stripe) (w : World) (user : option User)
    (bookingId : option Z) : World * Response :=
  match user with
  | None => (w, res 401 (Message "Unauthorized"))
  | Some usr =>
    if negb (Js.truthy_int bookingId) then
      (w, res 400 (Message "bookingId is required"))
    else
    let bid := default 0 bookingId in
    match getBooking (db w) bid with
    | None => (w, res 404 (Message "Booking not found"))
    | Some booking =>
      if negb (String.eqb (buyerUid booking) (sub usr)) then
        (w, res 403 (Message "Not your booking"))
      else if negb (eqStr (status booking) "pending_payment") then
        (w, res 400 (Message "Booking is not awaiting payment"))
      else if eqStr (escrowStatus booking) "authorized" then
        (w, res 400 (Message "Payment already reserved in escrow"))
      else
        let totalCents := totalAmount booking in
        let w1 := called w (SessionsCreate totalCents bid) in
        match sessionsCreate stripe totalCents bid with
        | None =>
            (w1, res 500 (Message "Failed to create escrow reservation"))
        | Some session =>
            let '(d1, _) :=
              updateBookingStripeInfo (db w1) bid
                {| si_stripeSessionId := Some (cs_id session);
                   si_stripePaymentIntentId := None;
                   si_paymentMethod := Some "escrow";
                   si_status := None |} in
            (withDb w1 d1, res 200 (UrlJson (cs_url session)))
        end
    end
  end.

Definition escrowConfirmReservation (now : Z) (stripe : Stripe) (w : World)
    (user : option User) (bookingId : option Z) (sessionId : option string)
  : World * Response :=
  match user with
  | None => (w, res 401 (Message "Unauthorized"))
  | Some usr =>
    if negb (Js.truthy_int bookingId) then
      (w, res 400 (Message "bookingId is required"))
    else
    let bid := default 0 bookingId in
    match getBooking (db w) bid with
    | None => (w, res 404 (Message "Booking not found"))
    | Some booking =>
      if negb (String.eqb (buyerUid booking) (sub usr)) then
        (w, res 403 (Message "Not your booking"))
      else if eqStr (escrowStatus booking) "authorized" then
        (w, res 200 (Success true (Some "authorized")
                       "Escrow already confirmed"))
      else
        let checkoutSessionId :=
          if Js.truthy_str sessionId then sessionId
          else stripeSessionId booking in
        if negb (Js.truthy_str checkoutSessionId) then
          (w, res 400 (Message "No checkout session found"))
        else
        let csid := default "" checkoutSessionId in
        let w1 := called w (SessionsRetrieve csid) in
        match sessionsRetrieve stripe csid with
        | None =>
            (w1, res 500 (Message "Failed to confirm escrow reservation"))
        | Some session =>
          if negb (String.eqb (cs_payment_status session) "paid")
             || negb (Js.truthy_str (cs_payment_intent session)) then
            (w1, res 200 (Success false None
              ("Checkout session status: " +:+ cs_payment_status session)))
          else
          let paymentIntentId := default "" (cs_payment_intent session) in
          let w2 := called w1 (PaymentIntentsRetrieve paymentIntentId) in
          match paymentIntentsRetrieve stripe paymentIntentId with
          | None =>
              (w2, res 500 (Message "Failed to confirm escrow reservation"))
          | Some piStatus =>
            if String.eqb piStatus "requires_capture" then
              let '(d1, _) :=
                updateBookingStripeInfo (db w2) bid
                  {| si_stripeSessionId := None;
                     si_stripePaymentIntentId := Some paymentIntentId;
                     si_paymentMethod := None;
                     si_status := None |} in
              let '(d2, _) := updateBookingEscrow now d1 bid "authorized" in
              let '(d3, _) := updateBookingStatus d2 bid "payment_submitted" in
              (withDb w2 d3,
               res 200 (Success true (Some "authorized")
                          "Payment reserved in escrow"))
            else
              (w2, res 200 (Success false None
                ("Payment intent status: " +:+ piStatus)))
          end
        end
    end
  end.

Definition escrowRelease (now : Z) (stripe : Stripe) (w : World)
    (user : option User) (bookingId : option Z) : World * Response :=
  match user with
  | None => (w, res 401 (Message "Unauthorized"))
  | Some usr =>
    if negb (Js.truthy_int bookingId) then
      (w, res 400 (Message "bookingId is required"))
    else
    let bid := default 0 bookingId in
    match getBooking (db w) bid with
    | None => (w, res 404 (Message "Booking not found"))
    | Some booking =>
      if negb (String.eqb (buyerUid booking) (sub usr)) && negb (isAdmin usr)
      then
        (w, res 403 (Message
          "Only the host or admin can release escrow funds"))
      else if negb (eqStr (escrowStatus booking) "authorized") then
        (w, res 400 (Message "No authorized escrow to release"))
      else if negb (Js.truthy_str (stripePaymentIntentId booking)) then
        (w, res 400 (Message "No payment intent found"))
      else
        let pi := default "" (stripePaymentIntentId booking) in
        let w1 := called w (PaymentIntentsCapture pi) in
        if negb (paymentIntentsCapture stripe pi) then
          (w1, res 500 (Message "Failed to release escrow funds"))
        else
          let '(d1, _) := updateBookingEscrow now (db w1) bid "captured" in
          let '(d2, _) := updateBookingStatus d1 bid "confirmed" in
          (withDb w1 d2,
           res 200 (Success true None "Escrow funds released to talent"))
    end
  end.

Definition escrowCancel (now : Z) (stripe : Stripe) (w : World)
    (user : option User) (bookingId : option Z) : World * Response :=
  match user with
  | None => (w, res 401 (Message "Unauthorized"))
  | Some usr =>
    if negb (Js.truthy_int bookingId) then
      (w, res 400 (Message "bookingId is required"))
    else
    let bid := default 0 bookingId in
    match getBooking (db w) bid with
    | None => (w, res 404 (Message "Booking not found"))
    | Some booking =>
      if negb (String.eqb (buyerUid booking) (sub usr)) && negb (isAdmin usr)
      then
        (w, res 403 (Message "Only the host or admin can cancel escrow"))
      else if negb (eqStr (escrowStatus booking) "authorized") then
        (w, res 400 (Message "No authorized escrow to cancel"))
      else if negb (Js.truthy_str (stripePaymentIntentId booking)) then
        (w, res 400 (Message "No payment intent found"))
      else
        let pi := default "" (stripePaymentIntentId booking) in
        let w1 := called w (PaymentIntentsCancel pi) in
        if negb (paymentIntentsCancel stripe pi) then
          (w1, res 500 (Message "Failed to cancel escrow"))
        else
          let '(d1, _) := updateBookingEscrow now (db w1) bid "cancelled" in
          let '(d2, _) := updateBookingStatus d1 bid "cancelled" in
          (withDb w1 d2,
           res 200 (Success true None "Escrow cancelled and funds returned"))
    end
  end.

End Routes.

(** ** Concurrent calls of [deductCredits]

    The method awaits three statements one after the other: the select
    of [getCredits], the update of [credits] and the insert into
    [credit_logs].  Node runs a call up to its next [await], so calls in
    flight interleave statement by statement.  A call is a small state
    machine over those statements and a schedule names the call that
    runs its next statement. *)

Module Concurrent.
Import Schema Storage.

Record DeductCall := {
  userId : string;
  amount : Z;
  action : string;
  description : string
}.

Inductive Pc :=
  | Start
  | Selected (current : Credit)
  | Updated (updated : option Credit)
  | Returned (result : option Credit).

Record Thread := { call : DeductCall; pc : Pc }.

(** One statement of one call. *)
Definition stepDeduct (d : Db) (t : Thread) : Db * Thread :=
  let c := call t in
  match pc t with
  | Start =>
      match getCredits d (userId c) with
      | None => (d, {| call := c; pc := Returned None |})
      | Some current =>
          if (c_balance current <? amount c)%Z
          then (d, {| call := c; pc := Returned None |})
          else (d, {| call := c; pc := Selected current |})
      end
  | Selected current =>
      let '(d1, updated) :=
        updateCredits d (userId c) (c_balance current - amount c) in
      (d1, {| call := c; pc := Updated updated |})
  | Updated updated =>
      (insertCreditLog d (userId c) (action c) (- amount c) (description c),
       {| call := c; pc := Returned updated |})
  | Returned _ => (d, t)
  end.

Definition State : Type := Db * list Thread.

(** The call at index [i] runs its next statement. *)
Definition step (s : State) (i : nat) : State :=
  match s.2 !! i with
  | Some t =>
      let '(d1, t1) := stepDeduct s.1 t in
      (d1, <[i := t1]> s.2)
  | None => s
  end.

Definition run (schedule : list nat) (s : State) : State :=
  foldl step s schedule.

Definition start (c : DeductCall) : Thread := {| call := c; pc := Start |}.

Definition result (t : Thread) : option (option Credit) :=
  match pc t with Returned r => Some r | _ => None end.

Definition succeeded (t : Thread) : bool :=
  match pc t with Returned (Some _) => true | _ => false end.

Definition failed (t : Thread) : bool :=
  match pc t with Returned None => true | _ => false end.

Definition finished (t : Thread) : bool :=
  match pc t with Returned _ => true | _ => false end.

End Concurrent.

(** ** Vocabulary of the properties *)

Module Ledger.
Import Schema Storage.

(** One ledger operation with its arguments. *)
Inductive Op :=
  | Init (userId : string) (balance : Z)
  | Deduct (userId : string) (amount : Z) (action description : string)
  | Add (userId : string) (amount : Z) (action description : string).

Definition apply (d : Db) (op : Op) : Db :=
  match op with
  | Init u b => (initCredits d u b).1
  | Deduct u a act desc => (deductCredits d u a act desc).1
  | Add u a act desc => (addCredits d u a act desc).1
  end.

Definition applyAll (ops : list Op) (d : Db) : Db := foldl apply d ops.

(** The sum of the amounts [getCreditLogs] lists for a user. *)
Definition logSum (d : Db) (userId : string) : Z :=
  foldr Z.add 0 (l_amount <$> getCreditLogs d userId).

(** The balance a user holds; a user without a row holds nothing. *)
Definition balanceOf (d : Db) (userId : string) : Z :=
  match getCredits d userId with
  | Some c => c_balance c
  | None => 0
  end.

Definition entry (userId action : string) (amount : Z) (description : string)
  : CreditLog :=
  {| l_userId := userId; l_action := action; l_amount := amount;
     l_description := description |}.

End Ledger.

Module Race.
Import Schema Storage Concurrent Ledger.

Definition debit6 : DeductCall :=
  {| userId := "u1"; amount := 6; action := "apply";
     description := "Applied to: gig" |}.

(** Two calls for 6 credits in flight against a balance of 10. *)
Definition race : State :=
  ((initCredits emptyDb "u1" 10).1, [start debit6; start debit6]).

(** The first call runs to its end, then the second. *)
Definition oneAfterTheOther : list nat := [0; 0; 0; 1; 1; 1]%nat.

(** The calls alternate, statement by statement. *)
Definition alternating : list nat := [0; 1; 0; 1; 0; 1]%nat.

Definition successes (s : State) : nat :=
  length (filter (λ t, succeeded t = true) s.2).

Definition failures (s : State) : nat :=
  length (filter (λ t, failed t = true) s.2).

Definition allFinished (s : State) : bool := forallb finished s.2.

(** The row a call of [race] writes. *)
Definition wrote4 : Credit := {| c_userId := "u1"; c_balance := 4 |}.

(** What a call of [race] can hold at each point. *)
Definition okPc (p : Pc) : Prop :=
  match p with
  | Start => True
  | Selected current => c_balance current = 10
  | Updated updated => updated = Some wrote4
  | Returned (Some c) => c = wrote4
  | Returned None => True
  end.

(** The call has run its update. *)
Definition passed (p : Pc) : bool :=
  match p with
  | Updated _ | Returned (Some _) => true
  | _ => false
  end.

(** The call has returned [undefined]. *)
Definition refused (p : Pc) : bool :=
  match p with Returned None => true | _ => false end.

(** The states [race] can reach: the balance is 10 until a call has run
    its update and 4 from then on, and a call is refused only after the
    other has run its update. *)
Definition raceInv (s : State) : Prop :=
  ∃ b p0 p1,
    credits s.1 !! "u1" = Some b
    ∧ s.2 = [ {| call := debit6; pc := p0 |}; {| call := debit6; pc := p1 |} ]
    ∧ okPc p0 ∧ okPc p1
    ∧ b = (if passed p0 || passed p1 then 4 else 10)
    ∧ (refused p0 = true → passed p1 = true)
    ∧ (refused p1 = true → passed p0 = true).

(** A call that has passed its check read a balance covering its
    amount. *)
Definition covered (t : Thread) : Prop :=
  match pc t with
  | Selected current => amount (call t) ≤ c_balance current
  | _ => True
  end.

End Race.

Module Samples.
Import Schema Storage Routes.

(** A split booking of 10000 cents as [POST /api/bookings] inserts it. *)
Definition splitBooking : InsertBooking :=
  {| ib_postId := None; ib_workerSlug := Some "dj-nova";
     ib_buyerUid := "buyer"; ib_tier := "Projects"; ib_basePay := 98;
     ib_platformFee := 200; ib_boost := "None"; ib_boostFee := 0;
     ib_totalAmount := 10000; ib_status := "pending_payment";
     ib_paymentStructure := "split_50_50";
     ib_depositAmount := Some 5000; ib_finalAmount := Some 5000;
     ib_depositStatus := Some "pending";
     ib_finalStatus := Some "pending" |}.

(** The tables holding that booking alone, under id 1. *)
Definition oneSplitBooking : Db := (createBooking emptyDb splitBooking).1.

Definition world (d : Db) : World := {| db := d; stripeCalls := [] |}.

Definition buyer : User := {| sub := "buyer"; email := Some "buyer@example.org" |}.

Definition admin : User :=
  {| sub := "ops"; email := Some "cubansreupspots@gmail.com" |}.

Definition stranger : User :=
  {| sub := "someone"; email := Some "someone@example.org" |}.

(** A booking paid in full, as [POST /api/bookings] inserts it. *)
Definition fullBooking : InsertBooking :=
  {| ib_postId := None; ib_workerSlug := Some "dj-nova";
     ib_buyerUid := "buyer"; ib_tier := "Projects"; ib_basePay := 98;
     ib_platformFee := 200; ib_boost := "None"; ib_boostFee := 0;
     ib_totalAmount := 10000; ib_status := "pending_payment";
     ib_paymentStructure := "full_upfront";
     ib_depositAmount := None; ib_finalAmount := None;
     ib_depositStatus := None; ib_finalStatus := None |}.

Definition oneFullBooking : Db := (createBooking emptyDb fullBooking).1.

(** The status a handler left on a booking. *)
Definition statusOf (w : World) (bookingId : Z) : option string :=
  getBooking (db w) bookingId ≫= status.

(** A response that turns the request down. *)
Definition rejected (r : Response) : Prop :=
  code r = 400 ∨ code r = 401 ∨ code r = 403 ∨ code r = 404.

(** That booking after an admin confirmed it. *)
Definition confirmedWorld : World :=
  (bookingsConfirm (world oneFullBooking) (Some admin) 1 None).1.

(** Tables in which the user [host] holds an approved, age-confirmed
    verification. *)
Definition verifiedHost : Db :=
  {| posts := []; profiles := ∅; bookings := ∅; nextBookingId := 1;
     credits := ∅; creditLogs := [];
     verificationRequests :=
       [ {| v_userId := "host"; v_status := Some "approved";
            v_ageConfirmed := Some true |} ];
     professionalVerifications := [] |}.

Definition host : User := {| sub := "host"; email := Some "host@example.org" |}.

(** An event in the Adult Club Event category sent with [nsfw: false]. *)
Definition clubNight : InsertPost :=
  {| ip_userId := "host"; ip_postType := Some "event";
     ip_title := "Friday Late"; ip_category := "Adult Club Event";
     ip_tier := "Slots"; ip_pay := 0; ip_promoterName := "Late Co";
     ip_boostLevel := None; ip_boostExpiresAt := None;
     ip_nsfw := Some false |}.

(** A provider whose every call succeeds. *)
Definition okStripe : Stripe :=
  {| sessionsCreate := λ _ _, Some
       {| cs_id := "cs_1"; cs_url := "https://checkout/cs_1";
          cs_payment_status := "unpaid"; cs_payment_intent := None |};
     sessionsRetrieve := λ sid, Some
       {| cs_id := sid; cs_url := "https://checkout/cs_1";
          cs_payment_status := "paid"; cs_payment_intent := Some "pi_1" |};
     paymentIntentsRetrieve := λ _, Some "requires_capture";
     paymentIntentsCapture := λ _, true;
     paymentIntentsCancel := λ _, true |}.

End Samples.

(** ** More of shared/schema.ts: the category groups *)

Module Categories.

Definition CATEGORIES : list string :=
  [ "Music"; "Dance"; "Comedy"; "Modeling"; "Acting";
    "Hair & Beauty"; "Barber"; "Nails"; "Errands & Tasks";
    "Companionship"; "Tutoring"; "Photography"; "Videography"; "DJ/Audio";
    "Bartending"; "Catering"; "Waitstaff & Servers";
    "Event Setup & Takedown"; "Promoters & Marketing";
    "Tailoring & Alterations"; "Custom Sneakers & Shoes";
    "Fitness & Training"; "Chefs & Culinary";
    "Entertainment Managers"; "Consultants";
    "Warehouse & Logistics"; "Cleaning & Janitorial";
    "Sales & Retail"; "Studio & Engineering";
    "General Labor"; "Skilled Trades";
    "Other" ].

Definition NSFW_CATEGORY : string := "Adult/NSFW".

Definition ALL_CATEGORIES : list string := CATEGORIES ++ [ NSFW_CATEGORY ].

(** The object literal, in the order of its keys. *)
Definition CATEGORY_GROUPS : list (string * list string) :=
  [ ("Music & Entertainment",
     [ "Music"; "Dance"; "Comedy"; "Acting"; "DJ/Audio";
       "Studio & Engineering"; "Entertainment Managers" ]);
    ("Beauty & Style",
     [ "Hair & Beauty"; "Barber"; "Nails"; "Modeling";
       "Tailoring & Alterations"; "Custom Sneakers & Shoes" ]);
    ("Food & Hospitality",
     [ "Bartending"; "Catering"; "Waitstaff & Servers"; "Chefs & Culinary" ]);
    ("Events & Production",
     [ "Promoters & Marketing"; "Photography"; "Videography";
       "Event Setup & Takedown" ]);
    ("Labor & Trades",
     [ "Warehouse & Logistics"; "General Labor"; "Skilled Trades";
       "Cleaning & Janitorial" ]);
    ("Professional Services",
     [ "Tutoring"; "Consultants"; "Fitness & Training"; "Sales & Retail" ]);
    ("Personal Services",
     [ "Errands & Tasks"; "Companionship" ]) ].

(** The first group, in key order, that includes the category: what both
    loops over [CATEGORY_GROUPS] return from. *)
Definition groupOf (category : string) : option (string * list string) :=
  List.find (λ g, Js.includes g.2 category) CATEGORY_GROUPS.

Definition getRelatedCategories (category : string) : list string :=
  match groupOf category with
  | Some g => g.2
  | None => [ category ]
  end.

Definition getCategoryGroupName (category : string) : option string :=
  match groupOf category with
  | Some g => Some g.1
  | None => None
  end.

End Categories.

(** ** More of shared/pricing.ts: is a boost still running *)

Module BoostClock.

(** [now] stands for the [new Date()] the function compares with. *)
Definition isBoostActive (now : Z) (boostExpiresAt : option Z) : bool :=
  match boostExpiresAt with
  | None => false
  | Some expiry => now <? expiry
  end.

End BoostClock.

(** ** Vocabulary of the storage properties *)

Module StorageLaws.
Import Schema Storage Ledger.

(** Ids handed out by the serial column lie below the next one, and a
    row is stored under its own id. *)
Definition idsFresh (d : Db) : Prop :=
  ∀ k b, bookings d !! k = Some b → k < nextBookingId d ∧ id b = k.

(** A call of one of the four methods that update a booking. *)
Inductive BookingUpdate :=
  | UStatus (status : string)
  | UStripeInfo (data : StripeInfo)
  | UInstallment (installment status : string)
      (stripeSessionId : option string)
  | UEscrow (now : Z) (escrowStatus : string).

Definition applyUpdate (d : Db) (bookingId : Z) (u : BookingUpdate)
  : Db * option Booking :=
  match u with
  | UStatus st => updateBookingStatus d bookingId st
  | UStripeInfo data => updateBookingStripeInfo d bookingId data
  | UInstallment inst st sess => updateBookingInstallment d bookingId inst st sess
  | UEscrow now st => updateBookingEscrow now d bookingId st
  end.

(** The columns no update method writes. *)
Definition sameTerms (a b : Booking) : Prop :=
  id a = id b ∧ postId a = postId b ∧ workerSlug a = workerSlug b
  ∧ buyerUid a = buyerUid b ∧ tier a = tier b ∧ basePay a = basePay b
  ∧ platformFee a = platformFee b ∧ boost a = boost b
  ∧ boostFee a = boostFee b ∧ totalAmount a = totalAmount b
  ∧ paymentStructure a = paymentStructure b
  ∧ depositAmount a = depositAmount b ∧ finalAmount a = finalAmount b.

(** What every update method does, stated once for [updateBookings] run
    one or two times. *)
Definition updateLike (d : Db) (k : Z) (out : Db * option Booking) : Prop :=
  (getBooking d k = None → out = (d, None))
  ∧ (∀ b, getBooking d k = Some b →
       ∃ u, out.2 = Some u ∧ getBooking out.1 k = Some u ∧ sameTerms u b)
  ∧ (∀ k', k' ≠ k → getBooking out.1 k' = getBooking d k')
  ∧ nextBookingId out.1 = nextBookingId d
  ∧ credits out.1 = credits d ∧ creditLogs out.1 = creditLogs d
  ∧ posts out.1 = posts d.

(** A ledger operation that grants nothing negative. *)
Definition grantsNonneg (op : Op) : Prop :=
  match op with
  | Init _ balance => 0 ≤ balance
  | Add _ amount _ _ => 0 ≤ amount
  | Deduct _ _ _ _ => True
  end.

End StorageLaws.

(** ** Vocabulary of the handler properties *)

Module HandlerLaws.
Import Schema Storage Routes.

(** The escrow status a handler left on a booking. *)
Definition escrowOf (w : World) (bookingId : Z) : option string :=
  getBooking (db w) bookingId ≫= escrowStatus.

(** The provider answers that let the escrow of a booking run from
    reservation to capture: a session is created, it is later reported
    paid with a payment intent that awaits capture, and the capture goes
    through. *)
Record Cooperates (stripe : Stripe) (bookingId amount : Z)
    (session : CheckoutSession) (paymentIntentId : string) : Prop := {
  co_create : sessionsCreate stripe amount bookingId = Some session;
  co_id : cs_id session ≠ "";
  co_retrieve :
    sessionsRetrieve stripe (cs_id session)
    = Some {| cs_id := cs_id session; cs_url := cs_url session;
              cs_payment_status := "paid";
              cs_payment_intent := Some paymentIntentId |};
  co_intent : paymentIntentId ≠ "";
  co_status :
    paymentIntentsRetrieve stripe paymentIntentId = Some "requires_capture";
  co_capture : paymentIntentsCapture stripe paymentIntentId = true
}.

End HandlerLaws.

(** An escrow taken as far as the authorization, for the examples. *)
Module Scenarios.
Import Schema Storage Routes Samples.

Definition authorizedWorld : World :=
  let w1 := (escrowReserve okStripe (world oneFullBooking)
               (Some buyer) (Some 1)).1 in
  (escrowConfirmReservation 50 okStripe w1 (Some buyer) (Some 1) None).1.

Definition authorizedBooking : Booking :=
  default (createBooking emptyDb fullBooking).2
    (getBooking (db authorizedWorld) 1).

End Scenarios.

(** ** The ID verification requests (server/storage.ts, server/routes.ts)

    Rows of [verification_requests] are kept in insertion order and are
    never deleted, so the serial id of a row is its position counted
    from 1.  The image paths, [adminNotes] and [reviewedAt] are copied
    and never read, and are left out; so is the [verified] column of
    [profiles], which the review handler sets on approval. *)
Module Verification.
Import Schema Storage Routes.

Definition withVerificationRequests (d : Db) (x : list VerificationRequest)
  : Db :=
  {| posts := posts d; profiles := profiles d; bookings := bookings d;
     nextBookingId := nextBookingId d; credits := credits d;
     creditLogs := creditLogs d; verificationRequests := x;
     professionalVerifications := professionalVerifications d |}.

(** What a handler added here answers: a JSON value or a message. *)
Inductive Answer (A : Type) :=
  | Json (code : Z) (value : A)
  | Failure (code : Z) (message : string).
Arguments Json {A} code value.
Arguments Failure {A} code message.

Definition codeOf {A : Type} (a : Answer A) : Z :=
  match a with Json c _ => c | Failure c _ => c end.

(** The value handed to [createVerificationRequest].  [ageConfirmed] is
    absent ([None]), [null] or a boolean; [status] is not part of the
    insert schema. *)
Record InsertVerification := {
  iv_userId : string;
  iv_ageConfirmed : option (option bool)
}.

(** An absent [ageConfirmed] takes the column default [false], and
    [status] the default "pending". *)
Definition createVerificationRequest (d : Db) (data : InsertVerification)
  : Db * VerificationRequest :=
  let record :=
    {| v_userId := iv_userId data; v_status := Some "pending";
       v_ageConfirmed := default (Some false) (iv_ageConfirmed data) |} in
  (withVerificationRequests d (verificationRequests d ++ [record]), record).

Definition getAllVerificationRequests (d : Db) : list VerificationRequest :=
  rev (verificationRequests d).

Definition updateVerificationStatus (d : Db) (id : Z) (status : string)
  : Db * option VerificationRequest :=
  if id <? 1 then (d, None) else
  match verificationRequests d !! Z.to_nat (id - 1) with
  | None => (d, None)
  | Some v =>
      let updated :=
        {| v_userId := v_userId v; v_status := Some status;
           v_ageConfirmed := v_ageConfirmed v |} in
      (withVerificationRequests d
         (<[Z.to_nat (id - 1) := updated]> (verificationRequests d)),
       Some updated)
  end.

(** *** POST /api/verification

    [idImagePath] is [req.body.idImagePath], a string or absent. *)
Definition verificationSubmit (w : World) (user : option User)
    (idImagePath : option string) : World * Answer VerificationRequest :=
  match user with
  | None => (w, Failure 401 "Unauthorized")
  | Some usr =>
    if negb (Js.truthy_str idImagePath) then
      (w, Failure 400 "idImagePath is required")
    else
      let '(d1, verification) :=
        createVerificationRequest (db w)
          {| iv_userId := sub usr; iv_ageConfirmed := None |} in
      (withDb w d1, Json 201 verification)
  end.

(** *** POST /api/admin/verifications/:id/review

    [status] is [req.body.status]; any value that is not one of the two
    strings is turned down, so a string or nothing covers it. *)
Definition verificationReview (w : World) (user : option User) (id : Z)
    (status : option string) : World * Answer VerificationRequest :=
  match user with
  | None => (w, Failure 401 "Unauthorized")
  | Some usr =>
    if negb (isAdmin usr) then (w, Failure 403 "Admin access required")
    else
    match status with
    | Some s =>
      if negb (Js.truthy_str status)
         || negb (Js.includes ["approved"; "rejected"] s)
      then (w, Failure 400 "Status must be 'approved' or 'rejected'")
      else
        match updateVerificationStatus (db w) id s with
        | (d1, None) =>
            (withDb w d1, Failure 404 "Verification request not found")
        | (d1, Some updated) => (withDb w d1, Json 200 updated)
        end
    | None => (w, Failure 400 "Status must be 'approved' or 'rejected'")
    end
  end.

End Verification.

(** ** Requests served one after the other *)
Module Traffic.
Import Schema Storage Routes Verification.

(** The writing requests modelled so far. *)
Inductive Request :=
  | PostsCreate (user : option User) (input : InsertPost)
  | BookingsCreate (user : option User) (input : BookingInput)
  | BookingsMarkPaid (user : option User) (bookingId : Z)
      (installment : option string)
  | BookingsConfirm (user : option User) (bookingId : Z)
      (installment : option string)
  | BookingsCancel (user : option User) (bookingId : Z)
  | EscrowReserve (user : option User) (bookingId : option Z)
  | EscrowConfirmReservation (user : option User) (bookingId : option Z)
      (sessionId : option string)
  | EscrowRelease (user : option User) (bookingId : option Z)
  | EscrowCancel (user : option User) (bookingId : option Z)
  | VerificationSubmit (user : option User) (idImagePath : option string)
  | VerificationReview (user : option User) (id : Z)
      (status : option string).

(** The world a request leaves, served at time [now]. *)
Definition serve (stripe : Stripe) (w : World) (now : Z) (r : Request)
  : World :=
  match r with
  | PostsCreate u i => (postsCreate now w u i).1
  | BookingsCreate u i => (bookingsCreate w u i).1
  | BookingsMarkPaid u k i => (bookingsMarkPaid w u k i).1
  | BookingsConfirm u k i => (bookingsConfirm w u k i).1
  | BookingsCancel u k => (bookingsCancel w u k).1
  | EscrowReserve u k => (escrowReserve stripe w u k).1
  | EscrowConfirmReservation u k s =>
      (escrowConfirmReservation now stripe w u k s).1
  | EscrowRelease u k => (escrowRelease now stripe w u k).1
  | EscrowCancel u k => (escrowCancel now stripe w u k).1
  | VerificationSubmit u p => (verificationSubmit w u p).1
  | VerificationReview u k s => (verificationReview w u k s).1
  end.

(** Requests with their arrival times, each served to the end before the
    next. *)
Fixpoint serveAll (stripe : Stripe) (w : World) (rs : list (Z * Request))
  : World :=
  match rs with
  | [] => w
  | (now, r) :: rest => serveAll stripe (serve stripe w now r) rest
  end.

(** Tables that agree on the posts and the verification requests. *)
Definition sameRecords (d' d : Db) : Prop :=
  verificationRequests d' = verificationRequests d ∧ posts d' = posts d.

(** No verification row is age-confirmed. *)
Definition neverConfirmed (d : Db) : Prop :=
  Forall (λ v, v_ageConfirmed v ≠ Some true) (verificationRequests d).

(** A post that is not marked NSFW and lies in neither adult category. *)
Definition tame (p : Post) : Prop :=
  Js.truthy_bool (ip_nsfw (p_data p)) = false
  ∧ ip_category (p_data p) ≠ "Adult/NSFW"
  ∧ ip_category (p_data p) ≠ "Adult Club Event".

End Traffic.

(** ** Applications to a post (server/storage.ts, server/routes.ts)

    [applications.id] is a serial primary key; the table is kept in
    insertion order together with the next value of the sequence. *)
Module Applications.
Import Schema Storage Routes Verification.

Record Application := {
  a_id : Z;
  a_postId : Z;
  a_applicantId : string;
  a_status : option string;
  a_posterResponse : option string;
  a_respondedAt : option Z
}.

(** The tables of [Storage] with the applications beside them. *)
Record Store := {
  base : Db;
  applications : list Application;
  nextApplicationId : Z
}.

Definition withBase (s : Store) (d : Db) : Store :=
  {| base := d; applications := applications s;
     nextApplicationId := nextApplicationId s |}.

Definition getPost (d : Db) (id : Z) : option Post :=
  head (filter (λ p, p_id p = id) (posts d)).

Definition createApplication (s : Store) (postId : Z) (applicantId : string)
  : Store * Application :=
  let record :=
    {| a_id := nextApplicationId s; a_postId := postId;
       a_applicantId := applicantId; a_status := Some "pending";
       a_posterResponse := None; a_respondedAt := None |} in
  ({| base := base s; applications := applications s ++ [record];
      nextApplicationId := nextApplicationId s + 1 |},
   record).

Definition getApplicationsByPost (s : Store) (postId : Z)
  : list Application :=
  rev (filter (λ a, a_postId a = postId) (applications s)).

Definition getApplicationsByApplicant (s : Store) (applicantId : string)
  : list Application :=
  rev (filter (λ a, a_applicantId a = applicantId) (applications s)).

Definition getApplication (s : Store) (id : Z) : option Application :=
  head (filter (λ a, a_id a = id) (applications s)).

Definition getApplicationByPostAndApplicant (s : Store) (postId : Z)
    (applicantId : string) : option Application :=
  head (filter (λ a, a_postId a = postId ∧ a_applicantId a = applicantId)
          (applications s)).

(** [set({ status, posterResponse, respondedAt: new Date() })]: an
    absent [posterResponse] leaves the column alone. *)
Definition respondTo (now : Z) (status : string)
    (posterResponse : option string) (a : Application) : Application :=
  {| a_id := a_id a; a_postId := a_postId a;
     a_applicantId := a_applicantId a; a_status := Some status;
     a_posterResponse := over posterResponse (a_posterResponse a);
     a_respondedAt := Some now |}.

Definition updateApplicationStatus (now : Z) (s : Store) (id : Z)
    (status : string) (posterResponse : option string)
  : Store * option Application :=
  let hit (a : Application) := bool_decide (a_id a = id) in
  ({| base := base s;
      applications :=
        map (λ a, if hit a then respondTo now status posterResponse a else a)
          (applications s);
      nextApplicationId := nextApplicationId s |},
   head (map (respondTo now status posterResponse)
           (filter (λ a, a_id a = id) (applications s)))).

(** *** POST /api/applications

    [postId] is the parsed body, an integer. *)
Definition applicationsCreate (s : Store) (user : option User) (postId : Z)
  : Store * Answer Application :=
  match user with
  | None => (s, Failure 401 "Unauthorized")
  | Some usr =>
    let applicantId := sub usr in
    match getPost (base s) postId with
    | None => (s, Failure 404 "Opportunity not found")
    | Some post =>
      if Js.truthy_bool (ip_nsfw (p_data post))
         && negb (isAgeVerified (base s) applicantId)
      then
        (s, Failure 400
           "Age-verified ID required to apply for Adult/NSFW opportunities.")
      else
      match getApplicationByPostAndApplicant s postId applicantId with
      | Some _ =>
          (s, Failure 400 "You have already applied to this opportunity.")
      | None =>
        if String.eqb (ip_userId (p_data post)) applicantId then
          (s, Failure 400 "You cannot apply to your own post.")
        else
          let plan := getUserPlan (base s) applicantId in
          let applyCost := Credits.getApplyCreditCost in
          let '(d1, credit) := ensureCredits (base s) applicantId in
          if negb (Credits.canAfford (c_balance credit) applyCost plan) then
            (withBase s d1,
             Failure 400
               ("Insufficient credits. Need " +:+ pretty applyCost
                +:+ " credit to apply."))
          else
            let d2 :=
              (deductCredits d1 applicantId applyCost "apply"
                 ("Applied to: " +:+ ip_title (p_data post))).1 in
            let '(s3, application) :=
              createApplication (withBase s d2) postId applicantId in
            (s3, Json 201 application)
      end
    end
  end.

(** *** POST /api/applications/:id/respond

    The body as parsed: [status] is one of the two values of the enum. *)
Inductive Verdict := Accepted | Rejected.

Definition verdictName (v : Verdict) : string :=
  match v with Accepted => "accepted" | Rejected => "rejected" end.

Definition applicationsRespond (now : Z) (s : Store) (user : option User)
    (appId : Z) (status : Verdict) (posterResponse : option string)
  : Store * Answer (option Application) :=
  match user with
  | None => (s, Failure 401 "Unauthorized")
  | Some usr =>
    match getApplication s appId with
    | None => (s, Failure 404 "Application not found")
    | Some application =>
      match getPost (base s) (a_postId application) with
      | Some post =>
        if negb (String.eqb (ip_userId (p_data post)) (sub usr)) then
          (s, Failure 403 "Not authorized to respond to this application")
        else
          let '(s1, updated) :=
            updateApplicationStatus now s appId (verdictName status)
              posterResponse in
          (s1, Json 200 updated)
      | None =>
          (s, Failure 403 "Not authorized to respond to this application")
      end
    end
  end.

(** The two writing requests, served one after the other. *)
Inductive Request :=
  | Create (user : option User) (postId : Z)
  | Respond (user : option User) (appId : Z) (status : Verdict)
      (posterResponse : option string).

Definition serve (s : Store) (now : Z) (r : Request) : Store :=
  match r with
  | Create u p => (applicationsCreate s u p).1
  | Respond u k v t => (applicationsRespond now s u k v t).1
  end.

Fixpoint serveAll (s : Store) (rs : list (Z * Request)) : Store :=
  match rs with
  | [] => s
  | (now, r) :: rest => serveAll (serve s now r) rest
  end.

(** A store without applications. *)
Definition fresh (d : Db) : Store :=
  {| base := d; applications := []; nextApplicationId := 1 |}.

(** The post and applicant of each application, in order. *)
Definition pairs (s : Store) : list (Z * string) :=
  map (λ a, (a_postId a, a_applicantId a)) (applications s).

(** The application is to a stored post of someone else. *)
Definition toAnothersPost (d : Db) (a : Application) : Prop :=
  ∃ post, getPost d (a_postId a) = Some post
          ∧ ip_userId (p_data post) ≠ a_applicantId a.

(** The balance [ensureCredits] finds or opens. *)
Definition opened (d : Db) (userId : string) : Z :=
  match getCredits d userId with
  | Some c => c_balance c
  | None => Credits.INITIAL_CREDITS
  end.

End Applications.

(** What holds of the applications whatever requests were served, and a
    small board for the examples. *)
Module ApplicationLaws.
Import Schema Storage Routes Applications.

Definition sound (d : Db) (s : Store) : Prop :=
  posts (base s) = posts d
  ∧ NoDup (pairs s)
  ∧ NoDup (map a_id (applications s))
  ∧ Forall (λ a, a_id a < nextApplicationId s) (applications s)
  ∧ Forall (toAnothersPost (base s)) (applications s).

Definition gig : InsertPost :=
  {| ip_userId := "host"; ip_postType := None; ip_title := "Load-in crew";
     ip_category := "Other"; ip_tier := "Slots"; ip_pay := 120;
     ip_promoterName := "Late Co"; ip_boostLevel := None;
     ip_boostExpiresAt := None; ip_nsfw := Some false |}.

(** One post by [host]; [vip] is on the elite plan and holds one
    credit. *)
Definition board : Db :=
  {| posts := [ {| p_id := 1; p_data := gig |} ];
     profiles := {[ "vip" := {| pr_userId := "vip"; pr_plan := Some "elite" |} ]};
     bookings := ∅; nextBookingId := 1;
     credits := {[ "vip" := 1 ]}; creditLogs := [];
     verificationRequests := []; professionalVerifications := [] |}.

Definition vip : User := {| sub := "vip"; email := None |}.

End ApplicationLaws.

(** ** Buying credits (server/routes.ts) *)
Module Purchases.
Import Schema Storage Routes Verification.

(** What [stripe.checkout.sessions.retrieve] answers, as far as the
    handler reads it: the payment status, [metadata.userId], and
    [parseInt(metadata.credits || "0")] with [None] for NaN. *)
Record CreditSession := {
  ps_payment_status : string;
  ps_userId : option string;
  ps_credits : option Z
}.

(** *** POST /api/stripe/fulfill-credits

    [retrieve] answers [None] when the provider call throws.  NaN passes
    the test [credits <= 0]; the update of the integer column with it is
    refused after [ensureCredits] has run. *)
Definition fulfillCredits (retrieve : string → option CreditSession)
    (d : Db) (user : option User) (sessionId : option string)
  : Db * Answer Z :=
  match user with
  | None => (d, Failure 401 "Unauthorized")
  | Some usr =>
    let userId := sub usr in
    if negb (Js.truthy_str sessionId) then
      (d, Failure 400 "Missing sessionId")
    else
    match retrieve (default "" sessionId) with
    | None => (d, Failure 500 "Failed to fulfill credits")
    | Some session =>
      if negb (String.eqb (ps_payment_status session) "paid") then
        (d, Failure 400 "Payment not completed")
      else if negb (eqStr (ps_userId session) userId) then
        (d, Failure 403 "Session does not belong to you")
      else
        match ps_credits session with
        | Some credits =>
          if credits <=? 0 then (d, Failure 400 "Invalid credit amount")
          else
            let '(d1, _) := ensureCredits d userId in
            let '(d2, _) :=
              addCredits d1 userId credits "purchase"
                ("Purchased " +:+ pretty credits +:+ " credits via Stripe") in
            (d2, Json 200 credits)
        | None =>
            let '(d1, _) := ensureCredits d userId in
            (d1, Failure 500 "Failed to fulfill credits")
        end
    end
  end.

(** The same request sent [n] times. *)
Fixpoint repeated (retrieve : string → option CreditSession) (d : Db)
    (user : option User) (sessionId : option string) (n : nat) : Db :=
  match n with
  | O => d
  | S k =>
      repeated retrieve (fulfillCredits retrieve d user sessionId).1
        user sessionId k
  end.

(** A provider that knows one paid session, bought by [buyer]. *)
Definition oneSale (sid : string) : option CreditSession :=
  if String.eqb sid "cs_5" then
    Some {| ps_payment_status := "paid"; ps_userId := Some "buyer";
            ps_credits := Some 5 |}
  else None.

End Purchases.

(** ** Follows and notifications (server/storage.ts, server/routes.ts)

    Both tables have a serial primary key and are kept in insertion
    order, each with the next value of its sequence. *)
Module Social.
Import Schema Storage Routes Verification.

Record Follow := {
  f_id : Z;
  f_followerUserId : string;
  f_followedUserId : string
}.

Record Notification := {
  n_id : Z;
  n_userId : string;
  n_type : string;
  n_title : string;
  n_message : string;
  n_linkUrl : option string;
  n_read : option bool
}.

Record Net := {
  world : World;
  follows : list Follow;
  nextFollowId : Z;
  notifications : list Notification;
  nextNotificationId : Z
}.

Definition withWorld (s : Net) (w : World) : Net :=
  {| world := w; follows := follows s; nextFollowId := nextFollowId s;
     notifications := notifications s;
     nextNotificationId := nextNotificationId s |}.

Definition withFollows (s : Net) (x : list Follow) (next : Z) : Net :=
  {| world := world s; follows := x; nextFollowId := next;
     notifications := notifications s;
     nextNotificationId := nextNotificationId s |}.

Definition withNotifications (s : Net) (x : list Notification) (next : Z)
  : Net :=
  {| world := world s; follows := follows s; nextFollowId := nextFollowId s;
     notifications := x; nextNotificationId := next |}.

(** *** Storage *)

Definition createFollow (s : Net) (followerUserId followedUserId : string)
  : Net * Follow :=
  let record :=
    {| f_id := nextFollowId s; f_followerUserId := followerUserId;
       f_followedUserId := followedUserId |} in
  (withFollows s (follows s ++ [record]) (nextFollowId s + 1), record).

Definition deleteFollow (s : Net) (followerUserId followedUserId : string)
  : Net :=
  withFollows s
    (filter (λ f, ¬ (f_followerUserId f = followerUserId
                     ∧ f_followedUserId f = followedUserId)) (follows s))
    (nextFollowId s).

Definition getFollowsByFollower (s : Net) (followerUserId : string)
  : list Follow :=
  rev (filter (λ f, f_followerUserId f = followerUserId) (follows s)).

Definition getFollowersByUser (s : Net) (followedUserId : string)
  : list Follow :=
  rev (filter (λ f, f_followedUserId f = followedUserId) (follows s)).

Definition isFollowing (s : Net) (followerUserId followedUserId : string)
  : bool :=
  bool_decide (is_Some (head
    (filter (λ f, f_followerUserId f = followerUserId
                  ∧ f_followedUserId f = followedUserId) (follows s)))).

Definition getFollowerCount (s : Net) (followedUserId : string) : Z :=
  Z.of_nat (length
    (filter (λ f, f_followedUserId f = followedUserId) (follows s))).

(** The value handed to [createNotification]; [read] takes the column
    default [false]. *)
Record InsertNotification := {
  in_userId : string;
  in_type : string;
  in_title : string;
  in_message : string;
  in_linkUrl : option string
}.

Definition createNotification (s : Net) (data : InsertNotification)
  : Net * Notification :=
  let record :=
    {| n_id := nextNotificationId s; n_userId := in_userId data;
       n_type := in_type data; n_title := in_title data;
       n_message := in_message data; n_linkUrl := in_linkUrl data;
       n_read := Some false |} in
  (withNotifications s (notifications s ++ [record])
     (nextNotificationId s + 1),
   record).

(** Newest first, at most 50. *)
Definition getNotificationsByUser (s : Net) (userId : string)
  : list Notification :=
  take 50 (rev (filter (λ n, n_userId n = userId) (notifications s))).

Definition getUnreadNotificationCount (s : Net) (userId : string) : Z :=
  Z.of_nat (length
    (filter (λ n, n_userId n = userId ∧ n_read n = Some false)
       (notifications s))).

Definition markRead (n : Notification) : Notification :=
  {| n_id := n_id n; n_userId := n_userId n; n_type := n_type n;
     n_title := n_title n; n_message := n_message n;
     n_linkUrl := n_linkUrl n; n_read := Some true |}.

Definition markNotificationRead (s : Net) (id : Z) : Net :=
  withNotifications s
    (map (λ n, if bool_decide (n_id n = id) then markRead n else n)
       (notifications s))
    (nextNotificationId s).

Definition markAllNotificationsRead (s : Net) (userId : string) : Net :=
  withNotifications s
    (map (λ n, if bool_decide (n_userId n = userId) then markRead n else n)
       (notifications s))
    (nextNotificationId s).

(** *** POST /api/follows and DELETE /api/follows/:followedUserId

    [followedUserId] of the body is a string or absent here;
    [FollowBodies.followsCreate] below takes any JSON value. *)
Definition followsCreate (s : Net) (user : option User)
    (followedUserId : option string) : Net * Answer Follow :=
  match user with
  | None => (s, Failure 401 "Unauthorized")
  | Some usr =>
    let followerUserId := sub usr in
    match followedUserId with
    | Some followed =>
      if negb (Js.truthy_str followedUserId) then
        (s, Failure 400 "followedUserId is required")
      else if String.eqb followerUserId followed then
        (s, Failure 400 "Cannot follow yourself")
      else if isFollowing s followerUserId followed then
        (s, Failure 400 "Already following")
      else
        let '(s1, follow) := createFollow s followerUserId followed in
        (s1, Json 201 follow)
    | None => (s, Failure 400 "followedUserId is required")
    end
  end.

Definition followsDelete (s : Net) (user : option User)
    (followedUserId : string) : Net * Answer bool :=
  match user with
  | None => (s, Failure 401 "Unauthorized")
  | Some usr => (deleteFollow s (sub usr) followedUserId, Json 200 true)
  end.

(** *** The notification requests *)

Definition notificationsUnreadCount (s : Net) (user : option User) : Z :=
  match user with
  | None => 0
  | Some usr => getUnreadNotificationCount s (sub usr)
  end.

Definition notificationsRead (s : Net) (user : option User) (id : Z)
  : Net * Answer bool :=
  match user with
  | None => (s, Failure 401 "Unauthorized")
  | Some usr => (markNotificationRead s id, Json 200 true)
  end.

Definition notificationsReadAll (s : Net) (user : option User)
  : Net * Answer bool :=
  match user with
  | None => (s, Failure 401 "Unauthorized")
  | Some usr => (markAllNotificationsRead s (sub usr), Json 200 true)
  end.

(** *** POST /api/posts, with the notifications

    After the post is stored the handler writes one notification for
    each row of the poster's followers. *)
Definition quote : string := String (Ascii.ascii_of_nat 34) EmptyString.

Definition notice (post : Post) (followerUserId : string)
  : InsertNotification :=
  let input := p_data post in
  let isEvent := eqStr (ip_postType input) "event" in
  let notifTitle := if isEvent then "New Event" else "New Opportunity" in
  let notifMessage :=
    if isEvent then
      ip_promoterName input +:+ " posted an event: " +:+ quote
      +:+ ip_title input +:+ quote +:+ " (" +:+ ip_category input +:+ ")"
    else
      ip_promoterName input +:+ " posted: " +:+ quote +:+ ip_title input
      +:+ quote +:+ " (" +:+ ip_category input +:+ ") - $"
      +:+ pretty (ip_pay input) in
  {| in_userId := followerUserId; in_type := "new_post";
     in_title := notifTitle; in_message := notifMessage;
     in_linkUrl := Some ("/opportunity/" +:+ pretty (p_id post)) |}.

Definition notifyEach (post : Post) (s : Net) (followers : list Follow)
  : Net :=
  foldl
    (λ acc follower,
       (createNotification acc (notice post (f_followerUserId follower))).1)
    s followers.

Definition notifyFollowers (s : Net) (userId : string) (post : Post) : Net :=
  notifyEach post s (getFollowersByUser s userId).

Definition postsCreateNotifying (now : Z) (s : Net) (user : option User)
    (input : InsertPost) : Net * Response :=
  let '(w1, r) := postsCreate now (world s) user input in
  let s1 := withWorld s w1 in
  match user, body r with
  | Some usr, PostJson post => (notifyFollowers s1 (sub usr) post, r)
  | _, _ => (s1, r)
  end.

(** *** Requests served one after the other *)
Inductive Request :=
  | Follows (user : option User) (followedUserId : option string)
  | Unfollows (user : option User) (followedUserId : string)
  | Reads (user : option User) (id : Z)
  | ReadsAll (user : option User)
  | Posts (user : option User) (input : InsertPost).

Definition serve (s : Net) (now : Z) (r : Request) : Net :=
  match r with
  | Follows u f => (followsCreate s u f).1
  | Unfollows u f => (followsDelete s u f).1
  | Reads u k => (notificationsRead s u k).1
  | ReadsAll u => (notificationsReadAll s u).1
  | Posts u i => (postsCreateNotifying now s u i).1
  end.

Fixpoint serveAll (s : Net) (rs : list (Z * Request)) : Net :=
  match rs with
  | [] => s
  | (now, r) :: rest => serveAll (serve s now r) rest
  end.

Definition quiet (w : World) : Net :=
  {| world := w; follows := []; nextFollowId := 1; notifications := [];
     nextNotificationId := 1 |}.

(** Who follows whom, in order. *)
Definition edges (s : Net) : list (string * string) :=
  map (λ f, (f_followerUserId f, f_followedUserId f)) (follows s).

(** No pair twice and nobody following themselves. *)
Definition tidy (s : Net) : Prop :=
  NoDup (edges s)
  ∧ Forall (λ f, f_followerUserId f ≠ f_followedUserId f) (follows s).

End Social.

(** ** Reviews (server/storage.ts, server/routes.ts)

    [reviews.id] is a serial primary key; the table is kept in insertion
    order with the next value of the sequence. *)
Module Reviews.
Import Schema Storage Routes Verification.

Record Review := {
  r_id : Z;
  r_reviewerUserId : string;
  r_targetProfileId : Z;
  r_targetType : string;
  r_rating : Z;
  r_comment : option string
}.

Record Table := { rows : list Review; nextReviewId : Z }.

Definition noReviews : Table := {| rows := []; nextReviewId := 1 |}.

Record InsertReview := {
  ir_reviewerUserId : string;
  ir_targetProfileId : Z;
  ir_targetType : string;
  ir_rating : Z;
  ir_comment : option string
}.

Definition createReview (t : Table) (data : InsertReview) : Table * Review :=
  let record :=
    {| r_id := nextReviewId t; r_reviewerUserId := ir_reviewerUserId data;
       r_targetProfileId := ir_targetProfileId data;
       r_targetType := ir_targetType data; r_rating := ir_rating data;
       r_comment := ir_comment data |} in
  ({| rows := rows t ++ [record]; nextReviewId := nextReviewId t + 1 |},
   record).

Definition getReviewsByProfile (t : Table) (targetProfileId : Z)
    (targetType : string) : list Review :=
  rev (filter (λ r, r_targetProfileId r = targetProfileId
                    ∧ r_targetType r = targetType) (rows t)).

Record Summary := { likes : Z; dislikes : Z; total : Z }.

Definition getReviewSummary (t : Table) (targetProfileId : Z)
    (targetType : string) : Summary :=
  let found :=
    filter (λ r, r_targetProfileId r = targetProfileId
                 ∧ r_targetType r = targetType) (rows t) in
  {| likes := Z.of_nat (length (filter (λ r, r_rating r = 1) found));
     dislikes := Z.of_nat (length (filter (λ r, r_rating r = -1) found));
     total := Z.of_nat (length found) |}.

Definition getReviewByReviewerAndTarget (t : Table) (reviewerUserId : string)
    (targetProfileId : Z) (targetType : string) : option Review :=
  head (filter (λ r, r_reviewerUserId r = reviewerUserId
                     ∧ r_targetProfileId r = targetProfileId
                     ∧ r_targetType r = targetType) (rows t)).

(** *** POST /api/reviews

    The fields of the body: [targetProfileId] and [rating] are integers
    or absent, [targetType] and [comment] strings or absent. *)
Definition reviewsCreate (t : Table) (user : option User)
    (targetProfileId : option Z) (targetType : option string)
    (rating : option Z) (comment : option string) : Table * Answer Review :=
  match user with
  | None => (t, Failure 401 "Unauthorized")
  | Some usr =>
    let reviewerUserId := sub usr in
    match targetProfileId, targetType, rating with
    | Some profileId, Some type, Some stars =>
      if negb (Js.truthy_int targetProfileId)
         || negb (Js.truthy_str targetType)
      then
        (t, Failure 400
           "targetProfileId, targetType, and rating are required")
      else if negb (Js.includes ["poster"; "talent"] type) then
        (t, Failure 400 "targetType must be 'poster' or 'talent'")
      else if negb (bool_decide (stars ∈ [1; -1])) then
        (t, Failure 400 "rating must be 1 (like) or -1 (dislike)")
      else
        match getReviewByReviewerAndTarget t reviewerUserId profileId type
        with
        | Some _ =>
            (t, Failure 400 "You have already reviewed this profile")
        | None =>
            let '(t1, review) :=
              createReview t
                {| ir_reviewerUserId := reviewerUserId;
                   ir_targetProfileId := profileId; ir_targetType := type;
                   ir_rating := stars;
                   ir_comment :=
                     if Js.truthy_str comment then comment else None |} in
            (t1, Json 201 review)
        end
    | _, _, _ =>
        (t, Failure 400
           "targetProfileId, targetType, and rating are required")
    end
  end.

(** *** GET /api/reviews/:targetType/:profileId *)
Definition reviewsList (t : Table) (targetType : string) (profileId : Z)
  : Answer (list Review * Summary) :=
  if negb (Js.includes ["poster"; "talent"] targetType) then
    Failure 400 "targetType must be 'poster' or 'talent'"
  else
    Json 200 (getReviewsByProfile t profileId targetType,
              getReviewSummary t profileId targetType).

(** A review request as it arrives. *)
Record Request := {
  q_user : option User;
  q_targetProfileId : option Z;
  q_targetType : option string;
  q_rating : option Z;
  q_comment : option string
}.

Definition serve (t : Table) (q : Request) : Table :=
  (reviewsCreate t (q_user q) (q_targetProfileId q) (q_targetType q)
     (q_rating q) (q_comment q)).1.

Definition serveAll (t : Table) (qs : list Request) : Table :=
  foldl serve t qs.

(** Who reviewed what, in order. *)
Definition votes (t : Table) : list (string * Z * string) :=
  map (λ r, (r_reviewerUserId r, r_targetProfileId r, r_targetType r))
    (rows t).

Definition wellFormed (r : Review) : Prop :=
  (r_rating r = 1 ∨ r_rating r = -1)
  ∧ (r_targetType r = "poster" ∨ r_targetType r = "talent")
  ∧ r_targetProfileId r ≠ 0.

Definition orderly (t : Table) : Prop :=
  NoDup (votes t) ∧ Forall wellFormed (rows t).

End Reviews.

(** ** Documents and share links (server/storage.ts, server/routes.ts)

    [user_documents.id] is a serial primary key; the table is kept in
    insertion order with the next value of the sequence.  Times are in
    milliseconds. *)
Module Documents.
Import Schema Storage Routes Verification.

Record UserDocument := {
  ud_id : Z;
  ud_userId : string;
  ud_name : string;
  ud_docType : string;
  ud_filePath : string;
  ud_description : option string;
  ud_shareToken : option string;
  ud_shareExpiresAt : option Z
}.

Record Shelf := { documents : list UserDocument; nextDocumentId : Z }.

Definition noDocuments : Shelf := {| documents := []; nextDocumentId := 1 |}.

Record InsertUserDocument := {
  id_userId : string;
  id_name : string;
  id_docType : string;
  id_filePath : string;
  id_description : option string
}.

Definition createDocument (s : Shelf) (data : InsertUserDocument)
  : Shelf * UserDocument :=
  let doc :=
    {| ud_id := nextDocumentId s; ud_userId := id_userId data;
       ud_name := id_name data; ud_docType := id_docType data;
       ud_filePath := id_filePath data;
       ud_description := id_description data;
       ud_shareToken := None; ud_shareExpiresAt := None |} in
  ({| documents := documents s ++ [doc];
      nextDocumentId := nextDocumentId s + 1 |},
   doc).

Definition getDocumentsByUser (s : Shelf) (userId : string)
  : list UserDocument :=
  rev (filter (λ d, ud_userId d = userId) (documents s)).

Definition getDocument (s : Shelf) (id : Z) : option UserDocument :=
  head (filter (λ d, ud_id d = id) (documents s)).

Definition deleteDocument (s : Shelf) (id : Z) : Shelf :=
  {| documents := filter (λ d, ud_id d ≠ id) (documents s);
     nextDocumentId := nextDocumentId s |}.

Definition getDocumentByShareToken (s : Shelf) (token : string)
  : option UserDocument :=
  head (filter (λ d, ud_shareToken d = Some token) (documents s)).

Definition shared (token : string) (expiresAt : Z) (d : UserDocument)
  : UserDocument :=
  {| ud_id := ud_id d; ud_userId := ud_userId d; ud_name := ud_name d;
     ud_docType := ud_docType d; ud_filePath := ud_filePath d;
     ud_description := ud_description d; ud_shareToken := Some token;
     ud_shareExpiresAt := Some expiresAt |}.

Definition createShareLink (s : Shelf) (id : Z) (token : string)
    (expiresAt : Z) : Shelf * option UserDocument :=
  ({| documents :=
        map (λ d, if bool_decide (ud_id d = id)
                  then shared token expiresAt d else d) (documents s);
      nextDocumentId := nextDocumentId s |},
   head (map (shared token expiresAt)
           (filter (λ d, ud_id d = id) (documents s)))).

(** *** POST /api/documents

    The fields of the body are strings or absent. *)
Definition documentsCreate (s : Shelf) (user : option User)
    (name docType filePath description : option string)
  : Shelf * Answer UserDocument :=
  match user with
  | None => (s, Failure 401 "Unauthorized")
  | Some usr =>
    match name, docType, filePath with
    | Some n, Some t, Some p =>
      if negb (Js.truthy_str name) || negb (Js.truthy_str docType)
         || negb (Js.truthy_str filePath)
      then (s, Failure 400 "name, docType, and filePath are required")
      else
        let '(s1, doc) :=
          createDocument s
            {| id_userId := sub usr; id_name := n; id_docType := t;
               id_filePath := p;
               id_description :=
                 if Js.truthy_str description then description else None |}
        in (s1, Json 201 doc)
    | _, _, _ => (s, Failure 400 "name, docType, and filePath are required")
    end
  end.

(** *** DELETE /api/documents/:id *)
Definition documentsDelete (s : Shelf) (user : option User) (docId : Z)
  : Shelf * Answer bool :=
  match user with
  | None => (s, Failure 401 "Unauthorized")
  | Some usr =>
    match getDocument s docId with
    | None => (s, Failure 404 "Document not found")
    | Some doc =>
      if negb (String.eqb (ud_userId doc) (sub usr)) then
        (s, Failure 403 "Not your document")
      else (deleteDocument s docId, Json 200 true)
    end
  end.

(** *** POST /api/documents/:id/share

    [token] is the string the handler draws from [Math.random] and the
    clock, [appUrl] the address from the environment.  The answer
    carries the link, the expiry and the token. *)
Definition WEEK : Z := 7 * 24 * 60 * 60 * 1000.

Definition documentsShare (now : Z) (appUrl token : string) (s : Shelf)
    (user : option User) (docId : Z)
  : Shelf * Answer (string * Z * string) :=
  match user with
  | None => (s, Failure 401 "Unauthorized")
  | Some usr =>
    match getDocument s docId with
    | None => (s, Failure 404 "Document not found")
    | Some doc =>
      if negb (String.eqb (ud_userId doc) (sub usr)) then
        (s, Failure 403 "Not your document")
      else
        let expiresAt := now + WEEK in
        let '(s1, _) := createShareLink s docId token expiresAt in
        let shareUrl := appUrl +:+ "/api/documents/shared/" +:+ token in
        (s1, Json 200 (shareUrl, expiresAt, token))
    end
  end.

(** *** GET /api/documents/shared/:token

    Needs no sign-in.  The answer carries name, type, description and
    file path. *)
Definition documentsShared (now : Z) (s : Shelf) (token : string)
  : Answer (string * string * option string * string) :=
  match getDocumentByShareToken s token with
  | None => Failure 404 "Document not found or link expired"
  | Some doc =>
    match ud_shareExpiresAt doc with
    | Some expires =>
        if expires <? now then Failure 410 "Share link has expired"
        else Json 200 (ud_name doc, ud_docType doc, ud_description doc,
                       ud_filePath doc)
    | None =>
        Json 200 (ud_name doc, ud_docType doc, ud_description doc,
                  ud_filePath doc)
    end
  end.

(** No document carries the token. *)
Definition unused (s : Shelf) (token : string) : Prop :=
  Forall (λ d, ud_shareToken d ≠ Some token) (documents s).

End Documents.

(** ** client/src/hooks/use-toast.ts

    The module state is passed explicitly: the counter [count], the
    toasts of [memoryState], the map [toastTimeouts] from toast ids to
    timer handles, and the timers [setTimeout] has registered and that
    have not run.  Listeners only receive the state and are left out.
    The content of a toast is kept as text; times are whole
    milliseconds. *)
Module Toasts.

Definition TOAST_LIMIT : nat := 5.
Definition TOAST_REMOVE_DELAY : Z := 1000.
Definition MAX_SAFE_INTEGER : Z := 9007199254740991.

(** A toast; [None] is [undefined]. *)
Record Toast := {
  t_id : string;
  t_title : option string;
  t_description : option string;
  t_action : option string;
  t_variant : option string;
  t_duration : option Z
}.

(** An object of optional properties, the argument of [toast] and of
    [update]: each is absent ([None]) or present with a value that may
    be [undefined]. *)
Record ToastInput := {
  i_title : option (option string);
  i_description : option (option string);
  i_action : option (option string);
  i_variant : option (option string);
  i_duration : option (option Z)
}.

(** [UPDATE_TOAST] carries the id beside the properties to spread. *)
Inductive ToastAction :=
  | ADD_TOAST (toast : Toast)
  | UPDATE_TOAST (id : string) (toast : ToastInput)
  | DISMISS_TOAST (toastId : option string)
  | REMOVE_TOAST (toastId : option string).

(** A registered timer; when it runs it removes the toast [removes]. *)
Record Timer := { handle : nat; due : Z; removes : string }.

Record Hook := {
  count : Z;
  toasts : list Toast;
  toastTimeouts : gmap string nat;
  timers : list Timer;
  nextHandle : nat
}.

Definition initial : Hook :=
  {| count := 0; toasts := []; toastTimeouts := ∅; timers := [];
     nextHandle := O |}.

Definition withToasts (h : Hook) (x : list Toast) : Hook :=
  {| count := count h; toasts := x; toastTimeouts := toastTimeouts h;
     timers := timers h; nextHandle := nextHandle h |}.

Definition genId (h : Hook) : Hook * string :=
  let c := (count h + 1) `mod` MAX_SAFE_INTEGER in
  ({| count := c; toasts := toasts h; toastTimeouts := toastTimeouts h;
      timers := timers h; nextHandle := nextHandle h |},
   pretty c).

(** [queueToastRemoval] at the time [now]. *)
Definition queueToastRemoval (now : Z) (h : Hook) (toastId : string) : Hook :=
  if bool_decide (is_Some (toastTimeouts h !! toastId)) then h
  else
    {| count := count h; toasts := toasts h;
       toastTimeouts := <[toastId := nextHandle h]> (toastTimeouts h);
       timers := timers h ++ [ {| handle := nextHandle h;
                                  due := now + TOAST_REMOVE_DELAY;
                                  removes := toastId |} ];
       nextHandle := S (nextHandle h) |}.

(** A property that is present overrides, also with [undefined]. *)
Definition spread {A : Type} (over : option (option A)) (under : option A)
  : option A :=
  match over with Some v => v | None => under end.

(** [{ ...t, ...toast, id }] for the toast [t] that has the id. *)
Definition merge (t : Toast) (toast : ToastInput) : Toast :=
  {| t_id := t_id t;
     t_title := spread (i_title toast) (t_title t);
     t_description := spread (i_description toast) (t_description t);
     t_action := spread (i_action toast) (t_action t);
     t_variant := spread (i_variant toast) (t_variant t);
     t_duration := spread (i_duration toast) (t_duration t) |}.

(** [reducer]; under [DISMISS_TOAST] it calls [queueToastRemoval] and
    returns the toasts copied. *)
Definition reducer (now : Z) (h : Hook) (action : ToastAction) : Hook :=
  match action with
  | ADD_TOAST toast => withToasts h (take TOAST_LIMIT (toast :: toasts h))
  | UPDATE_TOAST id toast =>
      withToasts h
        (map (λ t, if String.eqb (t_id t) id then merge t toast else t)
           (toasts h))
  | DISMISS_TOAST toastId =>
      if Js.truthy_str toastId then
        queueToastRemoval now h (default "" toastId)
      else
        foldl (λ acc t, queueToastRemoval now acc (t_id t)) h (toasts h)
  | REMOVE_TOAST toastId =>
      match toastId with
      | None => withToasts h []
      | Some i => withToasts h (filter (λ t, t_id t ≠ i) (toasts h))
      end
  end.

Definition dispatch (now : Z) (h : Hook) (action : ToastAction) : Hook :=
  reducer now h action.

(** [toast(input)]; the id stands for the returned object, whose
    [dismiss] and [update] are [dismiss] and [update] below at that
    id. *)
Definition toast (now : Z) (h : Hook) (input : ToastInput) : Hook * string :=
  let '(h1, id) := genId h in
  (dispatch now h1
     (ADD_TOAST
        {| t_id := id;
           t_title := spread (i_title input) None;
           t_description := spread (i_description input) None;
           t_action := spread (i_action input) None;
           t_variant := spread (i_variant input) None;
           t_duration := spread (i_duration input) None |}),
   id).

(** [dismiss] of the object [toast] returns passes its id, [dismiss] of
    [useToast] passes its argument. *)
Definition dismiss (now : Z) (h : Hook) (toastId : option string) : Hook :=
  dispatch now h (DISMISS_TOAST toastId).

Definition update (now : Z) (h : Hook) (id : string) (toast : ToastInput)
  : Hook :=
  dispatch now h (UPDATE_TOAST id toast).

(** The timer with handle [k] runs, if it is registered and due. *)
Definition fire (now : Z) (h : Hook) (k : nat) : Hook :=
  match find (λ t, Nat.eqb (handle t) k) (timers h) with
  | None => h
  | Some t =>
      if due t <=? now then
        let h1 :=
          {| count := count h; toasts := toasts h;
             toastTimeouts := delete (removes t) (toastTimeouts h);
             timers := filter (λ x, handle x ≠ k) (timers h);
             nextHandle := nextHandle h |} in
        dispatch now h1 (REMOVE_TOAST (Some (removes t)))
      else h
  end.

(** What happens to the hook, each event with its time. *)
Inductive Event :=
  | CallToast (input : ToastInput)
  | CallDismiss (toastId : option string)
  | CallUpdate (id : string) (toast : ToastInput)
  | TimerRuns (k : nat).

Definition step (h : Hook) (now : Z) (e : Event) : Hook :=
  match e with
  | CallToast input => (toast now h input).1
  | CallDismiss toastId => dismiss now h toastId
  | CallUpdate id toast => update now h id toast
  | TimerRuns k => fire now h k
  end.

Fixpoint run (h : Hook) (es : list (Z * Event)) : Hook :=
  match es with
  | [] => h
  | (now, e) :: rest => run (step h now e) rest
  end.

(** The toast [toast] makes from its input and the id. *)
Definition made (id : string) (input : ToastInput) : Toast :=
  {| t_id := id;
     t_title := spread (i_title input) None;
     t_description := spread (i_description input) None;
     t_action := spread (i_action input) None;
     t_variant := spread (i_variant input) None;
     t_duration := spread (i_duration input) None |}.

(** The map [toastTimeouts] and the registered timers describe each
    other: a timer is the one the map holds for the toast it removes,
    an entry of the map has its timer registered, and handles are
    handed out once. *)
Definition coherent (h : Hook) : Prop :=
  Forall (λ t, toastTimeouts h !! removes t = Some (handle t)) (timers h)
  ∧ (∀ i k, toastTimeouts h !! i = Some k →
       ∃ t, t ∈ timers h ∧ handle t = k ∧ removes t = i)
  ∧ Forall (λ t, (handle t < nextHandle h)%nat) (timers h)
  ∧ NoDup (map handle (timers h))
  ∧ (length (toasts h) ≤ TOAST_LIMIT)%nat
  ∧ 0 ≤ count h < MAX_SAFE_INTEGER.

(** The shown toasts carry the decimal numerals of distinct numbers the
    counter has passed. *)
Definition numbered (h : Hook) : Prop :=
  ∃ js, map t_id (toasts h) = map pretty js
      ∧ Forall (λ j, 1 ≤ j ≤ count h) js ∧ NoDup js.

End Toasts.

(** ** Earnings of a worker (server/routes.ts)

    [profileSlugOf] stands for [getProfileByUserId(userId)?.profileSlug],
    a column of [profiles] not kept in [Storage.Db].  The handler only
    sums and counts the bookings, so they are taken in the order of the
    map. *)
Module Earnings.
Import Schema Storage Routes Verification.

Definition PLATFORM_FEE_PERCENT : Z := 6.

Definition getBookingsByWorker (d : Db) (slug : string) : list Booking :=
  filter (λ b, workerSlug b = Some slug) (map snd (map_to_list (bookings d))).

(** [Math.round(totalCents * PLATFORM_FEE_PERCENT / 100)], the fee the
    checkout charges and the earnings report subtracts. *)
Definition platformFeeCents (totalCents : Z) : Z :=
  Js.round (inject_Z totalCents * inject_Z PLATFORM_FEE_PERCENT / 100)%Q.

Definition confirmedByStripe (l : list Booking) : list Booking :=
  filter (λ b, status b = Some "confirmed" ∧ paymentMethod b = Some "stripe")
    l.

Definition grossOf (l : list Booking) : Z :=
  foldl (λ sum b, sum + totalAmount b) 0 l.

Definition feesOf (l : list Booking) : Z :=
  foldl (λ sum b, sum + platformFeeCents (totalAmount b)) 0 l.

Inductive EarningsJson :=
  | NoProfile
  | Report (gross fees net count feePercent : Z).

(** *** GET /api/stripe/connect/earnings *)
Definition connectEarnings (profileSlugOf : string → option string)
    (d : Db) (user : option User) : Answer EarningsJson :=
  match user with
  | None => Failure 401 "Unauthorized"
  | Some usr =>
    match profileSlugOf (sub usr) with
    | None => Json 200 NoProfile
    | Some slug =>
      let workerBookings := getBookingsByWorker d slug in
      let confirmedBookings := confirmedByStripe workerBookings in
      let gross := grossOf confirmedBookings in
      let fees := feesOf confirmedBookings in
      let net := gross - fees in
      Json 200
        (Report gross fees net (Z.of_nat (length confirmedBookings))
           PLATFORM_FEE_PERCENT)
    end
  end.

End Earnings.

(** ** Names every object literal inherits

    The tables of [shared/schema.ts] and [shared/subscriptions.ts] are
    object literals, and [table[key]] also finds the properties they
    inherit from [Object.prototype]: each is a function or an object, so
    truthy and not a number.  [Js.get] looks at own keys only; it agrees
    with the program on every key that is none of these names. *)
Module Prototype.

Definition inherited : list string :=
  [ "constructor"; "__defineGetter__"; "__defineSetter__";
    "hasOwnProperty"; "__lookupGetter__"; "__lookupSetter__";
    "isPrototypeOf"; "propertyIsEnumerable"; "toString"; "valueOf";
    "__proto__"; "toLocaleString" ].

(** A key on which [table[key]] is the own-key lookup. *)
Definition plain (key : string) : Prop := Js.includes inherited key = false.

End Prototype.

(** ** What the tables accept

    The [integer] columns hold 32 bits, and an insert of a value outside
    them is refused, as is an update that sets no column. *)
Module Columns.
Import Schema Storage StorageLaws.

Definition int4 (z : Z) : Prop := -2147483648 ≤ z ≤ 2147483647.

(** A value of a nullable [integer] column. *)
Definition int4_or_null (z : option Z) : Prop :=
  match z with Some v => int4 v | None => True end.

(** Every [integer] column of a booking is within its range. *)
Definition fits (b : Booking) : Prop :=
  int4_or_null (postId b) ∧ int4 (basePay b) ∧ int4 (platformFee b)
  ∧ int4_or_null (boostFee b) ∧ int4 (totalAmount b)
  ∧ int4_or_null (depositAmount b) ∧ int4_or_null (finalAmount b).

Definition given {A : Type} (o : option A) : bool :=
  match o with Some _ => true | None => false end.

(** The update sets at least one column: [set(data)] of
    [updateBookingStripeInfo] needs one property that is not
    [undefined], the other methods always set one. *)
Definition setsSomething (u : BookingUpdate) : bool :=
  match u with
  | UStripeInfo data =>
      given (si_stripeSessionId data) || given (si_stripePaymentIntentId data)
      || given (si_paymentMethod data) || given (si_status data)
  | _ => true
  end.

End Columns.

(** ** The boost window in local time (shared/pricing.ts)

    [getBoostExpiry] adds the hours with
    [expiry.setHours(expiry.getHours() + hours)], which works on the
    local wall-clock time: the instant is taken to local time, the hours
    are added there, and the result is read back as an instant.  A zone
    gives the offset of local time at an instant and the instant a local
    time stands for, both in milliseconds. *)
Module BoostZone.
Import Schema.

Record Zone := {
  offsetAt : Z → Z;
  utcOf : Z → Z
}.

Definition localTime (z : Zone) (t : Z) : Z := t + offsetAt z t.

Definition getBoostExpiry (z : Zone) (now : Z) (boost : string) : option Z :=
  let hours := Js.or_int (hours <$> Js.get boost BOOST_FEES) 0 in
  if Z.eqb hours 0 then None
  else Some (utcOf z (localTime z now + hours * 3600000)).

(** The hours of the paid boost levels. *)
Definition paid : list (string * Z) :=
  [ ("24h Boost", 24); ("72h Boost", 72); ("7 Day Featured", 168) ].

(** The offsets of the zone differ by at most [slack]: reading a local
    time back uses an offset that far at most from the offset at any
    instant. *)
Definition drifts (z : Zone) (slack : Z) : Prop :=
  ∀ t l, Z.abs (l - utcOf z l - offsetAt z t) ≤ slack.

(** A zone that keeps one offset. *)
Definition fixed (offset : Z) : Zone :=
  {| offsetAt := λ _, offset; utcOf := λ l, l - offset |}.

(** A zone on UTC until the instant [change], and one hour ahead from
    then on; the local hour skipped at the change is read with the
    offset before it. *)
Definition springForward (change : Z) : Zone :=
  {| offsetAt := λ t, if t <? change then 0 else 3600000;
     utcOf := λ l, if l <? change + 3600000 then l else l - 3600000 |}.

End BoostZone.

(** ** POST /api/follows, with the body as it arrives

    The handler reads [followedUserId] from the parsed JSON body without
    checking its type.  The value is a string; or a truthy value that is
    no string (a number, [true], an array, an object), kept with the
    text the database driver sends for it, which for a number is its
    decimal numeral; or a falsy value that is no string (absent, [null],
    [false], 0).  Strict equality of the caller's id, a string, and a
    value that is no string is false. *)
Module FollowBodies.
Import Schema Storage Routes Verification Social.

Inductive BodyValue :=
  | Str (s : string)
  | Truthy (sent : string)
  | Falsy.

Definition followsCreate (s : Net) (user : option User)
    (followedUserId : BodyValue) : Net * Answer Follow :=
  match user with
  | None => (s, Failure 401 "Unauthorized")
  | Some usr =>
    let followerUserId := sub usr in
    match followedUserId with
    | Falsy => (s, Failure 400 "followedUserId is required")
    | Str followed =>
      if negb (Js.truthy_str (Some followed)) then
        (s, Failure 400 "followedUserId is required")
      else if String.eqb followerUserId followed then
        (s, Failure 400 "Cannot follow yourself")
      else if isFollowing s followerUserId followed then
        (s, Failure 400 "Already following")
      else
        let '(s1, follow) := createFollow s followerUserId followed in
        (s1, Json 201 follow)
    | Truthy sent =>
      if isFollowing s followerUserId sent then
        (s, Failure 400 "Already following")
      else
        let '(s1, follow) := createFollow s followerUserId sent in
        (s1, Json 201 follow)
    end
  end.

(** The body of a caller that sends a string or nothing. *)
Definition ofString (followedUserId : option string) : BodyValue :=
  match followedUserId with Some f => Str f | None => Falsy end.

(** A follow request with any body, or one of the other requests. *)
Inductive Request :=
  | Follows (user : option User) (followedUserId : BodyValue)
  | Other (r : Social.Request).

Definition serve (s : Net) (now : Z) (r : Request) : Net :=
  match r with
  | Follows u v => (followsCreate s u v).1
  | Other r => Social.serve s now r
  end.

Fixpoint serveAll (s : Net) (rs : list (Z * Request)) : Net :=
  match rs with
  | [] => s
  | (now, r) :: rest => serveAll (serve s now r) rest
  end.

(** Every [followedUserId] sent is a string or falsy. *)
Definition typed (rs : list (Z * Request)) : Prop :=
  Forall (λ r, match r.2 with
               | Follows _ (Truthy _) => False
               | _ => True
               end) rs.

End FollowBodies.

(** * Properties *)

(** ** The ledger, one call at a time *)

Section LedgerFacts.
Import Schema Storage Ledger.

Lemma logSum_insertCreditLog d u' act amt desc u :
  logSum (insertCreditLog d u' act amt desc) u
  = (if decide (u' = u) then amt else 0) + logSum d u.
Proof.
  unfold logSum, getCreditLogs, insertCreditLog; simpl.
  rewrite filter_app, rev_app_distr. simpl.
  rewrite filter_cons, filter_nil. simpl.
  destruct (decide (u' = u)); simpl; reflexivity.
Qed.

Lemma logSum_withCredits d x u : logSum (withCredits d x) u = logSum d u.
Proof. reflexivity. Qed.

Lemma balanceOf_insert d u' b u :
  balanceOf (withCredits d (<[u' := b]> (credits d))) u
  = if decide (u' = u) then b else balanceOf d u.
Proof.
  unfold balanceOf, getCredits; simpl.
  destruct (decide (u' = u)) as [->|Hne].
  - rewrite lookup_insert_eq. reflexivity.
  - rewrite lookup_insert_ne by exact Hne. reflexivity.
Qed.

Lemma balanceOf_insertCreditLog d u' act amt desc u :
  balanceOf (insertCreditLog d u' act amt desc) u = balanceOf d u.
Proof. reflexivity. Qed.

Lemma getCredits_Some d u c :
  getCredits d u = Some c → credits d !! u = Some (c_balance c) ∧ c_userId c = u.
Proof.
  unfold getCredits. destruct (credits d !! u); simpl; [|discriminate].
  intros [= <-]. split; reflexivity.
Qed.

Lemma getCredits_None d u : getCredits d u = None → credits d !! u = None.
Proof. unfold getCredits. destruct (credits d !! u); [discriminate|reflexivity]. Qed.

(** What each method does to the log sum and to the balance of every
    user. *)
Lemma initCredits_keeps d u b v :
  logSum d v = balanceOf d v →
  logSum (initCredits d u b).1 v = balanceOf (initCredits d u b).1 v.
Proof.
  intros Hinv. unfold initCredits.
  destruct (getCredits d u) as [c|] eqn:Hg; simpl; [exact Hinv|].
  rewrite logSum_insertCreditLog, balanceOf_insertCreditLog.
  rewrite logSum_withCredits, balanceOf_insert.
  destruct (decide (u = v)) as [->|Hne]; [|lia].
  unfold balanceOf in Hinv. rewrite Hg in Hinv. lia.
Qed.

Lemma deductCredits_keeps d u a act desc v :
  logSum d v = balanceOf d v →
  logSum (deductCredits d u a act desc).1 v
  = balanceOf (deductCredits d u a act desc).1 v.
Proof.
  intros Hinv. unfold deductCredits.
  destruct (getCredits d u) as [c|] eqn:Hg; simpl; [|exact Hinv].
  destruct (c_balance c <? a)%Z; simpl; [exact Hinv|].
  unfold updateCredits.
  destruct (getCredits_Some _ _ _ Hg) as [Hc _]. rewrite Hc. simpl.
  rewrite logSum_insertCreditLog, balanceOf_insertCreditLog.
  rewrite logSum_withCredits, balanceOf_insert.
  destruct (decide (u = v)) as [->|Hne]; [|lia].
  unfold balanceOf in Hinv. rewrite Hg in Hinv. lia.
Qed.

Lemma addCredits_keeps d u a act desc v :
  logSum d v = balanceOf d v →
  logSum (addCredits d u a act desc).1 v
  = balanceOf (addCredits d u a act desc).1 v.
Proof.
  intros Hinv. unfold addCredits.
  destruct (getCredits d u) as [c|] eqn:Hg.
  - unfold updateCredits.
    destruct (getCredits_Some _ _ _ Hg) as [Hc _]. rewrite Hc. simpl.
    rewrite logSum_insertCreditLog, balanceOf_insertCreditLog.
    rewrite logSum_withCredits, balanceOf_insert.
    destruct (decide (u = v)) as [->|Hne]; [|lia].
    unfold balanceOf in Hinv. rewrite Hg in Hinv. lia.
  - pose proof (initCredits_keeps d u a v Hinv) as H.
    destruct (initCredits d u a) as [d1 cr]. exact H.
Qed.

Lemma apply_keeps d op v :
  logSum d v = balanceOf d v →
  logSum (apply d op) v = balanceOf (apply d op) v.
Proof.
  destruct op; simpl;
    [apply initCredits_keeps | apply deductCredits_keeps | apply addCredits_keeps].
Qed.

Lemma applyAll_keeps ops : ∀ d,
  (∀ v, logSum d v = balanceOf d v) →
  ∀ v, logSum (applyAll ops d) v = balanceOf (applyAll ops d) v.
Proof.
  induction ops as [|op ops IH]; intros d Hinv v; simpl; [apply Hinv|].
  apply IH. intros v'. apply apply_keeps, Hinv.
Qed.

(** A call either writes nothing, or it moves one balance by some amount
    and appends the one log entry carrying that user and that amount. *)
Lemma apply_paired d op :
  apply d op = d
  ∨ ∃ e, creditLogs (apply d op) = (creditLogs d ++ [e])%list
       ∧ balanceOf (apply d op) (l_userId e)
         = balanceOf d (l_userId e) + l_amount e
       ∧ ∀ v, v ≠ l_userId e → balanceOf (apply d op) v = balanceOf d v.
Proof.
  assert (Hinit : ∀ u b,
    (initCredits d u b).1 = d
    ∨ ∃ e, creditLogs (initCredits d u b).1 = (creditLogs d ++ [e])%list
         ∧ balanceOf (initCredits d u b).1 (l_userId e)
           = balanceOf d (l_userId e) + l_amount e
         ∧ ∀ v, v ≠ l_userId e →
             balanceOf (initCredits d u b).1 v = balanceOf d v).
  { intros u b. unfold initCredits.
    destruct (getCredits d u) as [c|] eqn:Hg; [left; reflexivity|].
    right. unfold insertCredits. cbv beta iota zeta. cbn [fst].
    eexists. split; [reflexivity|]. cbn [l_userId l_amount].
    rewrite !balanceOf_insertCreditLog.
    split.
    - rewrite balanceOf_insert. destruct (decide (u = u)); [|congruence].
      unfold balanceOf. rewrite Hg. lia.
    - intros v Hv. rewrite ?balanceOf_insertCreditLog, balanceOf_insert.
      destruct (decide (u = v)); [congruence | reflexivity]. }
  destruct op as [u b|u a act desc|u a act desc]; cbn [apply].
  - apply Hinit.
  - unfold deductCredits.
    destruct (getCredits d u) as [c|] eqn:Hg; [|left; reflexivity].
    destruct (c_balance c <? a)%Z; [left; reflexivity|].
    unfold updateCredits.
    destruct (getCredits_Some _ _ _ Hg) as [Hc _]. rewrite Hc.
    right. cbv beta iota zeta. cbn [fst].
    eexists. split; [reflexivity|]. cbn [l_userId l_amount].
    rewrite !balanceOf_insertCreditLog. split.
    + rewrite balanceOf_insert. destruct (decide (u = u)); [|congruence].
      unfold balanceOf. rewrite Hg. lia.
    + intros v Hv. rewrite ?balanceOf_insertCreditLog, balanceOf_insert.
      destruct (decide (u = v)); [congruence | reflexivity].
  - unfold addCredits.
    destruct (getCredits d u) as [c|] eqn:Hg.
    + unfold updateCredits.
      destruct (getCredits_Some _ _ _ Hg) as [Hc _]. rewrite Hc.
      right. cbv beta iota zeta. cbn [fst].
      eexists. split; [reflexivity|]. cbn [l_userId l_amount].
      rewrite !balanceOf_insertCreditLog. split.
      * rewrite balanceOf_insert. destruct (decide (u = u)); [|congruence].
        unfold balanceOf. rewrite Hg. lia.
      * intros v Hv. rewrite ?balanceOf_insertCreditLog, balanceOf_insert.
        destruct (decide (u = v)); [congruence | reflexivity].
    + specialize (Hinit u a).
      destruct (initCredits d u a) as [d1 cr]. exact Hinit.
Qed.



End LedgerFacts.

Section LedgerRace.
Import Schema Storage Ledger Concurrent Race.


End LedgerRace.

Section DebitFacts.
Import Schema Storage Ledger.

Lemma deductCredits_cases
    (d : Db) (u : string) (a : Z) (act desc : string) :
  let out := deductCredits d u a act desc in
  (out.2 = None ↔
     match getCredits d u with
     | None => True
     | Some current => c_balance current < a
     end)
  ∧ (out.2 = None → out.1 = d)
  ∧ (∀ updated, out.2 = Some updated →
       c_balance updated = balanceOf d u - a
       ∧ getCredits out.1 u = Some updated
       ∧ (∀ v, v ≠ u → getCredits out.1 v = getCredits d v)
       ∧ creditLogs out.1 = (creditLogs d ++ [entry u act (- a) desc])%list).
Proof.
  unfold deductCredits, balanceOf.
  destruct (getCredits d u) as [c|] eqn:Hg; simpl.
  - destruct (getCredits_Some _ _ _ Hg) as [Hc Hu].
    destruct (Z.ltb_spec (c_balance c) a) as [Hlt|Hge]; simpl.
    + repeat split; auto; discriminate.
    + unfold updateCredits. rewrite Hc. simpl.
      split; [split; [discriminate | lia]|].
      split; [discriminate|].
      intros updated [= <-]. simpl.
      repeat split.
      * unfold getCredits; simpl. rewrite lookup_insert_eq. reflexivity.
      * intros v Hv. unfold getCredits; simpl.
        rewrite lookup_insert_ne by congruence. reflexivity.
  - repeat split; auto; discriminate.
Qed.


(** C3. [deductCredits] returns [undefined] exactly when the user has no
    balance row or the balance is below the amount; then neither table
    changes.  Otherwise the row it returns holds the old balance less the
    amount, that row is what the table now holds for the user, every
    other balance is as before, and one entry carrying the negated amount
    is appended to the log. *)
Theorem deductCredits_fails_or_debits
    (d : Db) (u : string) (a : Z) (act desc : string) :
  let out := deductCredits d u a act desc in
  (out.2 = None ↔
     match getCredits d u with
     | None => True
     | Some current => c_balance current < a
     end)
  ∧ (out.2 = None → out.1 = d)
  ∧ (∀ updated, out.2 = Some updated →
       c_balance updated = balanceOf d u - a
       ∧ getCredits out.1 u = Some updated
       ∧ (∀ v, v ≠ u → getCredits out.1 v = getCredits d v)
       ∧ creditLogs out.1 = (creditLogs d ++ [entry u act (- a) desc])%list).
Proof. exact (deductCredits_cases d u a act desc). Qed.

(** A debit of 10 against a balance of 5 fails and the balance stays 5. *)
Lemma deductCredits_fails_or_debits_witness :
  let d := withCredits emptyDb {[ "u1" := 5 ]} in
  let out := deductCredits d "u1" 10 "apply" "Applied" in
  out.2 = None ∧ out.1 = d ∧ balanceOf out.1 "u1" = 5.
Proof.
  intros d out.
  pose proof (deductCredits_fails_or_debits d "u1" 10 "apply" "Applied")
    as (Hiff & Hsame & _).
  assert (Hnone : out.2 = None) by (apply Hiff; vm_compute; reflexivity).
  split; [exact Hnone|].
  split; [exact (Hsame Hnone)|].
  fold out in Hsame. rewrite (Hsame Hnone). vm_compute. reflexivity.
Defined.

End DebitFacts.

(** ** Calls of [deductCredits] in flight together *)

Section RaceFacts.
Import Schema Storage Concurrent Ledger Race.

(** Run alone, the three statements of a call are the method. *)
Lemma stepDeduct_thrice d c :
  let '(d1, t1) := stepDeduct d (start c) in
  let '(d2, t2) := stepDeduct d1 t1 in
  let '(d3, t3) := stepDeduct d2 t2 in
  d3 = (deductCredits d (userId c) (amount c) (action c) (description c)).1
  ∧ pc t3 = Returned
      (deductCredits d (userId c) (amount c) (action c) (description c)).2.
Proof.
  unfold stepDeduct, start, deductCredits; simpl.
  destruct (getCredits d (userId c)) as [cur|] eqn:Hg; simpl; [|auto].
  destruct (c_balance cur <? amount c)%Z; simpl; [auto|].
  destruct (updateCredits d (userId c) (c_balance cur - amount c)) as [d1 up].
  simpl. auto.
Qed.

Lemma stepDeduct_nonneg d t :
  (∀ u, 0 ≤ balanceOf d u) → covered t →
  (∀ u, 0 ≤ balanceOf (stepDeduct d t).1 u) ∧ covered (stepDeduct d t).2.
Proof.
  intros Hd Ht. unfold stepDeduct, covered in *.
  destruct (pc t) as [|cur|up|r] eqn:Hpc; simpl.
  - destruct (getCredits d (userId (call t))) as [cur|]; simpl; [|auto].
    destruct (Z.ltb_spec (c_balance cur) (amount (call t))); simpl; auto.
  - unfold updateCredits.
    destruct (credits d !! userId (call t)); simpl; [|auto].
    split; [|exact I]. intros u. rewrite balanceOf_insert.
    destruct (decide (userId (call t) = u)); [lia | apply Hd].
  - split; [|exact I]. intros u. rewrite balanceOf_insertCreditLog. apply Hd.
  - rewrite Hpc. auto.
Qed.

Lemma step_nonneg s i :
  (∀ u, 0 ≤ balanceOf s.1 u) → Forall covered s.2 →
  (∀ u, 0 ≤ balanceOf (step s i).1 u) ∧ Forall covered (step s i).2.
Proof.
  intros Hd Hts. unfold step.
  destruct (s.2 !! i) as [t|] eqn:Hi; [|auto].
  assert (Ht : covered t) by (eapply Forall_lookup_1; eauto).
  destruct (stepDeduct_nonneg s.1 t Hd Ht) as [Hd1 Ht1].
  destruct (stepDeduct s.1 t) as [d1 t1]; simpl in *.
  split; [exact Hd1|]. apply Forall_insert; assumption.
Qed.

Lemma run_nonneg schedule : ∀ s,
  (∀ u, 0 ≤ balanceOf s.1 u) → Forall covered s.2 →
  ∀ u, 0 ≤ balanceOf (run schedule s).1 u.
Proof.
  induction schedule as [|i rest IH]; intros s Hd Hts u; simpl; [apply Hd|].
  destruct (step_nonneg s i Hd Hts) as [Hd1 Hts1].
  apply (IH (step s i) Hd1 Hts1).
Qed.

Lemma start_covered calls : Forall covered (start <$> calls).
Proof. apply Forall_fmap, Forall_forall. intros c _. exact I. Qed.

(** The two calls of [race] under any schedule. *)
Lemma race_starts : raceInv race.
Proof.
  exists 10, Start, Start.
  split; [vm_compute; reflexivity|]. split; [reflexivity|].
  simpl. repeat split; auto; discriminate.
Qed.

Lemma step_raceInv s i : raceInv s → raceInv (step s i).
Proof.
  intros (b & p0 & p1 & Hb & Hts & H0 & H1 & Hbal & Hr0 & Hr1).
  destruct s as [d ts]. simpl in Hb, Hts. subst ts.
  unfold step. destruct i as [|[|i]]; simpl; [| |exists b, p0, p1; auto 10].
  - unfold stepDeduct, getCredits, updateCredits; simpl.
    destruct p0 as [|cur|up|r]; simpl in *.
    + rewrite Hb. simpl. destruct (passed p1) eqn:Hp1; subst b; simpl.
      * exists 4, (Returned None), p1. rewrite Hp1. simpl. auto 10.
      * exists 10, (Selected {| c_userId := "u1"; c_balance := 10 |}), p1.
        rewrite Hp1. simpl. repeat split; auto; discriminate.
    + rewrite Hb, H0. simpl. exists 4, (Updated (Some wrote4)), p1. simpl.
      rewrite lookup_insert_eq. repeat split; auto; discriminate.
    + exists b, (Returned up), p1. subst up. simpl. repeat split; auto; discriminate.
    + exists b, (Returned r), p1. simpl. auto 10.
  - unfold stepDeduct, getCredits, updateCredits; simpl.
    destruct p1 as [|cur|up|r]; simpl in *.
    + rewrite Hb. simpl. destruct (passed p0) eqn:Hp0; subst b; simpl.
      * exists 4, p0, (Returned None). rewrite Hp0. simpl. auto 10.
      * exists 10, p0, (Selected {| c_userId := "u1"; c_balance := 10 |}).
        rewrite Hp0. simpl. repeat split; auto; discriminate.
    + rewrite Hb, H1. simpl. exists 4, p0, (Updated (Some wrote4)). simpl.
      rewrite lookup_insert_eq, orb_true_r. repeat split; auto; discriminate.
    + exists b, p0, (Returned up). subst up. simpl. rewrite orb_true_r in *. repeat split; auto; discriminate.
    + exists b, p0, (Returned r). simpl. auto 10.
Qed.

Lemma run_raceInv schedule : ∀ s, raceInv s → raceInv (run schedule s).
Proof.
  induction schedule as [|i rest IH]; intros s Hs; simpl; [exact Hs|].
  apply IH, step_raceInv, Hs.
Qed.

Lemma race_ends schedule :
  allFinished (run schedule race) = true →
  balanceOf (run schedule race).1 "u1" = 4
  ∧ (1 ≤ successes (run schedule race))%nat
  ∧ (successes (run schedule race) + failures (run schedule race) = 2)%nat.
Proof.
  destruct (run_raceInv schedule race race_starts)
    as (b & p0 & p1 & Hb & Hts & H0 & H1 & Hbal & Hr0 & Hr1).
  unfold allFinished, successes, failures, balanceOf, getCredits.
  rewrite Hts, Hb. simpl.
  destruct p0 as [| | |[c0|]]; simpl; try discriminate;
  destruct p1 as [| | |[c1|]]; simpl; try discriminate; intros _;
  simpl in *; subst b; try (repeat split; simpl; lia).
  all: try (specialize (Hr0 eq_refl); discriminate).
Qed.

End RaceFacts.

Section RaceClaims.
Import Schema Storage Concurrent Ledger Race.

(** Two debits run one after the other cannot both succeed when their
    sum exceeds the balance. *)
Lemma deductCredits_twice d u a1 a2 act1 desc1 act2 desc2 :
  balanceOf d u < a1 + a2 →
  let o1 := deductCredits d u a1 act1 desc1 in
  let o2 := deductCredits o1.1 u a2 act2 desc2 in
  o1.2 = None ∨ o2.2 = None.
Proof.
  intros Hsum o1 o2.
  destruct (deductCredits_cases d u a1 act1 desc1) as (_ & _ & Hok1).
  fold o1 in Hok1.
  destruct (o1.2) as [c1|] eqn:H1; [|left; reflexivity]. right.
  destruct (Hok1 c1 eq_refl) as (Hb1 & Hg1 & _).
  destruct (deductCredits_cases o1.1 u a2 act2 desc2) as (Hiff & _).
  fold o2 in Hiff. apply Hiff. rewrite Hg1. lia.
Qed.

(** C2, as the code behaves. [deductCredits] selects the balance and
    writes it back in separate statements, without a transaction or a
    conditional update.  Two debits run one after the other never both
    succeed when their sum exceeds the balance, and for 6 and 6 against
    10 exactly one succeeds and the balance ends at 4.  Under every
    interleaving of any number of debits the stored balances stay
    non-negative when they started so, because a call writes the balance
    it read less its amount after checking that the balance read covers
    the amount.  Under every interleaving of the two debits of 6 against
    10 the balance ends at 4 and at least one call succeeds; the other
    succeeds or fails. *)
Theorem debits_in_flight_keep_balance_nonnegative :
  (∀ d u a1 a2 act1 desc1 act2 desc2,
     balanceOf d u < a1 + a2 →
     (deductCredits d u a1 act1 desc1).2 = None
     ∨ (deductCredits (deductCredits d u a1 act1 desc1).1 u a2 act2 desc2).2
       = None)
  ∧ (successes (run oneAfterTheOther race) = 1%nat
     ∧ failures (run oneAfterTheOther race) = 1%nat
     ∧ balanceOf (run oneAfterTheOther race).1 "u1" = 4)
  ∧ (∀ d calls schedule,
       (∀ u, 0 ≤ balanceOf d u) →
       ∀ u, 0 ≤ balanceOf (run schedule (d, start <$> calls)).1 u)
  ∧ (∀ schedule,
       allFinished (run schedule race) = true →
       balanceOf (run schedule race).1 "u1" = 4
       ∧ (1 ≤ successes (run schedule race))%nat
       ∧ (successes (run schedule race) + failures (run schedule race)
          = 2)%nat).
Proof.
  split; [|split; [|split]]; [| | |exact race_ends].
  - intros d u a1 a2 act1 desc1 act2 desc2 Hsum.
    apply (deductCredits_twice d u a1 a2 act1 desc1 act2 desc2 Hsum).
  - vm_compute. auto.
  - intros d calls schedule Hd u.
    apply (run_nonneg schedule (d, start <$> calls)); simpl;
      [exact Hd | apply start_covered].
Qed.

Lemma debits_in_flight_keep_balance_nonnegative_witness :
  ((deductCredits race.1 "u1" 6 "a" "x").2 = None
   ∨ (deductCredits (deductCredits race.1 "u1" 6 "a" "x").1 "u1" 6 "a" "x").2
     = None)
  ∧ balanceOf (run alternating race).1 "u1" = 4
  ∧ 0 ≤ balanceOf (run alternating race).1 "u1".
Proof.
  destruct debits_in_flight_keep_balance_nonnegative
    as (Hseq & _ & Hany & Hend).
  split; [|split].
  - apply Hseq. vm_compute. reflexivity.
  - apply (Hend alternating). vm_compute. reflexivity.
  - apply (Hany race.1 [debit6; debit6] alternating).
    intros u. change race.1 with (withCreditLogs
      (withCredits emptyDb (<["u1" := 10]> (credits emptyDb)))
      [entry "u1" "init" 10 "Initial credit allocation"]).
    change (0 ≤ balanceOf
      (withCredits emptyDb (<["u1" := 10]> (credits emptyDb))) u).
    rewrite balanceOf_insert.
    destruct (decide ("u1" = u)); [lia | reflexivity].
Defined.

(** C2 as stated fails: when the two calls alternate statement by
    statement both read 10, both write 4 and both succeed. *)
Lemma concurrent_debits_both_succeed :
  ¬ (∀ schedule,
       allFinished (run schedule race) = true →
       successes (run schedule race) = 1%nat
       ∧ failures (run schedule race) = 1%nat
       ∧ balanceOf (run schedule race).1 "u1" = 4).
Proof.
  intros H. destruct (H alternating) as (Hs & _).
  - vm_compute. reflexivity.
  - vm_compute in Hs. discriminate Hs.
Qed.

End RaceClaims.

(** ** Creating a booking *)

Section BookingCreateFacts.
Import Schema Storage Routes.

Lemma splitDeposit_half (T : Z) : splitDeposit T = (T + 1) / 2.
Proof.
  unfold splitDeposit, Js.ceil, Qceiling, Qfloor. simpl.
  rewrite Z.mul_1_r.
  Z.to_euclidean_division_equations. lia.
Qed.

Lemma splitFinal_rest (T : Z) : splitFinal T = T - splitDeposit T.
Proof. reflexivity. Qed.

Lemma createBooking_stored d ib :
  getBooking (createBooking d ib).1 (id (createBooking d ib).2)
  = Some (createBooking d ib).2.
Proof. unfold getBooking, createBooking; simpl. apply lookup_insert_eq. Qed.

(** C4. A booking created by [POST /api/bookings] with
    [paymentStructure = "split_50_50"] is stored with status
    [pending_payment], both installment statuses [pending], the deposit
    equal to the ceiling of half its total in cents and the final amount
    equal to the rest, so that the two add up to the total.  The total is
    the rounded hundredfold of [calculateTotal]'s amount.  On 10000 the
    split is 5000 and 5000, on 10001 it is 5001 and 5000. *)
Theorem split_booking_amounts (w : World) (user : option User)
    (input : BookingInput) :
  bi_paymentStructure input = Some "split_50_50" →
  code (bookingsCreate w user input).2 = 201 →
  (∃ b, body (bookingsCreate w user input).2 = BookingJson (Some b)
     ∧ getBooking (db (bookingsCreate w user input).1) (id b) = Some b
     ∧ paymentStructure b = Some "split_50_50"
     ∧ totalAmount b
       = Js.round (Pricing.totalAmount
           (Pricing.calculateTotal (inject_Z (bi_basePay input))
              (bi_tier input) (Js.or_str (bi_boost input) "None")) * 100)%Q
     ∧ depositAmount b = Some ((totalAmount b + 1) / 2)
     ∧ finalAmount b = Some (totalAmount b - (totalAmount b + 1) / 2)
     ∧ (∀ dep fin, depositAmount b = Some dep → finalAmount b = Some fin →
          dep + fin = totalAmount b)
     ∧ status b = Some "pending_payment"
     ∧ depositStatus b = Some "pending"
     ∧ finalStatus b = Some "pending")
  ∧ (splitDeposit 10000 = 5000 ∧ splitFinal 10000 = 5000)
  ∧ (splitDeposit 10001 = 5001 ∧ splitFinal 10001 = 5000).
Proof.
  intros Hsplit Hcode.
  split; [|split; split; reflexivity].
  revert Hcode. unfold bookingsCreate.
  destruct user as [usr|]; [|discriminate].
  match goal with
  | |- context [if negb (Credits.canAfford 0 _ _) then ?a else ?b] =>
      destruct (if negb (Credits.canAfford 0 Credits.getApplyCreditCost
                           (getUserPlan (db w) (sub usr)))
                then a else b) as [d2 [r|]] eqn:Hcharged
  end.
  - (* the charge answered 400 *)
    simpl. intros Hcode. exfalso. revert Hcharged.
    destruct (negb (Credits.canAfford 0 Credits.getApplyCreditCost
                      (getUserPlan (db w) (sub usr)))); [|discriminate].
    destruct (ensureCredits (db w) (sub usr)) as [d1 credit].
    destruct (negb (Credits.canAfford (c_balance credit)
                      Credits.getApplyCreditCost
                      (getUserPlan (db w) (sub usr)))); [|discriminate].
    intros [= _ <-]. discriminate Hcode.
  - rewrite Hsplit. simpl Js.or_str. simpl String.eqb. cbv iota.
    set (T := Js.round _).
    set (ib := Build_InsertBooking _ _ _ _ _ _ _ _ _ _ _ _ _ _ _).
    pose proof (createBooking_stored d2 ib) as Hstored.
    destruct (createBooking d2 ib) as [d3 b] eqn:Hcb. simpl.
    intros _. exists b. simpl in Hstored.
    assert (Hb : b = (createBooking d2 ib).2) by (rewrite Hcb; reflexivity).
    split; [reflexivity|]. split; [exact Hstored|].
    rewrite Hb. unfold createBooking, ib; simpl.
    rewrite <- splitDeposit_half.
    repeat split; try reflexivity.
    intros dep fin [= <-] [= <-]. unfold splitFinal, splitDeposit. lia.
Qed.

Lemma split_booking_amounts_witness :
  let w := {| db := emptyDb; stripeCalls := [] |} in
  let user := Some {| sub := "buyer"; email := None |} in
  let input :=
    {| bi_postId := None; bi_workerSlug := Some "dj-nova";
       bi_tier := "Projects"; bi_basePay := 98; bi_boost := None;
       bi_paymentStructure := Some "split_50_50" |} in
  ∃ b, body (bookingsCreate w user input).2 = BookingJson (Some b)
     ∧ totalAmount b = 10000
     ∧ depositAmount b = Some 5000 ∧ finalAmount b = Some 5000.
Proof.
  intros w user input.
  destruct (split_booking_amounts w user input) as [(b & Hbody & _) _].
  - reflexivity.
  - vm_compute. reflexivity.
  - exists b. revert Hbody. vm_compute. intros [= <-]. auto.
Defined.

End BookingCreateFacts.

(** ** Installments and the booking status *)

Section InstallmentFacts.
Import Schema Storage Routes Samples.

Lemma eqStr_true o s : eqStr o s = true ↔ o = Some s.
Proof.
  destruct o as [x|]; simpl; [|split; discriminate].
  rewrite String.eqb_eq. split; [intros ->; reflexivity | intros [= ->]; reflexivity].
Qed.

Lemma eqStr_false o s : eqStr o s = false ↔ o ≠ Some s.
Proof.
  rewrite <- eqStr_true. destruct (eqStr o s); split; congruence.
Qed.

Lemma updateBookings_found d bid s b :
  getBooking d bid = Some b →
  updateBookings d bid s
  = (withBookings d (<[bid := applySet b s]> (bookings d)) (nextBookingId d),
     Some (applySet b s)).
Proof. unfold getBooking, updateBookings. intros ->. reflexivity. Qed.

Lemma getBooking_updated d bid x next :
  getBooking (withBookings d (<[bid := x]> (bookings d)) next) bid = Some x.
Proof. unfold getBooking; simpl. apply lookup_insert_eq. Qed.

Lemma updateBookingStatus_found d bid st b :
  getBooking d bid = Some b →
  ∃ u, updateBookingStatus d bid st
       = (withBookings d (<[bid := u]> (bookings d)) (nextBookingId d), Some u)
     ∧ status u = Some st
     ∧ depositStatus u = depositStatus b ∧ finalStatus u = finalStatus b
     ∧ escrowStatus u = escrowStatus b
     ∧ paymentStructure u = paymentStructure b
     ∧ buyerUid u = buyerUid b.
Proof.
  intros Hb. unfold updateBookingStatus.
  rewrite (updateBookings_found _ _ _ _ Hb).
  eexists. split; [reflexivity|]. simpl. auto 10.
Qed.

(** What one installment write does to a split booking. *)
Lemma updateBookingInstallment_split d bid inst st sess b :
  getBooking d bid = Some b →
  paymentStructure b = Some "split_50_50" →
  ∃ u, (updateBookingInstallment d bid inst st sess).2 = Some u
     ∧ getBooking (updateBookingInstallment d bid inst st sess).1 bid = Some u
     ∧ depositStatus u
       = (if String.eqb inst "deposit" then Some st else depositStatus b)
     ∧ finalStatus u
       = (if String.eqb inst "deposit" then finalStatus b else Some st)
     ∧ status u
       = (if eqStr (depositStatus u) "paid" && eqStr (finalStatus u) "paid"
          then Some "confirmed"
          else if eqStr (depositStatus u) "paid"
                  && eqStr (finalStatus u) "pending"
          then Some "deposit_paid"
          else if eqStr (depositStatus u) "submitted"
                  || eqStr (finalStatus u) "submitted"
          then Some "payment_submitted"
          else status b)
     ∧ paymentStructure u = paymentStructure b.
Proof.
  intros Hb Hsplit. unfold updateBookingInstallment.
  set (sd := if String.eqb inst "deposit" then _ else _).
  rewrite (updateBookings_found _ _ sd _ Hb).
  set (d1 := withBookings d _ _). set (u1 := applySet b sd).
  assert (Hd1 : getBooking d1 bid = Some u1) by apply getBooking_updated.
  assert (Hdep : depositStatus u1
                 = if String.eqb inst "deposit" then Some st else depositStatus b).
  { unfold u1, sd. destruct (String.eqb inst "deposit"); reflexivity. }
  assert (Hfin : finalStatus u1
                 = if String.eqb inst "deposit" then finalStatus b else Some st).
  { unfold u1, sd. destruct (String.eqb inst "deposit"); reflexivity. }
  assert (Hst : status u1 = status b).
  { unfold u1, sd. destruct (String.eqb inst "deposit"); reflexivity. }
  assert (Hps : paymentStructure u1 = Some "split_50_50") by exact Hsplit.
  rewrite Hps.
  change (eqStr (Some "split_50_50") "split_50_50") with true. cbv iota.
  destruct (eqStr (depositStatus u1) "paid" && eqStr (finalStatus u1) "paid")
    eqn:E1;
  [|destruct (eqStr (depositStatus u1) "paid"
              && eqStr (finalStatus u1) "pending") eqn:E2;
    [|destruct (eqStr (depositStatus u1) "submitted"
                || eqStr (finalStatus u1) "submitted") eqn:E3]].
  1-3: match goal with
       | |- context [updateBookingStatus _ _ ?s] =>
           destruct (updateBookingStatus_found d1 bid s u1 Hd1)
             as (u & -> & Hs & Hd & Hf & _ & Hp & _)
       end;
       exists u; cbn [fst snd]; rewrite getBooking_updated, Hd, Hf, Hs, Hp;
       rewrite ?E1, ?E2, ?E3; auto 10.
  exists u1. cbn [fst snd]. rewrite Hd1, E1, E2, E3. auto 10.
Qed.

End InstallmentFacts.

Section InstallmentClaims.
Import Schema Storage Routes Samples.

Lemma bookingsConfirm_installment w usr bid b inst :
  isAdmin usr = true →
  getBooking (db w) bid = Some b →
  paymentStructure b = Some "split_50_50" →
  Js.includes ["deposit"; "final"] inst = true →
  bookingsConfirm w (Some usr) bid (Some inst)
  = (withDb w (updateBookingInstallment (db w) bid inst "paid" None).1,
     res 200 (BookingJson
       (updateBookingInstallment (db w) bid inst "paid" None).2)).
Proof.
  intros Hadm Hb Hsplit Hinc. unfold bookingsConfirm.
  rewrite Hadm, Hb, Hsplit, Hinc. simpl negb. cbv iota.
  change (eqStr (Some "split_50_50") "split_50_50") with true. cbv iota.
  destruct (updateBookingInstallment (db w) bid inst "paid" None).
  reflexivity.
Qed.

Lemma bookingsConfirm_whole w usr bid b :
  isAdmin usr = true →
  getBooking (db w) bid = Some b →
  bookingsConfirm w (Some usr) bid None
  = (withDb w (updateBookingStatus (db w) bid "confirmed").1,
     res 200 (BookingJson (updateBookingStatus (db w) bid "confirmed").2)).
Proof.
  intros Hadm Hb. unfold bookingsConfirm. rewrite Hadm, Hb. simpl negb.
  cbv iota. destruct (eqStr (paymentStructure b) "split_50_50");
    destruct (updateBookingStatus (db w) bid "confirmed"); reflexivity.
Qed.

(** C5, as the code behaves. Every write of an installment status goes
    through [updateBookingInstallment], which on a split booking then
    sets the parent status from the two statuses as written: both [paid]
    gives [confirmed]; deposit [paid] with final [pending] gives
    [deposit_paid]; either one [submitted] gives [payment_submitted]; in
    every other combination the parent status stays what it was.  An
    admin confirming the deposit and then the final installment of a
    fresh split booking moves it from [pending_payment] to [deposit_paid]
    to [confirmed]; a confirm call that names no installment sets
    [confirmed] at once and leaves both installment statuses alone. *)
Theorem installment_write_sets_status :
  (∀ d bid inst st sess b,
     getBooking d bid = Some b →
     paymentStructure b = Some "split_50_50" →
     ∃ u, (updateBookingInstallment d bid inst st sess).2 = Some u
        ∧ getBooking (updateBookingInstallment d bid inst st sess).1 bid
          = Some u
        ∧ (depositStatus u = Some "paid" → finalStatus u = Some "paid" →
           status u = Some "confirmed")
        ∧ (depositStatus u = Some "paid" → finalStatus u = Some "pending" →
           status u = Some "deposit_paid")
        ∧ (depositStatus u = Some "submitted"
           ∨ finalStatus u = Some "submitted" →
           status u = Some "payment_submitted")
        ∧ (¬ (depositStatus u = Some "paid"
              ∧ (finalStatus u = Some "paid"
                 ∨ finalStatus u = Some "pending")) →
           depositStatus u ≠ Some "submitted" →
           finalStatus u ≠ Some "submitted" →
           status u = status b))
  ∧ (∀ w usr bid b,
       isAdmin usr = true →
       getBooking (db w) bid = Some b →
       paymentStructure b = Some "split_50_50" →
       status b = Some "pending_payment" →
       depositStatus b = Some "pending" →
       finalStatus b = Some "pending" →
       let w1 := (bookingsConfirm w (Some usr) bid (Some "deposit")).1 in
       let w2 := (bookingsConfirm w1 (Some usr) bid (Some "final")).1 in
       statusOf w1 bid = Some "deposit_paid"
       ∧ statusOf w2 bid = Some "confirmed")
  ∧ (∀ w usr bid b,
       isAdmin usr = true →
       getBooking (db w) bid = Some b →
       ∃ u, getBooking (bookingsConfirm w (Some usr) bid None).1.(db) bid
            = Some u
          ∧ status u = Some "confirmed"
          ∧ depositStatus u = depositStatus b
          ∧ finalStatus u = finalStatus b).
Proof.
  split; [|split].
  - intros d bid inst st sess b Hb Hsplit.
    destruct (updateBookingInstallment_split d bid inst st sess b Hb Hsplit)
      as (u & Hu & Hg & _ & _ & Hst & _).
    exists u. split; [exact Hu|]. split; [exact Hg|].
    repeat split.
    + intros Hd Hf. rewrite Hst, Hd, Hf. reflexivity.
    + intros Hd Hf. rewrite Hst, Hd, Hf. reflexivity.
    + intros Hsub. rewrite Hst.
      destruct (eqStr (depositStatus u) "paid" && eqStr (finalStatus u) "paid")
        eqn:E1.
      { apply andb_true_iff in E1 as [E1a E1b].
        apply eqStr_true in E1a, E1b. destruct Hsub; congruence. }
      destruct (eqStr (depositStatus u) "paid"
                && eqStr (finalStatus u) "pending") eqn:E2.
      { apply andb_true_iff in E2 as [E2a E2b].
        apply eqStr_true in E2a, E2b. destruct Hsub; congruence. }
      destruct Hsub as [H|H]; rewrite H; simpl; [reflexivity|].
      rewrite orb_true_r. reflexivity.
    + intros Hnp Hnd Hnf. rewrite Hst.
      apply eqStr_false in Hnd, Hnf. rewrite Hnd, Hnf. simpl.
      destruct (eqStr (depositStatus u) "paid") eqn:Ed; simpl.
      * apply eqStr_true in Ed.
        destruct (eqStr (finalStatus u) "paid") eqn:Ef1;
          [apply eqStr_true in Ef1; tauto|].
        destruct (eqStr (finalStatus u) "pending") eqn:Ef2;
          [apply eqStr_true in Ef2; tauto|reflexivity].
      * reflexivity.
  - intros w usr bid b Hadm Hb Hsplit Hst Hd Hf w1 w2.
    destruct (updateBookingInstallment_split (db w) bid "deposit" "paid" None
                b Hb Hsplit) as (u1 & _ & Hg1 & Hd1 & Hf1 & Hs1 & Hp1).
    simpl in Hd1, Hf1. rewrite Hd1, Hf1, Hf in Hs1. simpl in Hs1.
    assert (Hw1 : db w1
                  = (updateBookingInstallment (db w) bid "deposit" "paid"
                       None).1).
    { unfold w1. rewrite (bookingsConfirm_installment w usr bid b "deposit");
        auto. }
    rewrite <- Hw1 in Hg1. rewrite Hsplit in Hp1.
    destruct (updateBookingInstallment_split (db w1) bid "final" "paid" None
                u1 Hg1 Hp1) as (u2 & _ & Hg2 & Hd2 & Hf2 & Hs2 & _).
    simpl in Hd2, Hf2. rewrite Hd2, Hf2, Hd1 in Hs2. simpl in Hs2.
    assert (Hw2 : db w2
                  = (updateBookingInstallment (db w1) bid "final" "paid"
                       None).1).
    { unfold w2. rewrite (bookingsConfirm_installment w1 usr bid u1 "final");
        auto. }
    rewrite <- Hw2 in Hg2.
    unfold statusOf. rewrite Hg1, Hg2. simpl. auto.
  - intros w usr bid b Hadm Hb.
    rewrite (bookingsConfirm_whole w usr bid b Hadm Hb).
    destruct (updateBookingStatus_found (db w) bid "confirmed" b Hb)
      as (u & -> & Hs & Hd & Hf & _).
    exists u. simpl. rewrite getBooking_updated. auto.
Qed.

(** A fresh split booking confirmed by an admin, deposit first. *)
Lemma installment_write_sets_status_witness :
  let w := world oneSplitBooking in
  let w1 := (bookingsConfirm w (Some admin) 1 (Some "deposit")).1 in
  let w2 := (bookingsConfirm w1 (Some admin) 1 (Some "final")).1 in
  statusOf w 1 = Some "pending_payment"
  ∧ statusOf w1 1 = Some "deposit_paid"
  ∧ statusOf w2 1 = Some "confirmed".
Proof.
  intros w w1 w2. split; [vm_compute; reflexivity|].
  destruct installment_write_sets_status as (_ & Hseq & _).
  apply (Hseq w admin 1 (createBooking emptyDb splitBooking).2);
    vm_compute; reflexivity.
Defined.

(** C5 as stated fails: the status after an installment write is not a
    function of the two installment statuses.  Confirming the final
    installment first leaves deposit [pending] and final [paid] with the
    status untouched, [pending_payment] on a fresh booking and
    [cancelled] on a cancelled one. *)
Lemma status_not_function_of_installments :
  ¬ (∃ f : option string → option string → option string,
       ∀ d bid inst st b u,
         getBooking d bid = Some b →
         paymentStructure b = Some "split_50_50" →
         (updateBookingInstallment d bid inst st None).2 = Some u →
         status u = f (depositStatus u) (finalStatus u)).
Proof.
  intros [f Hf].
  set (d1 := oneSplitBooking).
  set (d2 := (updateBookingStatus oneSplitBooking 1 "cancelled").1).
  assert (H1 : f (Some "pending") (Some "paid") = Some "pending_payment").
  { symmetry.
    apply (Hf d1 1 "final" "paid" (createBooking emptyDb splitBooking).2
             (applySet (createBooking emptyDb splitBooking).2
                {| s_status := None; s_paymentMethod := None;
                   s_stripeSessionId := None; s_stripePaymentIntentId := None;
                   s_depositStatus := None; s_finalStatus := Some "paid";
                   s_depositStripeSessionId := None;
                   s_finalStripeSessionId := None;
                   s_escrowStatus := None; s_escrowAuthorizedAt := None;
                   s_escrowCapturedAt := None |}));
      vm_compute; reflexivity. }
  assert (H2 : f (Some "pending") (Some "paid") = Some "cancelled").
  { symmetry.
    apply (Hf d2 1 "final" "paid"
             (applySet (createBooking emptyDb splitBooking).2
                (setStatus noSet (Some "cancelled")))
             (applySet (createBooking emptyDb splitBooking).2
                {| s_status := Some "cancelled"; s_paymentMethod := None;
                   s_stripeSessionId := None; s_stripePaymentIntentId := None;
                   s_depositStatus := None; s_finalStatus := Some "paid";
                   s_depositStripeSessionId := None;
                   s_finalStripeSessionId := None;
                   s_escrowStatus := None; s_escrowAuthorizedAt := None;
                   s_escrowCapturedAt := None |}));
      vm_compute; reflexivity. }
  rewrite H1 in H2. discriminate H2.
Qed.

End InstallmentClaims.

(** ** The buyer's mark-paid request *)

Section MarkPaidFacts.
Import Schema Storage Routes Samples.

(** C6. On a split booking a mark-paid request for the final installment
    is turned down, and nothing is written, unless the deposit status is
    already [paid]: with 400 for the buyer, 403 for anyone else and 401
    without a session.  A mark-paid request that is accepted on a split
    booking named the deposit or the final installment, and the stored
    booking then has that installment's status [submitted]. *)
Theorem final_installment_needs_paid_deposit
    (w : World) (user : option User) (bid : Z) (b : Booking) :
  getBooking (db w) bid = Some b →
  paymentStructure b = Some "split_50_50" →
  (depositStatus b ≠ Some "paid" →
     (bookingsMarkPaid w user bid (Some "final")).1 = w
     ∧ rejected (bookingsMarkPaid w user bid (Some "final")).2
     ∧ (∀ usr, user = Some usr → sub usr = buyerUid b →
          (bookingsMarkPaid w user bid (Some "final")).2
          = res 400 (Message
              "Deposit must be confirmed before paying the final installment")))
  ∧ (∀ installment,
       code (bookingsMarkPaid w user bid installment).2 = 200 →
       ∃ u, body (bookingsMarkPaid w user bid installment).2
            = BookingJson (Some u)
          ∧ getBooking (db (bookingsMarkPaid w user bid installment).1) bid
            = Some u
          ∧ ((installment = Some "deposit"
              ∧ depositStatus u = Some "submitted")
             ∨ (installment = Some "final"
                ∧ finalStatus u = Some "submitted"
                ∧ depositStatus b = Some "paid"))).
Proof.
  intros Hb Hsplit. split.
  - intros Hdep. apply eqStr_false in Hdep.
    unfold bookingsMarkPaid, rejected.
    destruct user as [usr|];
      [|simpl; split; [reflexivity | split; [auto | discriminate]]].
    rewrite Hb. destruct (String.eqb_spec (buyerUid b) (sub usr)) as [He|Hne].
    + simpl negb. cbv iota. rewrite Hsplit, Hdep. simpl.
      split; [reflexivity | split; [auto | reflexivity]].
    + simpl. split; [reflexivity | split; [auto|]].
      intros usr' [= <-] Hs. congruence.
  - intros installment. unfold bookingsMarkPaid.
    destruct user as [usr|]; [|discriminate].
    rewrite Hb. destruct (negb _); [discriminate|].
    rewrite Hsplit.
    change (eqStr (Some "split_50_50") "split_50_50") with true. cbv iota.
    destruct installment as [inst|]; [|discriminate].
    destruct (Js.includes ["deposit"; "final"] inst) eqn:Hinc;
      [|discriminate].
    simpl negb. cbv iota.
    destruct (String.eqb inst "final" && negb (eqStr (depositStatus b) "paid"))
      eqn:Hgate; [discriminate|].
    destruct (updateBookingInstallment_split (db w) bid inst "submitted" None
                b Hb Hsplit) as (u & Hu & Hg & Hd & Hf & _).
    destruct (updateBookingInstallment (db w) bid inst "submitted" None)
      as [d1 upd]. simpl in *. subst upd.
    intros _. exists u. split; [reflexivity|]. split; [exact Hg|].
    unfold Js.includes in Hinc. simpl in Hinc.
    destruct (String.eqb inst "deposit") eqn:E1.
    + apply String.eqb_eq in E1. subst inst. left. auto.
    + destruct (String.eqb inst "final") eqn:E2; [|discriminate Hinc].
      apply String.eqb_eq in E2. subst inst. right.
      simpl in Hgate. apply negb_false_iff, eqStr_true in Hgate. auto.
Qed.

(** The buyer of a fresh split booking asks to pay the final installment
    first, then the deposit. *)
Lemma final_installment_needs_paid_deposit_witness :
  let w := world oneSplitBooking in
  (bookingsMarkPaid w (Some buyer) 1 (Some "final")).1 = w
  ∧ code (bookingsMarkPaid w (Some buyer) 1 (Some "final")).2 = 400
  ∧ ∃ u, getBooking (db (bookingsMarkPaid w (Some buyer) 1 (Some "deposit")).1) 1
         = Some u
       ∧ depositStatus u = Some "submitted".
Proof.
  intros w.
  destruct (final_installment_needs_paid_deposit w (Some buyer) 1
              (createBooking emptyDb splitBooking).2) as [Hrej Hacc];
    [vm_compute; reflexivity | vm_compute; reflexivity |].
  destruct Hrej as (Hw & _ & Hmsg); [vm_compute; discriminate|].
  split; [exact Hw|].
  split; [rewrite (Hmsg buyer); [reflexivity | reflexivity | vm_compute; reflexivity]|].
  destruct (Hacc (Some "deposit")) as (u & _ & Hg & Hcase);
    [vm_compute; reflexivity|].
  exists u. split; [exact Hg|].
  destruct Hcase as [[_ H]|[H _]]; [exact H | discriminate H].
Defined.

End MarkPaidFacts.

(** ** Cancelling and the terminal states *)

Section CancelFacts.
Import Schema Storage Routes Samples.

(** C9, as the code behaves. No status is final.  For the buyer of a
    booking or an admin, the cancel handler sets the status to
    [cancelled] whatever it was, [confirmed] included, and leaves the
    installment and escrow statuses alone; for an admin the confirm
    handler called without an installment sets [confirmed] whatever the
    status was, [cancelled] included. *)
Theorem cancel_and_confirm_from_any_status
    (w : World) (usr : User) (bid : Z) (b : Booking) :
  getBooking (db w) bid = Some b →
  (sub usr = buyerUid b ∨ isAdmin usr = true →
     ∃ u, (bookingsCancel w (Some usr) bid).2 = res 200 (BookingJson (Some u))
        ∧ getBooking (db (bookingsCancel w (Some usr) bid).1) bid = Some u
        ∧ status u = Some "cancelled"
        ∧ depositStatus u = depositStatus b
        ∧ finalStatus u = finalStatus b
        ∧ escrowStatus u = escrowStatus b)
  ∧ (isAdmin usr = true →
     statusOf (bookingsConfirm w (Some usr) bid None).1 bid
     = Some "confirmed").
Proof.
  intros Hb. split.
  - intros Hauth. unfold bookingsCancel. rewrite Hb.
    assert (Hgate : negb (String.eqb (buyerUid b) (sub usr))
                    && negb (isAdmin usr) = false).
    { destruct Hauth as [Hs|Ha].
      - rewrite Hs, String.eqb_refl. reflexivity.
      - rewrite Ha. apply andb_false_r. }
    rewrite Hgate.
    destruct (updateBookingStatus_found (db w) bid "cancelled" b Hb)
      as (u & -> & Hs & Hd & Hf & He & _).
    exists u. simpl. rewrite getBooking_updated. auto 10.
  - intros Hadm. rewrite (bookingsConfirm_whole w usr bid b Hadm Hb).
    destruct (updateBookingStatus_found (db w) bid "confirmed" b Hb)
      as (u & -> & Hs & _).
    unfold statusOf. simpl. rewrite getBooking_updated. simpl. exact Hs.
Qed.

(** A confirmed booking cancelled by its buyer. *)
Lemma cancel_and_confirm_from_any_status_witness :
  statusOf confirmedWorld 1 = Some "confirmed"
  ∧ ∃ u, getBooking (db (bookingsCancel confirmedWorld (Some buyer) 1).1) 1
         = Some u
       ∧ status u = Some "cancelled".
Proof.
  split; [vm_compute; reflexivity|].
  destruct (cancel_and_confirm_from_any_status confirmedWorld buyer 1
              (applySet (createBooking emptyDb fullBooking).2
                 (setStatus noSet (Some "confirmed"))))
    as [Hcancel _]; [vm_compute; reflexivity|].
  destruct Hcancel as (u & _ & Hg & Hs & _); [left; reflexivity|].
  exists u. split; [exact Hg | exact Hs].
Defined.

(** C9 as stated fails: the cancel handler moves a confirmed booking to
    [cancelled]. *)
Lemma confirmed_booking_is_cancelled :
  ¬ (∀ w user bid b,
       getBooking (db w) bid = Some b →
       status b = Some "confirmed" ∨ status b = Some "cancelled" →
       statusOf (bookingsCancel w user bid).1 bid = status b).
Proof.
  intros H.
  specialize (H confirmedWorld (Some buyer) 1
                (applySet (createBooking emptyDb fullBooking).2
                   (setStatus noSet (Some "confirmed")))).
  assert (Hs : statusOf (bookingsCancel confirmedWorld (Some buyer) 1).1 1
               = Some "confirmed").
  { rewrite H; [reflexivity | vm_compute; reflexivity | left; reflexivity]. }
  vm_compute in Hs. discriminate Hs.
Qed.

End CancelFacts.

(** ** Escrow *)

Section EscrowFacts.
Import Schema Storage Routes Samples.

Variables (now : Z) (stripe : Stripe).

Lemma truthy_bookingId (bid : Z) : bid ≠ 0 → Js.truthy_int (Some bid) = true.
Proof. intros H. simpl. apply negb_true_iff, Z.eqb_neq, H. Qed.

(** The gate shared by release and cancel. *)
Lemma owner_gate usr b :
  sub usr = buyerUid b ∨ isAdmin usr = true →
  negb (String.eqb (buyerUid b) (sub usr)) && negb (isAdmin usr) = false.
Proof.
  intros [Hs|Ha].
  - rewrite Hs, String.eqb_refl. reflexivity.
  - rewrite Ha. apply andb_false_r.
Qed.

Lemma stranger_gate usr b :
  sub usr ≠ buyerUid b → isAdmin usr = false →
  negb (String.eqb (buyerUid b) (sub usr)) && negb (isAdmin usr) = true.
Proof.
  intros Hs Ha. rewrite Ha.
  destruct (String.eqb_spec (buyerUid b) (sub usr)); [congruence|reflexivity].
Qed.

Lemma escrowReserve_rejects w user bid b :
  getBooking (db w) bid = Some b →
  status b ≠ Some "pending_payment" ∨ escrowStatus b = Some "authorized" →
  (escrowReserve stripe w user (Some bid)).1 = w
  ∧ rejected (escrowReserve stripe w user (Some bid)).2
  ∧ (∀ usr, user = Some usr → sub usr = buyerUid b →
       code (escrowReserve stripe w user (Some bid)).2 = 400).
Proof.
  intros Hb Hstate. unfold escrowReserve, rejected.
  destruct (decide (bid = 0)) as [->|Hbid].
  { destruct user; simpl; (split; [reflexivity | split; [auto|]]);
      intros; (reflexivity || discriminate). }
  destruct user as [usr|];
    [|simpl; split; [reflexivity | split; [auto | discriminate]]].
  rewrite (truthy_bookingId bid Hbid). simpl negb. cbv iota.
  simpl default. rewrite Hb.
  destruct (String.eqb_spec (buyerUid b) (sub usr)) as [He|Hne];
    simpl negb; cbv iota.
  - destruct (eqStr (status b) "pending_payment") eqn:Es; simpl negb; cbv iota.
    + destruct (eqStr (escrowStatus b) "authorized") eqn:Ee.
      * simpl. split; [reflexivity | split; [auto | reflexivity]].
      * apply eqStr_true in Es. apply eqStr_false in Ee. tauto.
    + simpl. split; [reflexivity | split; [auto | reflexivity]].
  - simpl. split; [reflexivity | split; [auto|]].
    intros usr' [= <-] Hs. congruence.
Qed.

Lemma escrowRelease_rejects w user bid b :
  getBooking (db w) bid = Some b →
  escrowStatus b ≠ Some "authorized" →
  (escrowRelease now stripe w user (Some bid)).1 = w
  ∧ rejected (escrowRelease now stripe w user (Some bid)).2
  ∧ (∀ usr, user = Some usr → sub usr = buyerUid b ∨ isAdmin usr = true →
       code (escrowRelease now stripe w user (Some bid)).2 = 400).
Proof.
  intros Hb Hstate. apply eqStr_false in Hstate.
  unfold escrowRelease, rejected.
  destruct (decide (bid = 0)) as [->|Hbid].
  { destruct user; simpl; (split; [reflexivity | split; [auto|]]);
      intros; (reflexivity || discriminate). }
  destruct user as [usr|];
    [|simpl; split; [reflexivity | split; [auto | discriminate]]].
  rewrite (truthy_bookingId bid Hbid). simpl negb. cbv iota.
  simpl default. rewrite Hb.
  destruct (negb (String.eqb (buyerUid b) (sub usr)) && negb (isAdmin usr))
    eqn:Hgate.
  - simpl. split; [reflexivity | split; [auto 6|]].
    intros usr' [= <-] Hauth. rewrite (owner_gate _ _ Hauth) in Hgate.
    discriminate Hgate.
  - rewrite Hstate. simpl. split; [reflexivity | split; [auto | reflexivity]].
Qed.

Lemma escrowCancel_rejects w user bid b :
  getBooking (db w) bid = Some b →
  escrowStatus b ≠ Some "authorized" →
  (escrowCancel now stripe w user (Some bid)).1 = w
  ∧ rejected (escrowCancel now stripe w user (Some bid)).2
  ∧ (∀ usr, user = Some usr → sub usr = buyerUid b ∨ isAdmin usr = true →
       code (escrowCancel now stripe w user (Some bid)).2 = 400).
Proof.
  intros Hb Hstate. apply eqStr_false in Hstate.
  unfold escrowCancel, rejected.
  destruct (decide (bid = 0)) as [->|Hbid].
  { destruct user; simpl; (split; [reflexivity | split; [auto|]]);
      intros; (reflexivity || discriminate). }
  destruct user as [usr|];
    [|simpl; split; [reflexivity | split; [auto | discriminate]]].
  rewrite (truthy_bookingId bid Hbid). simpl negb. cbv iota.
  simpl default. rewrite Hb.
  destruct (negb (String.eqb (buyerUid b) (sub usr)) && negb (isAdmin usr))
    eqn:Hgate.
  - simpl. split; [reflexivity | split; [auto 6|]].
    intros usr' [= <-] Hauth. rewrite (owner_gate _ _ Hauth) in Hgate.
    discriminate Hgate.
  - rewrite Hstate. simpl. split; [reflexivity | split; [auto | reflexivity]].
Qed.

(** A caller who is neither the buyer nor an admin is answered 403 by
    each of the four handlers, and nothing is written. *)
Lemma escrow_strangers_rejected w usr bid b sessionId :
  bid ≠ 0 → getBooking (db w) bid = Some b →
  sub usr ≠ buyerUid b → isAdmin usr = false →
  let r1 := escrowReserve stripe w (Some usr) (Some bid) in
  let r2 := escrowConfirmReservation now stripe w (Some usr) (Some bid)
              sessionId in
  let r3 := escrowRelease now stripe w (Some usr) (Some bid) in
  let r4 := escrowCancel now stripe w (Some usr) (Some bid) in
  (r1.1 = w ∧ code r1.2 = 403) ∧ (r2.1 = w ∧ code r2.2 = 403)
  ∧ (r3.1 = w ∧ code r3.2 = 403) ∧ (r4.1 = w ∧ code r4.2 = 403).
Proof.
  intros Hbid Hb Hs Ha.
  pose proof (stranger_gate usr b Hs Ha) as Hgate.
  assert (Hneq : negb (String.eqb (buyerUid b) (sub usr)) = true).
  { destruct (String.eqb_spec (buyerUid b) (sub usr));
      [congruence | reflexivity]. }
  unfold escrowReserve, escrowConfirmReservation, escrowRelease, escrowCancel.
  rewrite (truthy_bookingId bid Hbid). simpl negb. cbv iota.
  simpl default. rewrite Hb, Hgate, Hneq. simpl. auto 10.
Qed.

(** A request whose [bookingId] is 0 counts as carrying none: 400 from
    each of the four handlers, and nothing is written. *)
Lemma escrow_missing_id_rejected w usr sessionId :
  let r1 := escrowReserve stripe w (Some usr) (Some 0) in
  let r2 := escrowConfirmReservation now stripe w (Some usr) (Some 0)
              sessionId in
  let r3 := escrowRelease now stripe w (Some usr) (Some 0) in
  let r4 := escrowCancel now stripe w (Some usr) (Some 0) in
  (r1.1 = w ∧ code r1.2 = 400) ∧ (r2.1 = w ∧ code r2.2 = 400)
  ∧ (r3.1 = w ∧ code r3.2 = 400) ∧ (r4.1 = w ∧ code r4.2 = 400).
Proof. simpl. auto 10. Qed.

(** Without a session each of the four handlers answers 401 and writes
    nothing. *)
Lemma escrow_anonymous_rejected w bookingId sessionId :
  let r1 := escrowReserve stripe w None bookingId in
  let r2 := escrowConfirmReservation now stripe w None bookingId sessionId in
  let r3 := escrowRelease now stripe w None bookingId in
  let r4 := escrowCancel now stripe w None bookingId in
  (r1.1 = w ∧ code r1.2 = 401) ∧ (r2.1 = w ∧ code r2.2 = 401)
  ∧ (r3.1 = w ∧ code r3.2 = 401) ∧ (r4.1 = w ∧ code r4.2 = 401).
Proof. simpl. auto 10. Qed.

End EscrowFacts.

Section EscrowClaims.
Import Schema Storage Routes Samples.

(** C7. The escrow handlers turn a request down, writing nothing and
    calling the provider for nothing, when the booking is not in the
    state they need: reserve when the status is not [pending_payment] or
    the escrow status is already [authorized], release and cancel when
    the escrow status is not [authorized]; the answer is 400 for a caller
    who passes the ownership check.  Each of the four handlers answers
    401 without a session and 403 to a caller who is neither the
    booking's buyer nor an admin, again writing nothing. *)
Theorem escrow_preconditions_enforced
    (now : Z) (stripe : Stripe) (w : World) (user : option User)
    (bid : Z) (b : Booking) (sessionId : option string) :
  getBooking (db w) bid = Some b →
  (status b ≠ Some "pending_payment" ∨ escrowStatus b = Some "authorized" →
     (escrowReserve stripe w user (Some bid)).1 = w
     ∧ rejected (escrowReserve stripe w user (Some bid)).2
     ∧ (∀ usr, user = Some usr → sub usr = buyerUid b →
          code (escrowReserve stripe w user (Some bid)).2 = 400))
  ∧ (escrowStatus b ≠ Some "authorized" →
     ((escrowRelease now stripe w user (Some bid)).1 = w
      ∧ rejected (escrowRelease now stripe w user (Some bid)).2
      ∧ (∀ usr, user = Some usr → sub usr = buyerUid b ∨ isAdmin usr = true →
           code (escrowRelease now stripe w user (Some bid)).2 = 400))
     ∧ ((escrowCancel now stripe w user (Some bid)).1 = w
        ∧ rejected (escrowCancel now stripe w user (Some bid)).2
        ∧ (∀ usr, user = Some usr →
             sub usr = buyerUid b ∨ isAdmin usr = true →
             code (escrowCancel now stripe w user (Some bid)).2 = 400)))
  ∧ ((∀ usr, user = Some usr → sub usr ≠ buyerUid b ∧ isAdmin usr = false) →
     ((escrowReserve stripe w user (Some bid)).1 = w
      ∧ rejected (escrowReserve stripe w user (Some bid)).2)
     ∧ ((escrowConfirmReservation now stripe w user (Some bid) sessionId).1 = w
        ∧ rejected
            (escrowConfirmReservation now stripe w user (Some bid) sessionId).2)
     ∧ ((escrowRelease now stripe w user (Some bid)).1 = w
        ∧ rejected (escrowRelease now stripe w user (Some bid)).2)
     ∧ ((escrowCancel now stripe w user (Some bid)).1 = w
        ∧ rejected (escrowCancel now stripe w user (Some bid)).2)).
Proof.
  intros Hb. split; [|split].
  - apply escrowReserve_rejects; assumption.
  - intros Hstate. split.
    + apply escrowRelease_rejects; assumption.
    + apply escrowCancel_rejects; assumption.
  - intros Hout. unfold rejected. destruct user as [usr|].
    + destruct (Hout usr eq_refl) as [Hs Ha].
      destruct (decide (bid = 0)) as [->|Hbid].
      * destruct (escrow_missing_id_rejected now stripe w usr sessionId)
          as ((?&->) & (?&->) & (?&->) & (?&->)).
        auto 20.
      * destruct (escrow_strangers_rejected now stripe w usr bid b sessionId
                    Hbid Hb Hs Ha) as ((?&->) & (?&->) & (?&->) & (?&->)).
        auto 20.
    + destruct (escrow_anonymous_rejected now stripe w (Some bid) sessionId)
        as ((?&->) & (?&->) & (?&->) & (?&->)).
      auto 20.
Qed.

(** Reserve on a confirmed booking, and release on a fresh one whose
    escrow status is [none], both asked by the buyer. *)
Lemma escrow_preconditions_enforced_witness :
  let fresh := world oneFullBooking in
  ((escrowReserve okStripe confirmedWorld (Some buyer) (Some 1)).1
   = confirmedWorld
   ∧ code (escrowReserve okStripe confirmedWorld (Some buyer) (Some 1)).2 = 400)
  ∧ ((escrowRelease 0 okStripe fresh (Some buyer) (Some 1)).1 = fresh
     ∧ code (escrowRelease 0 okStripe fresh (Some buyer) (Some 1)).2 = 400)
  ∧ ((escrowCancel 0 okStripe fresh (Some stranger) (Some 1)).1 = fresh
     ∧ rejected (escrowCancel 0 okStripe fresh (Some stranger) (Some 1)).2).
Proof.
  intros fresh. split; [|split].
  - destruct (escrow_preconditions_enforced 0 okStripe confirmedWorld
                (Some buyer) 1
                (applySet (createBooking emptyDb fullBooking).2
                   (setStatus noSet (Some "confirmed"))) None)
      as [Hres _]; [vm_compute; reflexivity |].
    destruct Hres as (Hw & _ & Hc); [left; vm_compute; discriminate|].
    split; [exact Hw | apply (Hc buyer); reflexivity].
  - destruct (escrow_preconditions_enforced 0 okStripe fresh (Some buyer) 1
                (createBooking emptyDb fullBooking).2 None)
      as (_ & Hrel & _); [vm_compute; reflexivity |].
    destruct Hrel as [(Hw & _ & Hc) _]; [vm_compute; discriminate|].
    split; [exact Hw | apply (Hc buyer); [reflexivity | left; reflexivity]].
  - destruct (escrow_preconditions_enforced 0 okStripe fresh (Some stranger) 1
                (createBooking emptyDb fullBooking).2 None)
      as (_ & _ & Hout); [vm_compute; reflexivity |].
    destruct Hout as (_ & _ & _ & Hcan).
    + intros usr [= <-]. split; [vm_compute; discriminate | reflexivity].
    + exact Hcan.
Defined.

End EscrowClaims.

(** ** Creating a post *)

Section PostFacts.
Import Schema Storage Routes Samples.

(** Case analysis on the gates of a handler, outermost first. *)
Ltac gates :=
  repeat (first
    [ match goal with
      | |- context [ensureCredits ?d ?u] =>
          destruct (ensureCredits d u) as [? ?] eqn:?
      end
    | match goal with
      | |- context [if ?c then _ else _] => destruct c eqn:?
      end ];
    cbv beta iota zeta; try discriminate).

(** C10. A post created by [POST /api/posts] in the category
    "Adult Club Event" is stored with [nsfw = true] whatever flag the
    request carried: the handler sets the flag on the input before it
    calls [createPost]. *)
Theorem adult_club_event_stored_nsfw
    (now : Z) (w : World) (user : option User) (input : InsertPost) :
  ip_category input = "Adult Club Event" →
  code (postsCreate now w user input).2 = 201 →
  ∃ p, body (postsCreate now w user input).2 = PostJson p
     ∧ last (posts (db (postsCreate now w user input).1)) = Some p
     ∧ ip_category (p_data p) = "Adult Club Event"
     ∧ ip_nsfw (p_data p) = Some true.
Proof.
  intros Hcat. unfold postsCreate, createPost.
  destruct user as [usr|]; [|discriminate].
  destruct (eqStr (ip_postType input) "event") eqn:Ev.
  - rewrite Hcat.
    change (Js.includes ALL_EVENT_CATEGORIES "Adult Club Event") with true.
    cbn [andb negb]. rewrite String.eqb_refl.
    cbn [withNsfw ip_nsfw ip_category Js.truthy_bool orb andb].
    destruct (isAgeVerified (db w) (sub usr)); cbn [negb]; [|discriminate].
    gates.
    all: intros _; eexists;
      cbn [fst snd body res db withDb posts withPosts];
      rewrite last_snoc; repeat split; try reflexivity; simpl; auto.
  - cbn [andb negb]. rewrite Hcat. rewrite String.eqb_refl, orb_true_r.
    cbn [withNsfw ip_nsfw ip_category Js.truthy_bool orb andb].
    destruct (isAgeVerified (db w) (sub usr)); cbn [negb]; [|discriminate].
    rewrite Hcat.
    change (bool_decide
              (is_Some (Js.get "Adult Club Event" LICENSED_CATEGORIES)))
      with false.
    cbn [andb].
    gates.
    all: intros _; eexists;
      cbn [fst snd body res db withDb posts withPosts];
      rewrite last_snoc; repeat split; try reflexivity; simpl; auto.
Qed.

(** An age-verified host posts an Adult Club Event with [nsfw: false]. *)
Lemma adult_club_event_stored_nsfw_witness :
  ip_nsfw clubNight = Some false
  ∧ ∃ p, body (postsCreate 0 (world verifiedHost) (Some host) clubNight).2
         = PostJson p
       ∧ ip_nsfw (p_data p) = Some true.
Proof.
  split; [reflexivity|].
  destruct (adult_club_event_stored_nsfw 0 (world verifiedHost) (Some host)
              clubNight) as (p & Hbody & _ & _ & Hnsfw);
    [reflexivity | vm_compute; reflexivity |].
  exists p. split; [exact Hbody | exact Hnsfw].
Defined.

End PostFacts.

(** ** Money totals *)

Section PricingFacts.
Import Schema Pricing Routes.

(** The hundredfold rounding the booking handler applies to the three
    amounts is exact on a whole base pay: the cents add up. *)
Lemma cents_add_up (basePay : Z) (tier boost : string) :
  let t := calculateTotal (inject_Z basePay) tier boost in
  Js.round (totalAmount t * 100)%Q
  = 100 * basePay + Js.round (tierFee t * 100)%Q
    + Js.round (boostFee t * 100)%Q.
Proof.
  unfold calculateTotal, TIER_FEES, BOOST_FEES. cbn [Js.get].
  repeat match goal with
  | |- context [if String.eqb ?a ?b then _ else _] => destruct (String.eqb a b)
  end.
  all: repeat match goal with
       | |- context [Js.or_num ?x 0%Q] =>
           let v := eval vm_compute in (Js.or_num x 0%Q) in
           change (Js.or_num x 0%Q) with v
       end.
  all: cbn [totalAmount tierFee boostFee].
  all: unfold Js.round, Qfloor, Qplus, Qmult, inject_Z; cbn [Qnum Qden Pos.mul].
  all: Z.to_euclidean_division_equations; lia.
Qed.



End PricingFacts.

(** * Further properties *)

(** ** Credit costs and plans *)

Section CostFacts.
Import Schema Credits Subscriptions Prototype.

(** Case analysis on the keys of an object literal. *)
Ltac keys :=
  repeat match goal with
  | |- context [String.eqb ?a ?b] =>
      destruct (String.eqb_spec a b); try subst; cbn [Js.or_int Js.or_num]
  end.

Lemma getPostCreditCost_range tier : 1 ≤ getPostCreditCost tier ≤ 5.
Proof.
  unfold getPostCreditCost, CREDIT_COSTS.post. cbn [Js.get].
  keys; simpl; lia.
Qed.

Lemma getBoostCreditCost_range boost : 0 ≤ getBoostCreditCost boost ≤ 8.
Proof.
  unfold getBoostCreditCost, CREDIT_COSTS.boost. cbn [Js.get].
  keys; simpl; lia.
Qed.



Lemma hasUnlimitedPosts_elite plan :
  hasUnlimitedPosts plan = true ↔ plan = "elite".
Proof.
  unfold hasUnlimitedPosts, getPlanDetails, PLAN_DETAILS. cbn [Js.get].
  destruct (String.eqb_spec "free" plan) as [<-|H1];
    [split; discriminate|].
  destruct (String.eqb_spec "pro" plan) as [<-|H2];
    [split; discriminate|].
  destruct (String.eqb_spec "elite" plan) as [<-|H3];
    [split; reflexivity|].
  simpl. split; [discriminate | congruence].
Qed.

(** X2. The plans with unlimited posts are exactly the plans for which
    [canAfford] ignores the balance: [hasUnlimitedPosts] holds of a plan
    if and only if that plan affords a cost above its balance, and this
    is the plan "elite" alone.  For every other plan [canAfford] is the
    comparison of cost and balance. *)
Theorem unlimited_plans_are_those_that_always_afford (plan : string) :
  (hasUnlimitedPosts plan = true ↔ plan = "elite")
  ∧ (hasUnlimitedPosts plan = true ↔
     ∀ balance cost, canAfford balance cost plan = true)
  ∧ (hasUnlimitedPosts plan = false →
     ∀ balance cost, canAfford balance cost plan = true ↔ cost ≤ balance).
Proof.
  pose proof (hasUnlimitedPosts_elite plan) as He.
  split; [exact He|]. split.
  - split.
    + intros H balance cost. apply He in H. subst plan. reflexivity.
    + intros H. apply He. specialize (H 0 1). unfold canAfford in H.
      destruct (String.eqb_spec plan "elite"); [assumption|discriminate].
  - intros Hn balance cost. unfold canAfford.
    destruct (String.eqb_spec plan "elite") as [->|Hne].
    + exfalso. assert (hasUnlimitedPosts "elite" = true) by reflexivity.
      congruence.
    + apply Z.leb_le.
Qed.

Lemma unlimited_plans_are_those_that_always_afford_witness :
  canAfford 2 3 "pro" = true ↔ 3 ≤ 2.
Proof.
  destruct (unlimited_plans_are_those_that_always_afford "pro")
    as (_ & _ & H).
  apply H. reflexivity.
Defined.

(** X3. Boosts are enabled for "pro" and "elite" and for no other plan
    name; a plan name that is neither one of the three known names nor
    a name inherited from [Object.prototype] gets the details of the
    free plan. *)
Theorem boosts_enabled_for_pro_and_elite_only (plan : string) :
  (canUseBoosts plan = true ↔ plan = "pro" ∨ plan = "elite")
  ∧ (plain plan → plan ≠ "free" → plan ≠ "pro" → plan ≠ "elite" →
     getPlanDetails plan = getPlanDetails "free").
Proof.
  unfold canUseBoosts, getPlanDetails, PLAN_DETAILS. cbn [Js.get].
  destruct (String.eqb_spec "free" plan) as [<-|H1].
  { split; [|congruence]. simpl. split; [discriminate|].
    intros [H|H]; discriminate H. }
  destruct (String.eqb_spec "pro" plan) as [<-|H2].
  { split; [|congruence]. simpl. split; auto. }
  destruct (String.eqb_spec "elite" plan) as [<-|H3].
  { split; [|congruence]. simpl. split; auto. }
  split; [|reflexivity]. simpl. split; [discriminate|].
  intros [H|H]; congruence.
Qed.

Lemma boosts_enabled_for_pro_and_elite_only_witness :
  getPlanDetails "gold" = getPlanDetails "free".
Proof.
  destruct (boosts_enabled_for_pro_and_elite_only "gold") as [_ H].
  apply H; [reflexivity | discriminate..].
Defined.

End CostFacts.

(** ** Money fees and boost windows *)

Section FeeFacts.
Import Schema Pricing BoostClock Prototype.

Lemma tier_fee_range tier :
  (0 <= Js.or_num (Js.get tier TIER_FEES) 0 <= 5 # 2)%Q.
Proof.
  unfold TIER_FEES. cbn [Js.get].
  repeat match goal with
  | |- context [String.eqb ?a ?b] => destruct (String.eqb a b)
  end; split; apply Qle_bool_iff; reflexivity.
Qed.

Lemma boost_fee_range boost :
  (0 <= Js.or_num (fee <$> Js.get boost BOOST_FEES) 0 <= 15)%Q.
Proof.
  unfold BOOST_FEES. cbn [Js.get].
  repeat match goal with
  | |- context [String.eqb ?a ?b] => destruct (String.eqb a b)
  end; split; apply Qle_bool_iff; reflexivity.
Qed.

(** X4. For a base pay of a whole number of quarters of the currency
    unit, up to 2^52 of them, and a tier that is no name inherited from
    [Object.prototype], [calculateTotal] charges a tier fee between 0
    and 2.5 and a boost fee between 0 and 15, so the total is at least
    the base pay and at most the base pay plus 17.5; a tier or boost
    that is not a key of its fee table is charged nothing.  (On such a
    base pay the sums are exact in floating point.) *)
Theorem calculateTotal_fees_bounded (quarters : Z) (tier boost : string) :
  plain tier → Z.abs quarters ≤ 2 ^ 52 →
  let basePay := (quarters # 4)%Q in
  let t := calculateTotal basePay tier boost in
  (0 <= tierFee t <= 5 # 2)%Q
  ∧ (0 <= boostFee t <= 15)%Q
  ∧ (basePay <= totalAmount t <= basePay + (35 # 2))%Q
  ∧ (Js.get tier TIER_FEES = None → tierFee t = 0%Q)
  ∧ (Js.get boost BOOST_FEES = None → boostFee t = 0%Q).
Proof.
  intros _ _ basePay t. unfold t, calculateTotal.
  cbn [tierFee boostFee totalAmount].
  pose proof (tier_fee_range tier) as [Ht0 Ht1].
  pose proof (boost_fee_range boost) as [Hb0 Hb1].
  set (tf := Js.or_num (Js.get tier TIER_FEES) 0) in *.
  set (bf := Js.or_num (fee <$> Js.get boost BOOST_FEES) 0) in *.
  split; [auto|]. split; [auto|]. split; [|split].
  - split.
    + rewrite <- (Qplus_0_r basePay) at 1. rewrite <- Qplus_assoc.
      apply Qplus_le_compat; [apply Qle_refl|].
      rewrite <- (Qplus_0_r 0). apply Qplus_le_compat; assumption.
    + rewrite <- Qplus_assoc.
      apply Qplus_le_compat; [apply Qle_refl|].
      apply (Qle_trans _ ((5 # 2) + 15)%Q);
        [apply Qplus_le_compat; assumption | apply Qle_bool_iff; reflexivity].
  - unfold tf. intros ->. reflexivity.
  - unfold bf. intros ->. reflexivity.
Qed.

Lemma calculateTotal_fees_bounded_witness :
  tierFee (calculateTotal (160 # 4) "Gold" "Sparkle") = 0%Q
  ∧ boostFee (calculateTotal (160 # 4) "Gold" "Sparkle") = 0%Q.
Proof.
  destruct (calculateTotal_fees_bounded 160 "Gold" "Sparkle")
    as (_ & _ & _ & Ht & Hb); [reflexivity | vm_compute; discriminate |].
  split; [apply Ht | apply Hb]; reflexivity.
Defined.

End FeeFacts.

(** ** The boost window *)

Section BoostZoneFacts.
Import Schema BoostClock BoostZone.

Lemma fixed_drifts offset : drifts (fixed offset) 0.
Proof. intros t l. cbn. lia. Qed.

Lemma springForward_drifts change : drifts (springForward change) 3600000.
Proof.
  intros t l. cbn.
  destruct (l <? change + 3600000), (t <? change); lia.
Qed.

(** X5. [getBoostExpiry] returns [null] exactly for a boost level other
    than the three paid ones.  For a paid level the hours are added to
    the local wall-clock time, so the expiry is the call time plus the
    hours of the level, 24, 72 or 168, give or take the difference
    between the zone's offsets: in a zone that keeps one offset it is
    exactly that many hours after the call, and across a change of one
    hour it may come an hour early or late.  [isBoostActive] holds of an
    expiry at every time before it and at no later time, and never of
    [null]. *)
Theorem boost_runs_from_now_to_expiry
    (z : Zone) (slack now : Z) (boost : string) :
  drifts z slack →
  (getBoostExpiry z now boost = None ↔
     boost ≠ "24h Boost" ∧ boost ≠ "72h Boost" ∧ boost ≠ "7 Day Featured")
  ∧ (∀ expiry, getBoostExpiry z now boost = Some expiry →
       (∃ hours, (boost, hours) ∈ paid
          ∧ Z.abs (expiry - (now + hours * 3600000)) ≤ slack)
       ∧ ∀ t, isBoostActive t (Some expiry) = true ↔ t < expiry)
  ∧ (slack = 0 → getBoostExpiry z now boost = Pricing.getBoostExpiry now boost)
  ∧ (∀ t, getBoostExpiry z now boost = None →
       isBoostActive t (getBoostExpiry z now boost) = false).
Proof.
  intros Hd.
  assert (Hnear : ∀ hours,
    Z.abs (utcOf z (localTime z now + hours * 3600000)
           - (now + hours * 3600000)) ≤ slack).
  { intros hours. unfold localTime.
    specialize (Hd now (now + offsetAt z now + hours * 3600000)). lia. }
  assert (Hpaid : ∀ hours, (boost, hours) ∈ paid →
    ∃ h, (boost, h) ∈ paid
       ∧ Z.abs (utcOf z (localTime z now + hours * 3600000)
                - (now + h * 3600000)) ≤ slack).
  { intros hours Hin. exists hours. split; [exact Hin | apply Hnear]. }
  assert (Hexact : ∀ hours, slack = 0 →
    Some (utcOf z (localTime z now + hours * 3600000))
    = Some (now + hours * 3600000)).
  { intros hours H0. f_equal. specialize (Hnear hours). lia. }
  unfold getBoostExpiry, Pricing.getBoostExpiry, BOOST_FEES. cbn [Js.get].
  destruct (String.eqb_spec "None" boost) as [<-|H0].
  { simpl. split; [split; [intros _; repeat split; discriminate | reflexivity]|].
    split; [discriminate|]. split; reflexivity. }
  destruct (String.eqb_spec "24h Boost" boost) as [<-|H1].
  { simpl. split; [split; [discriminate | intros (H & _); congruence]|].
    split; [|split; [apply Hexact | discriminate]].
    intros expiry [= <-].
    split; [apply Hpaid; left | intros t; apply Z.ltb_lt]. }
  destruct (String.eqb_spec "72h Boost" boost) as [<-|H2].
  { simpl. split; [split; [discriminate | intros (_ & H & _); congruence]|].
    split; [|split; [apply Hexact | discriminate]].
    intros expiry [= <-].
    split; [apply Hpaid; right; left | intros t; apply Z.ltb_lt]. }
  destruct (String.eqb_spec "7 Day Featured" boost) as [<-|H3].
  { simpl. split; [split; [discriminate | intros (_ & _ & H); congruence]|].
    split; [|split; [apply Hexact | discriminate]].
    intros expiry [= <-].
    split; [apply Hpaid; right; right; left | intros t; apply Z.ltb_lt]. }
  simpl. split; [split; [intros _; repeat split; congruence | reflexivity]|].
  split; [discriminate|]. split; reflexivity.
Qed.

(** On UTC a day's boost bought at 1000 runs to a day after 1000.  In a
    zone whose clocks go forward an hour at 7200000, a day's boost
    bought an hour before the change expires 23 hours after the
    purchase. *)
Lemma boost_runs_from_now_to_expiry_witness :
  getBoostExpiry (fixed 0) 1000 "24h Boost" = Some (1000 + 24 * 3600000)
  ∧ isBoostActive 1000 (getBoostExpiry (fixed 0) 1000 "24h Boost") = true
  ∧ getBoostExpiry (springForward 7200000) 3600000 "24h Boost"
    = Some (3600000 + 23 * 3600000)
  ∧ isBoostActive (3600000 + 23 * 3600000)
      (getBoostExpiry (springForward 7200000) 3600000 "24h Boost") = false.
Proof.
  destruct (boost_runs_from_now_to_expiry (fixed 0) 0 1000 "24h Boost"
              (fixed_drifts 0)) as (_ & Hs & He & _).
  destruct (Hs (1000 + 24 * 3600000)) as [_ Hact]; [reflexivity|].
  destruct (boost_runs_from_now_to_expiry (springForward 7200000) 3600000
              3600000 "24h Boost" (springForward_drifts 7200000))
    as (_ & Hs' & _).
  destruct (Hs' (3600000 + 23 * 3600000)) as [_ Hact']; [reflexivity|].
  split; [rewrite (He eq_refl); reflexivity|]. split; [|split].
  - rewrite (He eq_refl).
    change (Pricing.getBoostExpiry 1000 "24h Boost")
      with (Some (1000 + 24 * 3600000)).
    apply Hact. lia.
  - reflexivity.
  - change (getBoostExpiry (springForward 7200000) 3600000 "24h Boost")
      with (Some (3600000 + 23 * 3600000)).
    destruct (isBoostActive _ _) eqn:E; [|reflexivity].
    apply Hact' in E. lia.
Defined.

End BoostZoneFacts.

(** ** Category groups *)

Section CategoryFacts.
Import Categories.

Lemma includes_In arr x : Js.includes arr x = true ↔ In x arr.
Proof.
  unfold Js.includes. rewrite existsb_exists. split.
  - intros (y & Hy & He). apply String.eqb_eq in He. subst y. exact Hy.
  - intros H. exists x. split; [exact H | apply String.eqb_refl].
Qed.

Lemma groupOf_Some c g :
  groupOf c = Some g → In g CATEGORY_GROUPS ∧ In c g.2.
Proof.
  unfold groupOf. intros H. apply find_some in H as [Hg Hc].
  split; [exact Hg | apply includes_In, Hc].
Qed.

(** Every member of a group is sent to that group. *)
Lemma groupOf_member g m :
  In g CATEGORY_GROUPS → In m g.2 → groupOf m = Some g.
Proof.
  assert (Hall : forallb (λ g, forallb (λ m, bool_decide (groupOf m = Some g))
                                g.2) CATEGORY_GROUPS = true)
    by (vm_compute; reflexivity).
  intros Hg Hm. rewrite forallb_forall in Hall.
  specialize (Hall g Hg). rewrite forallb_forall in Hall.
  specialize (Hall m Hm). apply bool_decide_eq_true in Hall. exact Hall.
Qed.

(** X6. [getRelatedCategories] sorts categories into classes: a category
    is among its own related categories, and every category related to
    it has the same related categories and the same group name.  So
    being related is reflexive, symmetric and transitive. *)
Theorem related_categories_are_classes (category : string) :
  In category (getRelatedCategories category)
  ∧ (∀ other, In other (getRelatedCategories category) →
       getRelatedCategories other = getRelatedCategories category
       ∧ getCategoryGroupName other = getCategoryGroupName category
       ∧ In category (getRelatedCategories other)).
Proof.
  assert (Hrefl : ∀ c, In c (getRelatedCategories c)).
  { intros c. unfold getRelatedCategories.
    destruct (groupOf c) as [g|] eqn:Hg; [|left; reflexivity].
    apply (groupOf_Some c g Hg). }
  split; [apply Hrefl|].
  intros other Hin. unfold getRelatedCategories in Hin.
  destruct (groupOf category) as [g|] eqn:Hg.
  - assert (Hsame : groupOf other = Some g)
      by (apply groupOf_member;
          [apply (groupOf_Some category g Hg) | exact Hin]).
    unfold getRelatedCategories, getCategoryGroupName. rewrite Hsame, Hg.
    split; [reflexivity|]. split; [reflexivity|].
    apply (groupOf_Some category g Hg).
  - destruct Hin as [<-|[]]. auto.
Qed.

Lemma related_categories_are_classes_witness :
  getRelatedCategories "Barber" = getRelatedCategories "Nails"
  ∧ getCategoryGroupName "Barber" = Some "Beauty & Style".
Proof.
  destruct (related_categories_are_classes "Nails") as [_ H].
  destruct (H "Barber") as (Hr & Hn & _).
  - vm_compute. auto 10.
  - split; [exact Hr | rewrite Hn; reflexivity].
Defined.

(** X7. The groups cover the categories once: every entry of
    [CATEGORIES] other than "Other" lies in exactly one group, which has
    a name, and every member of a group is an entry of [CATEGORIES];
    "Other", "Adult/NSFW" and any string that is no category have no
    group and are related to themselves alone. *)
Theorem groups_partition_categories (category : string) :
  (In category CATEGORIES → category ≠ "Other" →
     is_Some (getCategoryGroupName category)
     ∧ length (List.filter (λ g, Js.includes g.2 category) CATEGORY_GROUPS)
       = 1%nat)
  ∧ (is_Some (getCategoryGroupName category) →
     In category CATEGORIES ∧ category ≠ "Other")
  ∧ (getCategoryGroupName category = None →
     getRelatedCategories category = [ category ]).
Proof.
  split; [|split].
  - intros Hin Hne.
    assert (Hall : forallb (λ c, String.eqb c "Other"
                      || (bool_decide (is_Some (getCategoryGroupName c))
                          && bool_decide
                               (length (List.filter
                                          (λ g, Js.includes g.2 c)
                                          CATEGORY_GROUPS)
                                = 1%nat)))
                     CATEGORIES = true) by (vm_compute; reflexivity).
    rewrite forallb_forall in Hall. specialize (Hall category Hin).
    apply orb_true_iff in Hall as [H|H].
    + apply String.eqb_eq in H. contradiction.
    + apply andb_true_iff in H as [H1 H2].
      apply bool_decide_eq_true in H1, H2. auto.
  - unfold getCategoryGroupName.
    destruct (groupOf category) as [g|] eqn:Hg; [|intros [? [=]]].
    intros _. destruct (groupOf_Some category g Hg) as [Hin Hm].
    assert (Hall : forallb (λ g, forallb (λ m,
                      Js.includes CATEGORIES m
                      && negb (String.eqb m "Other")) g.2)
                     CATEGORY_GROUPS = true) by (vm_compute; reflexivity).
    rewrite forallb_forall in Hall. specialize (Hall g Hin).
    rewrite forallb_forall in Hall. specialize (Hall category Hm).
    apply andb_true_iff in Hall as [H1 H2].
    apply includes_In in H1. apply negb_true_iff in H2.
    apply String.eqb_neq in H2. auto.
  - unfold getCategoryGroupName, getRelatedCategories.
    destruct (groupOf category); [discriminate | reflexivity].
Qed.

Lemma groups_partition_categories_witness :
  is_Some (getCategoryGroupName "DJ/Audio")
  ∧ getRelatedCategories "Other" = [ "Other" ].
Proof.
  destruct (groups_partition_categories "DJ/Audio") as (H & _).
  destruct (groups_partition_categories "Other") as (_ & _ & Ho).
  split.
  - apply H; [vm_compute; auto 40 | discriminate].
  - apply Ho. reflexivity.
Defined.

End CategoryFacts.

(** ** Booking rows under the storage methods *)

Section BookingStoreFacts.
Import Schema Storage StorageLaws Columns.

Lemma idsFresh_empty : idsFresh emptyDb.
Proof. intros k b H. unfold emptyDb in H; simpl in H. rewrite lookup_empty in H. discriminate. Qed.

(** X8. While ids come from the serial column, [createBooking] hands out
    an id no stored booking has, stores the new row under it, leaves
    every other booking as it was, and the ids stay fresh. *)
Theorem createBooking_uses_fresh_id (d : Db) (booking : InsertBooking) :
  idsFresh d →
  let out := createBooking d booking in
  getBooking d (id out.2) = None
  ∧ getBooking out.1 (id out.2) = Some out.2
  ∧ (∀ k, k ≠ id out.2 → getBooking out.1 k = getBooking d k)
  ∧ idsFresh out.1.
Proof.
  intros Hf out. unfold out, createBooking, getBooking; simpl.
  split; [|split; [|split]].
  - destruct (bookings d !! nextBookingId d) as [b|] eqn:Hb; [|reflexivity].
    apply Hf in Hb. lia.
  - apply lookup_insert_eq.
  - intros k Hk. apply lookup_insert_ne. congruence.
  - intros k b. simpl.
    destruct (decide (nextBookingId d = k)) as [<-|Hne].
    + rewrite lookup_insert_eq. intros [= <-]. simpl. lia.
    + rewrite lookup_insert_ne by exact Hne. intros Hb.
      apply Hf in Hb. lia.
Qed.

Lemma createBooking_uses_fresh_id_witness :
  let out1 := createBooking emptyDb Samples.splitBooking in
  let out2 := createBooking out1.1 Samples.fullBooking in
  id out2.2 ≠ id out1.2 ∧ getBooking out2.1 (id out1.2) = Some out1.2.
Proof.
  intros out1 out2.
  destruct (createBooking_uses_fresh_id emptyDb Samples.splitBooking
              idsFresh_empty) as (_ & Hs1 & _ & Hf1).
  destruct (createBooking_uses_fresh_id out1.1 Samples.fullBooking Hf1)
    as (Hn & _ & Hkeep & _).
  fold out1 in Hs1. fold out2 in Hn, Hkeep.
  assert (Hne : id out2.2 ≠ id out1.2) by congruence.
  split; [exact Hne|]. rewrite Hkeep by congruence. exact Hs1.
Defined.

Lemma updateBookings_frame d k s :
  let out := updateBookings d k s in
  (getBooking d k = None → out = (d, None))
  ∧ (∀ b, getBooking d k = Some b →
       out.2 = Some (applySet b s) ∧ getBooking out.1 k = Some (applySet b s))
  ∧ (∀ k', k' ≠ k → getBooking out.1 k' = getBooking d k')
  ∧ nextBookingId out.1 = nextBookingId d
  ∧ posts out.1 = posts d ∧ profiles out.1 = profiles d
  ∧ credits out.1 = credits d ∧ creditLogs out.1 = creditLogs d
  ∧ verificationRequests out.1 = verificationRequests d
  ∧ professionalVerifications out.1 = professionalVerifications d.
Proof.
  unfold updateBookings, getBooking. simpl.
  destruct (bookings d !! k) as [b|] eqn:Hb; simpl.
  - split; [discriminate|]. split.
    + intros b' [= <-]. split; [reflexivity | apply lookup_insert_eq].
    + split; [|auto 10]. intros k' Hk. apply lookup_insert_ne. congruence.
  - split; [reflexivity|]. split; [discriminate|]. auto 10.
Qed.

Lemma sameTerms_applySet b s : sameTerms (applySet b s) b.
Proof. unfold sameTerms. simpl. auto 20. Qed.

Lemma sameTerms_trans a b c : sameTerms a b → sameTerms b c → sameTerms a c.
Proof. unfold sameTerms. intuition congruence. Qed.

Lemma updateBookings_updateLike d k s : updateLike d k (updateBookings d k s).
Proof.
  destruct (updateBookings_frame d k s)
    as (Hn & Hs & Ho & Hnx & Hp & _ & Hc & Hl & _).
  unfold updateLike. split; [exact Hn|]. split; [|auto 10].
  intros b Hb. destruct (Hs b Hb) as [H1 H2].
  eexists. split; [exact H1|]. split; [exact H2 | apply sameTerms_applySet].
Qed.

Lemma updateLike_twice d k out1 s :
  updateLike d k out1 →
  is_Some (getBooking d k) →
  updateLike d k (updateBookings out1.1 k s).
Proof.
  intros (Hn & Hs & Ho & Hnx & Hc & Hl & Hp) [b Hb].
  destruct (Hs b Hb) as (u & Hu & Hg & Hsame).
  destruct (updateBookings_updateLike out1.1 k s)
    as (Hn2 & Hs2 & Ho2 & Hnx2 & Hc2 & Hl2 & Hp2).
  unfold updateLike. split; [congruence|]. split.
  - intros b' Hb'. assert (b' = b) by congruence. subst b'.
    destruct (Hs2 u Hg) as (u2 & Hu2 & Hg2 & Hsame2).
    exists u2. split; [exact Hu2|]. split; [exact Hg2|].
    eapply sameTerms_trans; eassumption.
  - split; [intros k' Hk; rewrite Ho2, Ho by exact Hk; reflexivity|].
    repeat split; congruence.
Qed.

Lemma applyUpdate_updateLike d k u : updateLike d k (applyUpdate d k u).
Proof.
  destruct u as [st|data|inst st sess|now st]; simpl;
    try apply updateBookings_updateLike.
  unfold updateBookingInstallment.
  set (sd := if String.eqb inst "deposit" then _ else _).
  pose proof (updateBookings_updateLike d k sd) as H1.
  destruct (updateBookings d k sd) as [d1 upd] eqn:E.
  destruct upd as [u|]; [|exact H1].
  assert (Hsome : is_Some (getBooking d k)).
  { destruct (getBooking d k) eqn:Hg; [eauto|].
    destruct H1 as (Hn & _). specialize (Hn Hg). discriminate Hn. }
  repeat match goal with
  | |- context [if ?c then _ else _] => destruct c
  end; try exact H1;
  apply (updateLike_twice d k (d1, Some u) _ H1 Hsome).
Qed.

(** X9. Each of the four update methods ([updateBookingStatus],
    [updateBookingStripeInfo], [updateBookingInstallment],
    [updateBookingEscrow]), called so that it sets at least one column,
    returns [undefined] and writes nothing when the id is not stored;
    otherwise it returns the row as now stored, with id, buyer, tier,
    amounts and payment structure as before.  It never touches another
    booking, the next id, the posts or the credits, so it keeps ids
    fresh. *)
Theorem booking_updates_keep_terms (d : Db) (k : Z) (u : BookingUpdate) :
  setsSomething u = true →
  let out := applyUpdate d k u in
  (getBooking d k = None → out = (d, None))
  ∧ (∀ b, getBooking d k = Some b →
       ∃ b', out.2 = Some b' ∧ getBooking out.1 k = Some b'
             ∧ sameTerms b' b)
  ∧ (∀ k', k' ≠ k → getBooking out.1 k' = getBooking d k')
  ∧ credits out.1 = credits d ∧ creditLogs out.1 = creditLogs d
  ∧ posts out.1 = posts d
  ∧ (idsFresh d → idsFresh out.1).
Proof.
  intros _ out.
  destruct (applyUpdate_updateLike d k u)
    as (Hn & Hs & Ho & Hnx & Hc & Hl & Hp).
  fold out in Hn, Hs, Ho, Hnx, Hc, Hl, Hp.
  split; [exact Hn|]. split; [exact Hs|]. split; [exact Ho|].
  split; [exact Hc|]. split; [exact Hl|]. split; [exact Hp|].
  intros Hf k' b' Hb'. rewrite Hnx.
  destruct (decide (k' = k)) as [->|Hne].
  - destruct (getBooking d k) as [b|] eqn:Hb.
    + destruct (Hs b eq_refl) as (u' & _ & Hg & Hsame).
      unfold getBooking in Hg. assert (b' = u') by congruence. subst b'.
      destruct (Hf k b Hb) as [Hlt Hid].
      split; [exact Hlt|]. destruct Hsame as (Hi & _). congruence.
    + rewrite (Hn eq_refl) in Hb'. simpl in Hb'.
      unfold getBooking in Hb. congruence.
  - specialize (Ho k' Hne). unfold getBooking in Ho.
    rewrite Ho in Hb'. apply (Hf k' b' Hb').
Qed.

Lemma booking_updates_keep_terms_witness :
  let out := applyUpdate Samples.oneSplitBooking 1
               (UInstallment "deposit" "paid" None) in
  (∃ b', out.2 = Some b' ∧ totalAmount b' = 10000
         ∧ depositAmount b' = Some 5000)
  ∧ applyUpdate Samples.oneSplitBooking 7 (UStatus "confirmed")
    = (Samples.oneSplitBooking, None).
Proof.
  intros out.
  destruct (booking_updates_keep_terms Samples.oneSplitBooking 1
              (UInstallment "deposit" "paid" None) eq_refl) as (_ & Hs & _).
  destruct (Hs (createBooking emptyDb Samples.splitBooking).2)
    as (b' & Hout & _ & Hsame); [vm_compute; reflexivity|].
  destruct (booking_updates_keep_terms Samples.oneSplitBooking 7
              (UStatus "confirmed") eq_refl) as (Hn & _).
  split.
  - exists b'. split; [exact Hout|].
    destruct Hsame as (_ & _ & _ & _ & _ & _ & _ & _ & _ & Ht & _ & Hd & _).
    rewrite Ht, Hd. split; reflexivity.
  - apply Hn. vm_compute. reflexivity.
Defined.

End BookingStoreFacts.

(** ** More on the ledger *)

Section LedgerMore.
Import Schema Storage Ledger StorageLaws Routes.

Lemma apply_nonneg d op :
  grantsNonneg op →
  (∀ u, 0 ≤ balanceOf d u) → ∀ u, 0 ≤ balanceOf (apply d op) u.
Proof.
  intros Hop Hd u. destruct op as [v b|v a act desc|v a act desc]; simpl in *.
  - unfold initCredits.
    destruct (getCredits d v) as [c|] eqn:Hg; simpl; [apply Hd|].
    rewrite balanceOf_insertCreditLog, balanceOf_insert.
    destruct (decide (v = u)); [lia | apply Hd].
  - unfold deductCredits.
    destruct (getCredits d v) as [c|] eqn:Hg; simpl; [|apply Hd].
    destruct (Z.ltb_spec (c_balance c) a); simpl; [apply Hd|].
    unfold updateCredits.
    destruct (getCredits_Some _ _ _ Hg) as [Hc _]. rewrite Hc. simpl.
    rewrite balanceOf_insertCreditLog, balanceOf_insert.
    destruct (decide (v = u)); [lia | apply Hd].
  - unfold addCredits.
    destruct (getCredits d v) as [c|] eqn:Hg.
    + unfold updateCredits.
      destruct (getCredits_Some _ _ _ Hg) as [Hc _]. rewrite Hc. simpl.
      rewrite balanceOf_insertCreditLog, balanceOf_insert.
      destruct (decide (v = u)) as [->|]; [|apply Hd].
      specialize (Hd u). unfold balanceOf in Hd. rewrite Hg in Hd. lia.
    + unfold initCredits. rewrite Hg. simpl.
      rewrite balanceOf_insertCreditLog, balanceOf_insert.
      destruct (decide (v = u)); [lia | apply Hd].
Qed.

(** X10. Run one call after the other from empty tables, with no
    negative opening balance and no negative amount credited, the ledger
    methods never leave any user with a negative balance, whatever the
    amounts debited. *)
Theorem sequential_balance_never_negative (ops : list Op) :
  Forall grantsNonneg ops →
  ∀ u, 0 ≤ balanceOf (applyAll ops emptyDb) u.
Proof.
  intros Hops.
  assert (Hgen : ∀ d, (∀ u, 0 ≤ balanceOf d u) →
                      ∀ u, 0 ≤ balanceOf (applyAll ops d) u).
  { induction Hops as [|op ops Hop Hops IH]; intros d Hd u; simpl;
      [apply Hd|].
    apply IH. apply apply_nonneg; assumption. }
  apply Hgen. intros u. reflexivity.
Qed.

Lemma sequential_balance_never_negative_witness :
  0 ≤ balanceOf
        (applyAll [ Init "u1" 3; Deduct "u1" 2 "apply" "a";
                    Deduct "u1" 2 "apply" "b"; Add "u1" 5 "purchase" "c";
                    Deduct "u1" (-4) "odd" "d" ] emptyDb) "u1".
Proof.
  apply sequential_balance_never_negative.
  repeat constructor; simpl; lia.
Defined.

(** X11. [ensureCredits] gives a user without a balance row the initial
    3 credits, logged once as "init", and returns an existing row as it
    is without writing.  Asking again changes nothing, and neither does
    a later [initCredits] with any other balance: an opening balance is
    never reset. *)
Theorem ensureCredits_grants_once (d : Db) (u : string) :
  let out := ensureCredits d u in
  (getCredits d u = None →
     c_balance out.2 = 3
     ∧ getCredits out.1 u = Some out.2
     ∧ creditLogs out.1
       = (creditLogs d ++ [entry u "init" 3 "Initial credit allocation"])%list)
  ∧ (∀ c, getCredits d u = Some c → out = (d, c))
  ∧ ensureCredits out.1 u = out
  ∧ (∀ balance, initCredits out.1 u balance = out)
  ∧ (∀ v, v ≠ u → getCredits out.1 v = getCredits d v).
Proof.
  intros out. unfold out, ensureCredits, initCredits.
  destruct (getCredits d u) as [c|] eqn:Hg; simpl.
  - rewrite Hg. repeat split; auto; try discriminate.
    intros c' [= <-]. reflexivity.
  - assert (Hnew : getCredits
                     (insertCreditLog
                        (withCredits d (<[u:=Credits.INITIAL_CREDITS]> (credits d)))
                        u "init" Credits.INITIAL_CREDITS
                        "Initial credit allocation") u
                   = Some {| c_userId := u;
                             c_balance := Credits.INITIAL_CREDITS |}).
    { unfold getCredits; simpl. rewrite lookup_insert_eq. reflexivity. }
    rewrite Hnew. repeat split; auto; try discriminate.
    intros v Hv. unfold getCredits; simpl.
    rewrite lookup_insert_ne by congruence. reflexivity.
Qed.

Lemma ensureCredits_grants_once_witness :
  c_balance (ensureCredits emptyDb "u1").2 = 3
  ∧ initCredits (ensureCredits emptyDb "u1").1 "u1" 50
    = ensureCredits emptyDb "u1".
Proof.
  destruct (ensureCredits_grants_once emptyDb "u1") as (Hnew & _ & _ & Hi & _).
  split; [apply Hnew; reflexivity | apply Hi].
Defined.

Lemma getCreditLogs_insert d v act amt desc u :
  getCreditLogs (insertCreditLog d v act amt desc) u
  = if decide (v = u) then entry v act amt desc :: getCreditLogs d u
    else getCreditLogs d u.
Proof.
  unfold getCreditLogs, insertCreditLog; simpl.
  rewrite filter_app, rev_app_distr, filter_cons, filter_nil. simpl.
  destruct (decide (v = u)); reflexivity.
Qed.

(** X12. [getCreditLogs] lists a user's own entries and no one else's,
    the latest first: after a successful [deductCredits] the user's list
    is the new entry, carrying the negated amount, followed by the list
    as it was, and every other user's list is unchanged. *)
Theorem credit_log_lists_latest_first
    (d : Db) (u : string) (a : Z) (act desc : string) :
  Forall (λ l, l_userId l = u) (getCreditLogs d u)
  ∧ (is_Some (deductCredits d u a act desc).2 →
     getCreditLogs (deductCredits d u a act desc).1 u
     = entry u act (- a) desc :: getCreditLogs d u
     ∧ ∀ v, v ≠ u →
         getCreditLogs (deductCredits d u a act desc).1 v
         = getCreditLogs d v).
Proof.
  split.
  - unfold getCreditLogs. apply Forall_forall. intros l Hl.
    apply list_elem_of_In, in_rev, list_elem_of_In in Hl.
    apply list_elem_of_filter in Hl as [Hl _]. exact Hl.
  - unfold deductCredits.
    destruct (getCredits d u) as [c|] eqn:Hg; simpl; [|intros [? [=]]].
    destruct (c_balance c <? a)%Z; simpl; [intros [? [=]]|].
    unfold updateCredits.
    destruct (getCredits_Some _ _ _ Hg) as [Hc _]. rewrite Hc. simpl.
    intros _. split.
    + rewrite getCreditLogs_insert. rewrite decide_True by reflexivity.
      reflexivity.
    + intros v Hv. rewrite getCreditLogs_insert.
      rewrite decide_False by congruence. reflexivity.
Qed.

Lemma credit_log_lists_latest_first_witness :
  let d := (initCredits emptyDb "u1" 3).1 in
  getCreditLogs (deductCredits d "u1" 1 "apply" "Applied").1 "u1"
  = [ entry "u1" "apply" (-1) "Applied";
      entry "u1" "init" 3 "Initial credit allocation" ].
Proof.
  intros d.
  destruct (credit_log_lists_latest_first d "u1" 1 "apply" "Applied")
    as [_ H].
  destruct H as [H _]; [vm_compute; eauto|].
  rewrite H. reflexivity.
Defined.

End LedgerMore.

(** ** Listings and bookings are paid for *)

Section ChargeFacts.
Import Schema Storage Ledger StorageLaws Routes Credits Subscriptions.
Import Prototype Columns.

Ltac gates :=
  repeat (first
    [ match goal with
      | |- context [ensureCredits ?d ?u] =>
          destruct (ensureCredits d u) as [? ?] eqn:?
      end
    | match goal with
      | |- context [if ?c then _ else _] => destruct c eqn:?
      end ];
    cbv beta iota zeta; try discriminate).

Lemma unlimited_plans plan :
  (hasUnlimitedPosts plan = true ↔ plan = "elite")
  ∧ (hasUnlimitedPosts plan = true →
     ∀ balance cost, canAfford balance cost plan = true)
  ∧ (hasUnlimitedPosts plan = false →
     ∀ balance cost, canAfford balance cost plan = true ↔ cost ≤ balance).
Proof.
  pose proof (hasUnlimitedPosts_elite plan) as He.
  split; [exact He|]. split.
  - intros H balance cost. apply He in H. subst plan. reflexivity.
  - intros Hn balance cost. unfold canAfford.
    destruct (String.eqb_spec plan "elite") as [->|Hne].
    + exfalso. assert (hasUnlimitedPosts "elite" = true) by reflexivity.
      congruence.
    + apply Z.leb_le.
Qed.

Lemma cost_range (isEvent isNsfwEvent : bool) (tier boost : string) :
  1 ≤ (if isEvent then getEventCreditCost isNsfwEvent
       else getPostCreditCost tier) + getBoostCreditCost boost ≤ 13.
Proof.
  pose proof (getPostCreditCost_range tier).
  pose proof (getBoostCreditCost_range boost).
  unfold getEventCreditCost, CREDIT_COSTS.eventNsfw, CREDIT_COSTS.event.
  destruct isEvent; [destruct isNsfwEvent|]; lia.
Qed.

Lemma balanceOf_withPosts d x u : balanceOf (withPosts d x) u = balanceOf d u.
Proof. reflexivity. Qed.

Lemma balanceOf_withBookings d x n u :
  balanceOf (withBookings d x n) u = balanceOf d u.
Proof. reflexivity. Qed.

Lemma ensureCredits_frame d uid :
  posts (ensureCredits d uid).1 = posts d
  ∧ bookings (ensureCredits d uid).1 = bookings d
  ∧ nextBookingId (ensureCredits d uid).1 = nextBookingId d.
Proof.
  unfold ensureCredits, initCredits.
  destruct (getCredits d uid); simpl; auto.
Qed.

Lemma ensureCredits_row d uid :
  getCredits (ensureCredits d uid).1 uid = Some (ensureCredits d uid).2.
Proof.
  unfold ensureCredits, initCredits.
  destruct (getCredits d uid) as [c|] eqn:Hg; simpl; [exact Hg|].
  unfold getCredits; simpl. rewrite lookup_insert_eq. reflexivity.
Qed.

(** What a charge does once [ensureCredits] has answered and the cost is
    covered. *)
Lemma charge_covered d uid d1 credit cost act desc :
  ensureCredits d uid = (d1, credit) →
  cost ≤ c_balance credit →
  let d2 := (deductCredits d1 uid cost act desc).1 in
  balanceOf d1 uid = c_balance credit
  ∧ balanceOf d2 uid = c_balance credit - cost
  ∧ posts d2 = posts d ∧ bookings d2 = bookings d
  ∧ nextBookingId d2 = nextBookingId d
  ∧ creditLogs d2 = (creditLogs d1 ++ [entry uid act (- cost) desc])%list.
Proof.
  intros He Hle d2.
  pose proof (ensureCredits_row d uid) as Hg1.
  pose proof (ensureCredits_frame d uid) as Hsame.
  rewrite He in Hg1, Hsame. simpl in Hg1, Hsame.
  destruct (deductCredits_cases d1 uid cost act desc) as (Hiff & _ & Hok).
  fold d2 in Hok.
  destruct ((deductCredits d1 uid cost act desc).2) as [upd|] eqn:Hr.
  - destruct (Hok upd eq_refl) as (Hb & Hg2 & Ho & Hl).
    unfold balanceOf in *. rewrite Hg1 in *. rewrite Hg2.
    split; [reflexivity|]. split; [exact Hb|].
    assert (Hd2 : posts d2 = posts d1 ∧ bookings d2 = bookings d1
                  ∧ nextBookingId d2 = nextBookingId d1).
    { unfold d2, deductCredits. rewrite Hg1.
      destruct (c_balance credit <? cost)%Z; simpl; [auto|].
      unfold updateCredits. destruct (credits d1 !! uid); simpl; auto. }
    destruct Hsame as (? & ? & ?). destruct Hd2 as (? & ? & ?).
    repeat split; congruence.
  - exfalso. destruct Hiff as [Hiff _]. specialize (Hiff eq_refl).
    rewrite Hg1 in Hiff. lia.
Qed.



Lemma fee_cents_range (basePay : Z) (tier boost : string) :
  let t := Pricing.calculateTotal (inject_Z basePay) tier boost in
  0 ≤ Js.round (Pricing.tierFee t * 100)%Q ≤ 250
  ∧ 0 ≤ Js.round (Pricing.boostFee t * 100)%Q ≤ 1500.
Proof.
  unfold Pricing.calculateTotal, TIER_FEES, BOOST_FEES. cbn [Js.get].
  repeat match goal with
  | |- context [if String.eqb ?a ?b then _ else _] => destruct (String.eqb a b)
  end.
  all: repeat match goal with
       | |- context [Js.or_num ?x 0%Q] =>
           let v := eval vm_compute in (Js.or_num x 0%Q) in
           change (Js.or_num x 0%Q) with v
       end.
  all: cbn [Pricing.tierFee Pricing.boostFee].
  all: vm_compute; repeat split; discriminate.
Qed.

(** The row [POST /api/bookings] hands to the insert is within the
    columns when the base pay is. *)
Lemma bookingsCreate_fits (w : World) (usr : User) (input : BookingInput) b :
  Z.abs (bi_basePay input) ≤ 20000000 →
  int4_or_null (bi_postId input) →
  body (bookingsCreate w (Some usr) input).2 = BookingJson (Some b) →
  fits b.
Proof.
  intros Hpay Hpost. unfold bookingsCreate, createBooking.
  cbv beta zeta.
  pose proof (cents_add_up (bi_basePay input) (bi_tier input)
                (Js.or_str (bi_boost input) "None")) as Hcents.
  pose proof (fee_cents_range (bi_basePay input) (bi_tier input)
                (Js.or_str (bi_boost input) "None")) as [Ht Hb].
  cbv zeta in Hcents, Ht, Hb.
  set (pricing := Pricing.calculateTotal _ _ _) in *.
  set (T := Js.round (Pricing.totalAmount pricing * 100)%Q) in *.
  assert (HT : -2000000000 ≤ T ≤ 2000001750) by lia.
  assert (Hfits : ∀ d,
    fits (createBooking d
      {| ib_postId :=
           if Js.truthy_int (bi_postId input) then bi_postId input else None;
         ib_workerSlug :=
           if Js.truthy_str (bi_workerSlug input)
           then bi_workerSlug input else None;
         ib_buyerUid := sub usr;
         ib_tier := bi_tier input;
         ib_basePay := bi_basePay input;
         ib_platformFee := Js.round (Pricing.tierFee pricing * 100)%Q;
         ib_boost := Js.or_str (bi_boost input) "None";
         ib_boostFee := Js.round (Pricing.boostFee pricing * 100)%Q;
         ib_totalAmount := T;
         ib_status := "pending_payment";
         ib_paymentStructure :=
           Js.or_str (bi_paymentStructure input) "full_upfront";
         ib_depositAmount :=
           if String.eqb (Js.or_str (bi_paymentStructure input)
                            "full_upfront") "split_50_50"
           then Some (splitDeposit T) else None;
         ib_finalAmount :=
           if String.eqb (Js.or_str (bi_paymentStructure input)
                            "full_upfront") "split_50_50"
           then Some (splitFinal T) else None;
         ib_depositStatus :=
           if String.eqb (Js.or_str (bi_paymentStructure input)
                            "full_upfront") "split_50_50"
           then Some "pending" else None;
         ib_finalStatus :=
           if String.eqb (Js.or_str (bi_paymentStructure input)
                            "full_upfront") "split_50_50"
           then Some "pending" else None |}).2).
  { intros d. unfold fits, createBooking.
    cbn [snd postId basePay platformFee boostFee totalAmount depositAmount
         finalAmount ib_postId ib_basePay ib_platformFee ib_boostFee
         ib_totalAmount ib_depositAmount ib_finalAmount].
    unfold int4_or_null, int4 in *.
    rewrite splitFinal_rest, splitDeposit_half.
    split; [destruct (Js.truthy_int (bi_postId input)); [exact Hpost|exact I]|].
    split; [lia|]. split; [lia|]. split; [lia|]. split; [lia|].
    destruct (String.eqb _ "split_50_50");
      [|split; exact I].
    split; Z.to_euclidean_division_equations; lia. }
  destruct (negb (canAfford 0 getApplyCreditCost
                    (getUserPlan (db w) (sub usr)))).
  - destruct (ensureCredits (db w) (sub usr)) as [d1 credit].
    destruct (negb (canAfford (c_balance credit) getApplyCreditCost
                      (getUserPlan (db w) (sub usr))));
      cbv beta iota; cbn [snd body res]; [discriminate|].
    intros [= <-]. apply Hfits.
  - cbv beta iota. cbn [snd body res]. intros [= <-]. apply Hfits.
Qed.



End ChargeFacts.

(** ** Escrow from reservation to capture *)

Section EscrowPathFacts.
Import Schema Storage StorageLaws Routes Samples HandlerLaws.

Variables (now : Z) (stripe : Stripe).

(** The three updates a confirmed reservation makes, and the two a
    release or a cancel makes, land on the booking one after the other
    and touch nothing else. *)
Lemma updateBookings_thrice d bid b s1 s2 s3 :
  getBooking d bid = Some b →
  let d3 := (updateBookings
               (updateBookings (updateBookings d bid s1).1 bid s2).1
               bid s3).1 in
  getBooking d3 bid = Some (applySet (applySet (applySet b s1) s2) s3)
  ∧ (∀ k, k ≠ bid → getBooking d3 k = getBooking d k)
  ∧ credits d3 = credits d ∧ creditLogs d3 = creditLogs d
  ∧ posts d3 = posts d ∧ nextBookingId d3 = nextBookingId d.
Proof.
  intros Hb d3. unfold d3.
  destruct (updateBookings_frame d bid s1)
    as (_ & H1 & O1 & N1 & P1 & _ & C1 & L1 & _).
  destruct (H1 b Hb) as [_ G1].
  destruct (updateBookings_frame (updateBookings d bid s1).1 bid s2)
    as (_ & H2 & O2 & N2 & P2 & _ & C2 & L2 & _).
  destruct (H2 _ G1) as [_ G2].
  destruct (updateBookings_frame
              (updateBookings (updateBookings d bid s1).1 bid s2).1 bid s3)
    as (_ & H3 & O3 & N3 & P3 & _ & C3 & L3 & _).
  destruct (H3 _ G2) as [_ G3].
  split; [exact G3|].
  split; [intros k Hk; rewrite O3, O2, O1 by exact Hk; reflexivity|].
  repeat split; congruence.
Qed.

Lemma updateBookings_twice d bid b s1 s2 :
  getBooking d bid = Some b →
  let d2 := (updateBookings (updateBookings d bid s1).1 bid s2).1 in
  getBooking d2 bid = Some (applySet (applySet b s1) s2)
  ∧ (∀ k, k ≠ bid → getBooking d2 k = getBooking d k)
  ∧ credits d2 = credits d ∧ creditLogs d2 = creditLogs d
  ∧ posts d2 = posts d ∧ nextBookingId d2 = nextBookingId d.
Proof.
  intros Hb d2. unfold d2.
  destruct (updateBookings_frame d bid s1)
    as (_ & H1 & O1 & N1 & P1 & _ & C1 & L1 & _).
  destruct (H1 b Hb) as [_ G1].
  destruct (updateBookings_frame (updateBookings d bid s1).1 bid s2)
    as (_ & H2 & O2 & N2 & P2 & _ & C2 & L2 & _).
  destruct (H2 _ G1) as [_ G2].
  split; [exact G2|].
  split; [intros k Hk; rewrite O2, O1 by exact Hk; reflexivity|].
  repeat split; congruence.
Qed.

Lemma truthy_str_Some s : s ≠ "" → Js.truthy_str (Some s) = true.
Proof. intros H. simpl. apply negb_true_iff, String.eqb_neq, H. Qed.

Lemma escrowReserve_ok w usr bid b session :
  bid ≠ 0 → getBooking (db w) bid = Some b →
  sub usr = buyerUid b →
  status b = Some "pending_payment" →
  escrowStatus b ≠ Some "authorized" →
  sessionsCreate stripe (totalAmount b) bid = Some session →
  ∃ b1, escrowReserve stripe w (Some usr) (Some bid)
        = ({| db := withBookings (db w) (<[bid := b1]> (bookings (db w)))
                      (nextBookingId (db w));
              stripeCalls := (stripeCalls w
                              ++ [SessionsCreate (totalAmount b) bid])%list |},
           res 200 (UrlJson (cs_url session)))
      ∧ b1 = applySet b
               {| s_status := None; s_paymentMethod := Some "escrow";
                  s_stripeSessionId := Some (cs_id session);
                  s_stripePaymentIntentId := None;
                  s_depositStatus := None; s_finalStatus := None;
                  s_depositStripeSessionId := None;
                  s_finalStripeSessionId := None;
                  s_escrowStatus := None; s_escrowAuthorizedAt := None;
                  s_escrowCapturedAt := None |}.
Proof.
  intros Hbid Hb Hown Hst Hes Hsc. unfold escrowReserve.
  rewrite (truthy_bookingId bid Hbid). simpl negb. cbv iota. simpl default.
  rewrite Hb, Hown, String.eqb_refl, Hst. simpl negb. cbv iota.
  change (eqStr (Some "pending_payment") "pending_payment") with true.
  simpl negb. cbv iota.
  apply eqStr_false in Hes. rewrite Hes, Hsc.
  unfold updateBookingStripeInfo. cbn [db called].
  rewrite (updateBookings_found _ _ _ _ Hb).
  eexists. split; reflexivity.
Qed.

Lemma escrowConfirmReservation_ok w usr bid b csid pi :
  bid ≠ 0 → getBooking (db w) bid = Some b →
  sub usr = buyerUid b →
  escrowStatus b ≠ Some "authorized" →
  stripeSessionId b = Some csid → csid ≠ "" →
  (∃ session, sessionsRetrieve stripe csid = Some session
     ∧ cs_payment_status session = "paid"
     ∧ cs_payment_intent session = Some pi) →
  pi ≠ "" →
  paymentIntentsRetrieve stripe pi = Some "requires_capture" →
  ∃ d3 b3,
    escrowConfirmReservation now stripe w (Some usr) (Some bid) None
    = ({| db := d3;
          stripeCalls := (stripeCalls w
                          ++ [SessionsRetrieve csid;
                              PaymentIntentsRetrieve pi])%list |},
       res 200 (Success true (Some "authorized") "Payment reserved in escrow"))
    ∧ getBooking d3 bid = Some b3
    ∧ status b3 = Some "payment_submitted"
    ∧ escrowStatus b3 = Some "authorized"
    ∧ escrowAuthorizedAt b3 = Some now
    ∧ escrowCapturedAt b3 = escrowCapturedAt b
    ∧ stripePaymentIntentId b3 = Some pi
    ∧ paymentMethod b3 = paymentMethod b
    ∧ sameTerms b3 b
    ∧ (∀ k, k ≠ bid → getBooking d3 k = getBooking (db w) k)
    ∧ credits d3 = credits (db w).
Proof.
  intros Hbid Hb Hown Hes Hsid Hcs (session & Hret & Hpaid & Hpi) Hpine Hreq.
  unfold escrowConfirmReservation.
  rewrite (truthy_bookingId bid Hbid). simpl negb. cbv iota. simpl default.
  rewrite Hb, Hown, String.eqb_refl. simpl negb. cbv iota.
  apply eqStr_false in Hes. rewrite Hes.
  change (Js.truthy_str None) with false. cbv iota.
  rewrite Hsid, (truthy_str_Some csid Hcs). simpl negb. cbv iota.
  simpl default. rewrite Hret, Hpaid, Hpi, (truthy_str_Some pi Hpine).
  change (negb (String.eqb "paid" "paid") || negb true) with false.
  cbv iota. simpl default. rewrite Hreq.
  change (String.eqb "requires_capture" "requires_capture") with true.
  cbv iota.
  unfold updateBookingStripeInfo, updateBookingEscrow, updateBookingStatus.
  cbn [db called].
  match goal with
  | |- context [updateBookings (db w) bid ?s1] =>
      match goal with
      | |- context [updateBookings _ bid ?s2] =>
          lazymatch s2 with
          | context [Some "authorized"] =>
              destruct (updateBookings_thrice (db w) bid b s1 s2
                          (setStatus noSet (Some "payment_submitted")) Hb)
                as (G & O & C & _)
          end
      end
  end.
  destruct (updateBookings (db w) bid _) as [d1 r1] eqn:E1.
  cbn [fst] in G, O, C.
  destruct (updateBookings d1 bid _) as [d2 r2] eqn:E2.
  cbn [fst] in G, O, C.
  destruct (updateBookings d2 bid _) as [d3 r3] eqn:E3.
  cbn [fst] in G, O, C.
  unfold withDb, called. cbn [db stripeCalls]. rewrite <- app_assoc.
  eexists d3, _. split; [reflexivity|]. split; [exact G|].
  cbn. repeat split; auto.
Qed.

Lemma escrowRelease_ok w usr bid b pi :
  bid ≠ 0 → getBooking (db w) bid = Some b →
  sub usr = buyerUid b ∨ isAdmin usr = true →
  escrowStatus b = Some "authorized" →
  stripePaymentIntentId b = Some pi → pi ≠ "" →
  paymentIntentsCapture stripe pi = true →
  ∃ d2 b2,
    escrowRelease now stripe w (Some usr) (Some bid)
    = ({| db := d2;
          stripeCalls := (stripeCalls w ++ [PaymentIntentsCapture pi])%list |},
       res 200 (Success true None "Escrow funds released to talent"))
    ∧ getBooking d2 bid = Some b2
    ∧ status b2 = Some "confirmed"
    ∧ escrowStatus b2 = Some "captured"
    ∧ escrowCapturedAt b2 = Some now
    ∧ escrowAuthorizedAt b2 = escrowAuthorizedAt b
    ∧ paymentMethod b2 = paymentMethod b
    ∧ sameTerms b2 b
    ∧ (∀ k, k ≠ bid → getBooking d2 k = getBooking (db w) k)
    ∧ credits d2 = credits (db w).
Proof.
  intros Hbid Hb Hauth Hes Hpi Hpine Hcap. unfold escrowRelease.
  rewrite (truthy_bookingId bid Hbid). simpl negb. cbv iota. simpl default.
  rewrite Hb, (owner_gate usr b Hauth), Hes, Hpi, (truthy_str_Some pi Hpine).
  change (eqStr (Some "authorized") "authorized") with true.
  simpl negb. cbv iota. simpl default. rewrite Hcap. simpl negb. cbv iota.
  unfold updateBookingEscrow, updateBookingStatus. cbn [db called].
  match goal with
  | |- context [updateBookings (db w) bid ?s1] =>
      destruct (updateBookings_twice (db w) bid b s1
                  (setStatus noSet (Some "confirmed")) Hb) as (G & O & C & _)
  end.
  destruct (updateBookings (db w) bid _) as [d1 r1] eqn:E1.
  cbn [fst] in G, O, C.
  destruct (updateBookings d1 bid _) as [d2 r2] eqn:E2.
  cbn [fst] in G, O, C.
  unfold withDb. cbn [db stripeCalls].
  eexists d2, _. split; [reflexivity|]. split; [exact G|].
  cbn. repeat split; auto.
Qed.

Lemma escrowCancel_ok w usr bid b pi :
  bid ≠ 0 → getBooking (db w) bid = Some b →
  sub usr = buyerUid b ∨ isAdmin usr = true →
  escrowStatus b = Some "authorized" →
  stripePaymentIntentId b = Some pi → pi ≠ "" →
  paymentIntentsCancel stripe pi = true →
  ∃ d2 b2,
    escrowCancel now stripe w (Some usr) (Some bid)
    = ({| db := d2;
          stripeCalls := (stripeCalls w ++ [PaymentIntentsCancel pi])%list |},
       res 200 (Success true None "Escrow cancelled and funds returned"))
    ∧ getBooking d2 bid = Some b2
    ∧ status b2 = Some "cancelled"
    ∧ escrowStatus b2 = Some "cancelled"
    ∧ escrowCapturedAt b2 = escrowCapturedAt b
    ∧ sameTerms b2 b
    ∧ (∀ k, k ≠ bid → getBooking d2 k = getBooking (db w) k)
    ∧ credits d2 = credits (db w).
Proof.
  intros Hbid Hb Hauth Hes Hpi Hpine Hcap. unfold escrowCancel.
  rewrite (truthy_bookingId bid Hbid). simpl negb. cbv iota. simpl default.
  rewrite Hb, (owner_gate usr b Hauth), Hes, Hpi, (truthy_str_Some pi Hpine).
  change (eqStr (Some "authorized") "authorized") with true.
  simpl negb. cbv iota. simpl default. rewrite Hcap. simpl negb. cbv iota.
  unfold updateBookingEscrow, updateBookingStatus. cbn [db called].
  match goal with
  | |- context [updateBookings (db w) bid ?s1] =>
      destruct (updateBookings_twice (db w) bid b s1
                  (setStatus noSet (Some "cancelled")) Hb) as (G & O & C & _)
  end.
  destruct (updateBookings (db w) bid _) as [d1 r1] eqn:E1.
  cbn [fst] in G, O, C.
  destruct (updateBookings d1 bid _) as [d2 r2] eqn:E2.
  cbn [fst] in G, O, C.
  unfold withDb. cbn [db stripeCalls].
  eexists d2, _. split; [reflexivity|]. split; [exact G|].
  cbn. repeat split; auto.
Qed.

Lemma escrow_provider_failure w usr bid b pi :
  bid ≠ 0 → getBooking (db w) bid = Some b →
  sub usr = buyerUid b ∨ isAdmin usr = true →
  escrowStatus b = Some "authorized" →
  stripePaymentIntentId b = Some pi → pi ≠ "" →
  (paymentIntentsCapture stripe pi = false →
   escrowRelease now stripe w (Some usr) (Some bid)
   = (called w (PaymentIntentsCapture pi),
      res 500 (Message "Failed to release escrow funds")))
  ∧ (paymentIntentsCancel stripe pi = false →
     escrowCancel now stripe w (Some usr) (Some bid)
     = (called w (PaymentIntentsCancel pi),
        res 500 (Message "Failed to cancel escrow"))).
Proof.
  intros Hbid Hb Hauth Hes Hpi Hpine.
  split; intros Hcap; unfold escrowRelease, escrowCancel;
    rewrite (truthy_bookingId bid Hbid); simpl negb; cbv iota; simpl default;
    rewrite Hb, (owner_gate usr b Hauth), Hes, Hpi,
      (truthy_str_Some pi Hpine);
    change (eqStr (Some "authorized") "authorized") with true;
    simpl negb; cbv iota; simpl default; rewrite Hcap; reflexivity.
Qed.

End EscrowPathFacts.

Section EscrowPathClaims.
Import Schema Storage StorageLaws Routes Samples HandlerLaws.



(** X16. Once an escrow is authorized and its payment intent recorded,
    a release by the buyer or an admin captures it, setting [captured]
    and [confirmed], and a cancel voids it, setting [cancelled] on both;
    a release or cancel sent directly after either is answered 400,
    writes nothing and does not reach the provider.  When the provider
    call fails the answer is 500 and the tables are as before, the
    booking still [authorized].  (This holds until the booking is
    authorized again: confirm-reservation refuses only a booking that is
    [authorized], so after a release it can set [authorized] once more,
    and a release then reaches the provider again.) *)
Theorem escrow_release_and_cancel_are_final
    (now : Z) (stripe : Stripe) (w : World) (usr : User) (bid : Z)
    (b : Booking) (pi : string) :
  bid ≠ 0 →
  getBooking (db w) bid = Some b →
  sub usr = buyerUid b ∨ isAdmin usr = true →
  escrowStatus b = Some "authorized" →
  stripePaymentIntentId b = Some pi → pi ≠ "" →
  let released := escrowRelease now stripe w (Some usr) (Some bid) in
  let cancelled := escrowCancel now stripe w (Some usr) (Some bid) in
  (paymentIntentsCapture stripe pi = true →
     statusOf released.1 bid = Some "confirmed"
     ∧ escrowOf released.1 bid = Some "captured"
     ∧ (escrowRelease now stripe released.1 (Some usr) (Some bid)).1
       = released.1
     ∧ code (escrowRelease now stripe released.1 (Some usr) (Some bid)).2
       = 400
     ∧ (escrowCancel now stripe released.1 (Some usr) (Some bid)).1
       = released.1
     ∧ code (escrowCancel now stripe released.1 (Some usr) (Some bid)).2
       = 400)
  ∧ (paymentIntentsCancel stripe pi = true →
     statusOf cancelled.1 bid = Some "cancelled"
     ∧ escrowOf cancelled.1 bid = Some "cancelled"
     ∧ (escrowRelease now stripe cancelled.1 (Some usr) (Some bid)).1
       = cancelled.1
     ∧ code (escrowRelease now stripe cancelled.1 (Some usr) (Some bid)).2
       = 400
     ∧ (escrowCancel now stripe cancelled.1 (Some usr) (Some bid)).1
       = cancelled.1
     ∧ code (escrowCancel now stripe cancelled.1 (Some usr) (Some bid)).2
       = 400)
  ∧ (paymentIntentsCapture stripe pi = false →
     code released.2 = 500 ∧ db released.1 = db w
     ∧ escrowOf released.1 bid = Some "authorized")
  ∧ (paymentIntentsCancel stripe pi = false →
     code cancelled.2 = 500 ∧ db cancelled.1 = db w
     ∧ escrowOf cancelled.1 bid = Some "authorized").
Proof.
  intros Hbid Hb Hauth Hes Hpi Hpine released cancelled.
  assert (Hafter : ∀ w2 b2,
            getBooking (db w2) bid = Some b2 →
            buyerUid b2 = buyerUid b →
            escrowStatus b2 ≠ Some "authorized" →
            (escrowRelease now stripe w2 (Some usr) (Some bid)).1 = w2
            ∧ code (escrowRelease now stripe w2 (Some usr) (Some bid)).2 = 400
            ∧ (escrowCancel now stripe w2 (Some usr) (Some bid)).1 = w2
            ∧ code (escrowCancel now stripe w2 (Some usr) (Some bid)).2 = 400).
  { intros w2 b2 G2 Hbu Hne.
    assert (Hauth2 : sub usr = buyerUid b2 ∨ isAdmin usr = true)
      by (destruct Hauth; [left; congruence | right; assumption]).
    destruct (escrowRelease_rejects now stripe w2 (Some usr) bid b2 G2 Hne)
      as (R1 & _ & R2).
    destruct (escrowCancel_rejects now stripe w2 (Some usr) bid b2 G2 Hne)
      as (C1 & _ & C2).
    split; [exact R1|]. split; [apply (R2 usr eq_refl Hauth2)|].
    split; [exact C1 | apply (C2 usr eq_refl Hauth2)]. }
  destruct (escrow_provider_failure now stripe w usr bid b pi Hbid Hb Hauth
              Hes Hpi Hpine) as [Frel Fcan].
  split; [|split; [|split]].
  - intros Hcap.
    destruct (escrowRelease_ok now stripe w usr bid b pi Hbid Hb Hauth Hes Hpi
                Hpine Hcap) as (d2 & b2 & E & G & S & X & _ & _ & _ & T & _).
    unfold released. rewrite E. cbn [fst].
    unfold statusOf, escrowOf. cbn [db]. rewrite G. cbn [mbind option_bind].
    split; [exact S|]. split; [exact X|].
    apply (Hafter {| db := d2; stripeCalls := _ |} b2 G);
      [destruct T as (_ & _ & _ & Hbu & _); exact Hbu|].
    rewrite X. discriminate.
  - intros Hcap.
    destruct (escrowCancel_ok now stripe w usr bid b pi Hbid Hb Hauth Hes Hpi
                Hpine Hcap) as (d2 & b2 & E & G & S & X & _ & T & _).
    unfold cancelled. rewrite E. cbn [fst].
    unfold statusOf, escrowOf. cbn [db]. rewrite G. cbn [mbind option_bind].
    split; [exact S|]. split; [exact X|].
    apply (Hafter {| db := d2; stripeCalls := _ |} b2 G);
      [destruct T as (_ & _ & _ & Hbu & _); exact Hbu|].
    rewrite X. discriminate.
  - intros Hcap. unfold released. rewrite (Frel Hcap). cbn.
    split; [reflexivity|]. split; [reflexivity|].
    unfold escrowOf. cbn. rewrite Hb. exact Hes.
  - intros Hcap. unfold cancelled. rewrite (Fcan Hcap). cbn.
    split; [reflexivity|]. split; [reflexivity|].
    unfold escrowOf. cbn. rewrite Hb. exact Hes.
Qed.

End EscrowPathClaims.

Section EscrowFinalExample.
Import Schema Storage Routes Samples Scenarios.

(** A release, then a cancel that is refused; a confirm-reservation
    sent after the release authorizes the booking again. *)
Lemma escrow_release_and_cancel_are_final_witness :
  let released :=
    escrowRelease 60 okStripe authorizedWorld (Some buyer) (Some 1) in
  let again :=
    escrowConfirmReservation 70 okStripe released.1 (Some buyer) (Some 1)
      None in
  statusOf released.1 1 = Some "confirmed"
  ∧ code (escrowCancel 60 okStripe released.1 (Some buyer) (Some 1)).2 = 400
  ∧ HandlerLaws.escrowOf again.1 1 = Some "authorized"
  ∧ code (escrowRelease 80 okStripe again.1 (Some buyer) (Some 1)).2 = 200.
Proof.
  intros released again.
  destruct (escrow_release_and_cancel_are_final 60 okStripe authorizedWorld
              buyer 1 authorizedBooking "pi_1") as (Hrel & _);
    [lia | vm_compute; reflexivity | left; reflexivity | reflexivity
    | reflexivity | discriminate |].
  destruct (Hrel eq_refl) as (Hs & _ & _ & _ & _ & Hc).
  split; [exact Hs|]. split; [exact Hc|].
  split; vm_compute; reflexivity.
Defined.

End EscrowFinalExample.

(** ** Age verification *)

Section AgeFacts.
Import Schema Storage Routes Samples Verification Traffic.

Lemma sameRecords_refl d : sameRecords d d.
Proof. split; reflexivity. Qed.

Lemma sameRecords_trans d1 d2 d3 :
  sameRecords d1 d2 → sameRecords d2 d3 → sameRecords d1 d3.
Proof. intros [A B] [C D]. split; congruence. Qed.

Lemma updateBookings_records d k s :
  sameRecords (updateBookings d k s).1 d.
Proof. unfold updateBookings. repeat case_match; split; reflexivity. Qed.

Lemma updateBookingStatus_records d k s :
  sameRecords (updateBookingStatus d k s).1 d.
Proof. apply updateBookings_records. Qed.

Lemma updateBookingStripeInfo_records d k s :
  sameRecords (updateBookingStripeInfo d k s).1 d.
Proof. apply updateBookings_records. Qed.

Lemma updateBookingEscrow_records now d k s :
  sameRecords (updateBookingEscrow now d k s).1 d.
Proof. unfold updateBookingEscrow. case_match; apply updateBookings_records. Qed.

Ltac note H :=
  let T := type of H in
  lazymatch goal with
  | _ : T |- _ => fail
  | _ => pose proof H
  end.

Ltac recordsOf H lem :=
  let R := fresh in
  pose proof lem as R; rewrite H in R; cbn [fst] in R; clear H.

Ltac records :=
  repeat match goal with
  | H : updateBookings ?a ?b ?c = (_, _) |- _ =>
      recordsOf H (updateBookings_records a b c)
  | H : updateBookingStatus ?a ?b ?c = (_, _) |- _ =>
      recordsOf H (updateBookingStatus_records a b c)
  | |- context [updateBookingStatus ?a ?b ?c] =>
      note (updateBookingStatus_records a b c)
  end.

Ltac chain :=
  unfold sameRecords in *; cbn [db withDb called fst] in *;
  intuition congruence.

Lemma updateBookingInstallment_records d k i s sid :
  sameRecords (updateBookingInstallment d k i s sid).1 d.
Proof.
  unfold updateBookingInstallment.
  repeat case_match; cbn [fst]; records; chain.
Qed.

Lemma createBooking_records d b : sameRecords (createBooking d b).1 d.
Proof. split; reflexivity. Qed.

Lemma deductCredits_records d u a act desc :
  sameRecords (deductCredits d u a act desc).1 d.
Proof.
  unfold deductCredits, updateCredits, insertCreditLog.
  repeat case_match; simplify_eq; split; reflexivity.
Qed.

Lemma ensureCredits_records d u : sameRecords (ensureCredits d u).1 d.
Proof.
  unfold ensureCredits, initCredits, insertCredits, insertCreditLog.
  repeat case_match; simplify_eq; split; reflexivity.
Qed.

Ltac ops :=
  repeat match goal with
  | H : updateBookingInstallment ?a ?b ?c ?d ?e = (_, _) |- _ =>
      recordsOf H (updateBookingInstallment_records a b c d e)
  | H : updateBookingStripeInfo ?a ?b ?c = (_, _) |- _ =>
      recordsOf H (updateBookingStripeInfo_records a b c)
  | H : updateBookingEscrow ?n ?a ?b ?c = (_, _) |- _ =>
      recordsOf H (updateBookingEscrow_records n a b c)
  | H : createBooking ?a ?b = (_, _) |- _ =>
      recordsOf H (createBooking_records a b)
  | H : ensureCredits ?a ?b = (_, _) |- _ =>
      recordsOf H (ensureCredits_records a b)
  | H : deductCredits ?a ?b ?c ?d ?e = (_, _) |- _ =>
      recordsOf H (deductCredits_records a b c d e)
  | |- context [deductCredits ?a ?b ?c ?d ?e] =>
      note (deductCredits_records a b c d e)
  | _ : context [deductCredits ?a ?b ?c ?d ?e] |- _ =>
      note (deductCredits_records a b c d e)
  | |- context [updateBookingEscrow ?n ?a ?b ?c] =>
      note (updateBookingEscrow_records n a b c)
  | |- context [updateBookingStripeInfo ?a ?b ?c] =>
      note (updateBookingStripeInfo_records a b c)
  end; records.

(** Every request other than a post creation and the two verification
    requests leaves the posts and the verification requests alone. *)
Lemma serve_records stripe w now r :
  match r with
  | PostsCreate _ _ | VerificationSubmit _ _ | VerificationReview _ _ _ =>
      False
  | _ => True
  end →
  sameRecords (db (serve stripe w now r)) (db w).
Proof.
  destruct r; intros Hr; try contradiction; clear Hr; cbn [serve].
  - unfold bookingsCreate.
    repeat case_match; simplify_eq; cbn [fst db withDb]; ops; chain.
  - unfold bookingsMarkPaid.
    repeat case_match; simplify_eq; cbn [fst db withDb]; ops; chain.
  - unfold bookingsConfirm.
    repeat case_match; simplify_eq; cbn [fst db withDb]; ops; chain.
  - unfold bookingsCancel.
    repeat case_match; simplify_eq; cbn [fst db withDb]; ops; chain.
  - unfold escrowReserve.
    repeat case_match; simplify_eq; cbn [fst db withDb called]; ops; chain.
  - unfold escrowConfirmReservation.
    repeat case_match; simplify_eq; cbn [fst db withDb called]; ops; chain.
  - unfold escrowRelease.
    repeat case_match; simplify_eq; cbn [fst db withDb called]; ops; chain.
  - unfold escrowCancel.
    repeat case_match; simplify_eq; cbn [fst db withDb called]; ops; chain.
Qed.

Lemma neverConfirmed_isAgeVerified d u :
  neverConfirmed d → isAgeVerified d u = false.
Proof.
  unfold neverConfirmed, isAgeVerified, getVerificationsByUser.
  intros Hn. apply not_true_is_false. intros He.
  apply existsb_exists in He as (v & Hin & Hv).
  apply andb_true_iff in Hv as [_ Hv].
  apply in_rev, list_elem_of_In, list_elem_of_filter in Hin as [_ Hin].
  rewrite Forall_forall in Hn. specialize (Hn v Hin).
  destruct (v_ageConfirmed v) as [[|]|]; [congruence | discriminate..].
Qed.

Lemma verification_records w u :
  (∀ p, posts (db (verificationSubmit w u p).1) = posts (db w)
        ∧ (neverConfirmed (db w)
           → neverConfirmed (db (verificationSubmit w u p).1)))
  ∧ (∀ k s, posts (db (verificationReview w u k s).1) = posts (db w)
            ∧ (neverConfirmed (db w)
               → neverConfirmed (db (verificationReview w u k s).1))).
Proof.
  split.
  - intros p. unfold verificationSubmit, createVerificationRequest.
    repeat case_match; simplify_eq; cbn; split; auto.
    unfold neverConfirmed. cbn. intros Hn.
    apply Forall_app. split; [exact Hn|].
    constructor; [discriminate | constructor].
  - intros k s. unfold verificationReview, updateVerificationStatus.
    repeat case_match; simplify_eq; cbn; split; auto.
    unfold neverConfirmed. cbn. intros Hn.
    apply Forall_insert; [exact Hn|]. cbn.
    rewrite Forall_forall in Hn. apply Hn.
    eapply list_elem_of_lookup_2; eassumption.
Qed.

Lemma postsCreate_gated now w usr input :
  isAgeVerified (db w) (sub usr) = false →
  Js.truthy_bool (ip_nsfw input) = true
  ∨ ip_category input = "Adult/NSFW"
  ∨ ip_category input = "Adult Club Event" →
  postsCreate now w (Some usr) input
  = (w, res 400 (body (postsCreate now w (Some usr) input).2)).
Proof.
  intros Hv Hg. unfold postsCreate. rewrite Hv.
  destruct (eqStr (ip_postType input) "event"
            && negb (Js.includes ALL_EVENT_CATEGORIES (ip_category input)));
    [reflexivity|].
  match goal with
  | |- context [if ?c then withNsfw input (Some true) else input] =>
      destruct c
  end.
  - cbn [ip_nsfw withNsfw Js.truthy_bool orb negb andb]. reflexivity.
  - assert (Hgate :
      Js.truthy_bool (ip_nsfw input)
      || String.eqb (ip_category input) "Adult/NSFW"
      || String.eqb (ip_category input) "Adult Club Event" = true).
    { destruct Hg as [H | [H | H]]; rewrite H; cbn;
        rewrite ?orb_true_r; reflexivity. }
    rewrite Hgate. reflexivity.
Qed.

Lemma postsCreate_records now w u input :
  (∀ x, isAgeVerified (db w) x = false) →
  verificationRequests (db (postsCreate now w u input).1)
  = verificationRequests (db w)
  ∧ ∃ added, posts (db (postsCreate now w u input).1)
             = (posts (db w) ++ added)%list
             ∧ Forall tame added.
Proof.
  intros Hv.
  assert (Hsame : ∀ d, sameRecords d (db w) →
            verificationRequests d = verificationRequests (db w)
            ∧ ∃ added, posts d = (posts (db w) ++ added)%list
                       ∧ Forall tame added).
  { intros d [Hd1 Hd2]. split; [exact Hd1|]. exists [].
    rewrite app_nil_r. auto. }
  unfold postsCreate. destruct u as [usr|];
    [|apply Hsame, sameRecords_refl].
  rewrite Hv. cbv beta zeta.
  set (input1 := if eqStr (ip_postType input) "event"
                    && String.eqb (ip_category input) "Adult Club Event"
                 then withNsfw input (Some true) else input).
  set (gated := Js.truthy_bool (ip_nsfw input1)
                || String.eqb (ip_category input1) "Adult/NSFW"
                || String.eqb (ip_category input1) "Adult Club Event").
  destruct (eqStr (ip_postType input) "event"
            && negb (Js.includes ALL_EVENT_CATEGORIES (ip_category input)));
    [apply Hsame, sameRecords_refl|].
  destruct gated eqn:Hg; cbn [negb andb];
    [apply Hsame, sameRecords_refl|].
  apply orb_false_iff in Hg as [Hg Hc2].
  apply orb_false_iff in Hg as [Hn Hc1].
  apply String.eqb_neq in Hc1, Hc2.
  unfold createPost.
  repeat case_match; simplify_eq; cbn [fst db withDb];
    try (apply Hsame; ops; chain).
  all: ops; cbn [verificationRequests posts withPosts]; split; [chain|].
  all: eexists [_]; split;
    [f_equal; chain
    | constructor; [|constructor]; repeat split; assumption].
Qed.

Lemma serve_age stripe w now r :
  neverConfirmed (db w) →
  neverConfirmed (db (serve stripe w now r))
  ∧ ∃ added, posts (db (serve stripe w now r))
             = (posts (db w) ++ added)%list
             ∧ Forall tame added.
Proof.
  intros Hn.
  assert (Hsame : ∀ d, sameRecords d (db w) →
            neverConfirmed d
            ∧ ∃ added, posts d = (posts (db w) ++ added)%list
                       ∧ Forall tame added).
  { intros d [Hd1 Hd2]. split; [unfold neverConfirmed; rewrite Hd1; exact Hn|].
    exists []. rewrite app_nil_r. auto. }
  destruct r;
    try (apply Hsame, serve_records; exact I); cbn [serve].
  - destruct (postsCreate_records now w user input) as [Hv Hp];
      [intros x; apply neverConfirmed_isAgeVerified, Hn|].
    split; [unfold neverConfirmed; rewrite Hv; exact Hn | exact Hp].
  - destruct (verification_records w user) as [Hs _].
    match goal with
    | |- context [verificationSubmit w _ ?p] => destruct (Hs p) as [Hp Hk]
    end.
    split; [apply Hk, Hn | exists []; rewrite app_nil_r; split; [exact Hp | constructor]].
  - destruct (verification_records w user) as [_ Hs].
    match goal with
    | |- context [verificationReview w _ ?k ?s] =>
        destruct (Hs k s) as [Hp Hk]
    end.
    split; [apply Hk, Hn | exists []; rewrite app_nil_r; split; [exact Hp | constructor]].
Qed.

(** X17. No request grants age verification.  The verification handlers
    insert a row with [ageConfirmed] at its default [false] and the
    review changes only the status, so from tables without an
    age-confirmed row, whatever post, booking, escrow and verification
    requests are served, in whatever order, no user ever counts as
    age-verified, every post stored is outside
    the two adult categories and not marked NSFW, and a post request
    that is marked NSFW or names an adult category is answered 400
    without a write. *)
Theorem no_request_grants_age_verification
    (stripe : Stripe) (rs : list (Z * Request)) (w : World) :
  neverConfirmed (db w) →
  let w' := serveAll stripe w rs in
  neverConfirmed (db w')
  ∧ (∀ u, isAgeVerified (db w') u = false)
  ∧ (∃ added, posts (db w') = (posts (db w) ++ added)%list
              ∧ Forall tame added)
  ∧ (∀ now usr input,
       Js.truthy_bool (ip_nsfw input) = true
       ∨ ip_category input = "Adult/NSFW"
       ∨ ip_category input = "Adult Club Event" →
       (postsCreate now w' (Some usr) input).1 = w'
       ∧ code (postsCreate now w' (Some usr) input).2 = 400).
Proof.
  intros Hn w'.
  assert (Hinv : neverConfirmed (db w')
                 ∧ ∃ added, posts (db w') = (posts (db w) ++ added)%list
                            ∧ Forall tame added).
  { unfold w'. clear w'. revert w Hn.
    induction rs as [|[now r] rest IH]; intros w Hn; cbn [serveAll].
    - split; [exact Hn | exists []; rewrite app_nil_r; auto].
    - destruct (serve_age stripe w now r Hn) as (Hn1 & a1 & Hp1 & Ht1).
      destruct (IH _ Hn1) as (Hn2 & a2 & Hp2 & Ht2).
      split; [exact Hn2|]. exists (a1 ++ a2)%list.
      rewrite Hp2, Hp1, app_assoc. split; [reflexivity|].
      apply Forall_app; split; assumption. }
  destruct Hinv as [Hn' Hp].
  split; [exact Hn'|].
  split; [intros u; apply neverConfirmed_isAgeVerified, Hn'|].
  split; [exact Hp|].
  intros now usr input Hg.
  rewrite (postsCreate_gated now w' usr input
             (neverConfirmed_isAgeVerified _ _ Hn') Hg).
  split; reflexivity.
Qed.

Lemma no_request_grants_age_verification_witness :
  let w' :=
    serveAll okStripe (world emptyDb)
      [ (10, VerificationSubmit (Some host) (Some "ids/host.png"));
        (20, VerificationReview (Some admin) 1 (Some "approved"));
        (30, PostsCreate (Some host) clubNight) ] in
  getVerificationsByUser (db w') "host"
  = [ {| v_userId := "host"; v_status := Some "approved";
         v_ageConfirmed := Some false |} ]
  ∧ isAgeVerified (db w') "host" = false
  ∧ posts (db w') = [].
Proof.
  intros w'.
  destruct (no_request_grants_age_verification okStripe
              [ (10, VerificationSubmit (Some host)
                       (Some "ids/host.png"));
                (20, VerificationReview (Some admin) 1
                       (Some "approved"));
                (30, PostsCreate (Some host) clubNight) ]
              (world emptyDb))
    as (_ & Hv & _ & _); [constructor|].
  split; [vm_compute; reflexivity|].
  split; [apply Hv | vm_compute; reflexivity].
Defined.

End AgeFacts.

(** ** Applications *)

Section ApplicationFacts.
Import Schema Storage Ledger Routes Samples Verification Traffic
  Applications ApplicationLaws.

Lemma head_filter_None {A} (P : A → Prop) `{∀ x, Decision (P x)} l :
  head (filter P l) = None → ∀ x, x ∈ l → ¬ P x.
Proof.
  intros Hh x Hx HP.
  assert (Hin : x ∈ filter P l) by (apply list_elem_of_filter; auto).
  destruct (filter P l); [inversion Hin | discriminate].
Qed.

Lemma head_filter_Some {A} (P : A → Prop) `{∀ x, Decision (P x)} l x :
  head (filter P l) = Some x → x ∈ l ∧ P x.
Proof.
  intros Hh.
  assert (Hin : x ∈ filter P l).
  { destruct (filter P l) as [|y l']; [discriminate|].
    injection Hh as ->. left. }
  apply list_elem_of_filter in Hin as [HP Hin]. auto.
Qed.

Lemma getPost_same d' d k : posts d' = posts d → getPost d' k = getPost d k.
Proof. unfold getPost. intros ->. reflexivity. Qed.

(** What [POST /api/applications] leaves behind: the store as it was
    but for the applicant's credits, or one application appended. *)
Lemma applicationsCreate_cases s usr postId :
  let out := applicationsCreate s (Some usr) postId in
  let u := sub usr in
  posts (base out.1) = posts (base s)
  ∧ ((codeOf out.2 ≠ 201
      ∧ applications out.1 = applications s
      ∧ nextApplicationId out.1 = nextApplicationId s
      ∧ (base out.1 = base s ∨ base out.1 = (ensureCredits (base s) u).1))
     ∨ (∃ post,
          codeOf out.2 = 201
          ∧ getPost (base s) postId = Some post
          ∧ ip_userId (p_data post) ≠ u
          ∧ getApplicationByPostAndApplicant s postId u = None
          ∧ Credits.canAfford (c_balance (ensureCredits (base s) u).2)
              1 (getUserPlan (base s) u) = true
          ∧ base out.1
            = (deductCredits (ensureCredits (base s) u).1 u 1 "apply"
                 ("Applied to: " +:+ ip_title (p_data post))).1
          ∧ applications out.1
            = (applications s
               ++ [ {| a_id := nextApplicationId s; a_postId := postId;
                       a_applicantId := u; a_status := Some "pending";
                       a_posterResponse := None;
                       a_respondedAt := None |} ])%list
          ∧ nextApplicationId out.1 = nextApplicationId s + 1)).
Proof.
  intros out u. unfold out, applicationsCreate. fold u.
  destruct (getPost (base s) postId) as [post|] eqn:Hp;
    [|split; [reflexivity | left; cbn; auto with lia]].
  destruct (Js.truthy_bool (ip_nsfw (p_data post))
            && negb (isAgeVerified (base s) u));
    [split; [reflexivity | left; cbn; auto with lia]|].
  destruct (getApplicationByPostAndApplicant s postId u) eqn:Hex;
    [split; [reflexivity | left; cbn; auto with lia]|].
  destruct (String.eqb_spec (ip_userId (p_data post)) u) as [Hown|Hown];
    [split; [reflexivity | left; cbn; auto with lia]|].
  cbv zeta.
  pose proof (ensureCredits_records (base s) u) as [_ He].
  destruct (ensureCredits (base s) u) as [d1 credit] eqn:Hens.
  cbn [fst snd] in *.
  change Credits.getApplyCreditCost with 1.
  destruct (Credits.canAfford (c_balance credit) 1 (getUserPlan (base s) u))
    eqn:Hcan; cbn [negb];
    [|split; [exact He | left; cbn; auto with lia]].
  pose proof (deductCredits_records d1 u 1 "apply"
                ("Applied to: " +:+ ip_title (p_data post))) as [_ Hd].
  cbn [createApplication withBase base applications nextApplicationId
       fst snd codeOf].
  split; [congruence|]. right. exists post. auto 10.
Qed.

Lemma toAnothersPost_same d' d a :
  posts d' = posts d → toAnothersPost d a → toAnothersPost d' a.
Proof.
  intros Hp (post & Hg & Ho). exists post.
  rewrite (getPost_same d' d _ Hp). auto.
Qed.

Lemma applicationsCreate_sound d s u postId :
  sound d s → sound d (applicationsCreate s u postId).1.
Proof.
  intros (Hp & Hpairs & Hids & Hlt & Hto).
  destruct u as [usr|]; [|repeat split; assumption].
  destruct (applicationsCreate_cases s usr postId) as [Hposts Hc].
  set (out := applicationsCreate s (Some usr) postId) in *.
  assert (Hto' : Forall (toAnothersPost (base out.1)) (applications s)).
  { eapply Forall_impl; [exact Hto|]. intros a.
    apply toAnothersPost_same. exact Hposts. }
  destruct Hc as [(_ & Ha & Hn & _) | (post & _ & Hg & Hown & Hnew & _ & _
                                        & Ha & Hn)].
  - unfold sound, pairs. rewrite Ha, Hn. repeat split; try assumption.
    congruence.
  - unfold sound, pairs. rewrite Ha, Hn, !map_app. cbn [map].
    split; [congruence|].
    split.
    { apply NoDup_app. split; [exact Hpairs|].
      split; [|apply NoDup_singleton].
      intros x Hx Hx'. apply list_elem_of_singleton in Hx'. subst x.
      apply list_elem_of_fmap in Hx as (a & Heq & Hin).
      injection Heq as Hq1 Hq2.
      apply (head_filter_None _ _ Hnew a Hin). split; congruence. }
    split.
    { apply NoDup_app. split; [exact Hids|].
      split; [|apply NoDup_singleton].
      intros x Hx Hx'. apply list_elem_of_singleton in Hx'. subst x.
      apply list_elem_of_fmap in Hx as (a & Heq & Hin).
      rewrite Forall_forall in Hlt. specialize (Hlt a Hin). cbn in Heq. lia. }
    split.
    { apply Forall_app. split.
      - eapply Forall_impl; [exact Hlt|]. cbn. intros; lia.
      - constructor; [cbn; lia | constructor]. }
    apply Forall_app. split; [exact Hto'|].
    constructor; [|constructor].
    exists post. cbn. split; [|exact Hown].
    rewrite (getPost_same _ _ _ Hposts). exact Hg.
Qed.

Lemma respond_keeps now st t (l : list Application) k :
  map (λ a, (a_postId a, a_applicantId a))
    (map (λ a, if bool_decide (a_id a = k) then respondTo now st t a else a) l)
  = map (λ a, (a_postId a, a_applicantId a)) l
  ∧ map a_id
      (map (λ a, if bool_decide (a_id a = k) then respondTo now st t a else a)
         l)
    = map a_id l.
Proof.
  rewrite !map_map. split; apply map_ext; intros a;
    destruct (bool_decide (a_id a = k)); reflexivity.
Qed.

Lemma applicationsRespond_sound d now s u k v t :
  sound d s → sound d (applicationsRespond now s u k v t).1.
Proof.
  intros (Hp & Hpairs & Hids & Hlt & Hto).
  unfold applicationsRespond.
  repeat case_match; simplify_eq; cbn [fst]; try (repeat split; assumption).
  unfold updateApplicationStatus in *. simplify_eq.
  destruct (respond_keeps now (verdictName v) t (applications s) k)
    as [Hk1 Hk2].
  unfold sound, pairs. cbn [base applications nextApplicationId].
  rewrite Hk1, Hk2. repeat split; try assumption.
  - apply Forall_forall. intros a' Ha.
    apply list_elem_of_In, in_map_iff in Ha as (a0 & <- & Ha0).
    apply list_elem_of_In in Ha0.
    rewrite Forall_forall in Hlt. specialize (Hlt a0 Ha0).
    destruct (bool_decide (a_id a0 = k)); exact Hlt.
  - apply Forall_forall. intros a' Ha.
    apply list_elem_of_In, in_map_iff in Ha as (a0 & <- & Ha0).
    apply list_elem_of_In in Ha0.
    rewrite Forall_forall in Hto. specialize (Hto a0 Ha0).
    destruct (bool_decide (a_id a0 = k)); exact Hto.
Qed.

(** X18. Whatever application requests are served, one after the other,
    on a store that starts without applications, nobody has two
    applications to the same post, nobody has applied to a post of their
    own, every application is to a stored post, the ids are distinct, and
    the posts are as at the start. *)
Theorem applications_once_and_never_own (d : Db) (rs : list (Z * Request)) :
  let s := serveAll (fresh d) rs in
  NoDup (pairs s)
  ∧ NoDup (map a_id (applications s))
  ∧ Forall (toAnothersPost (base s)) (applications s)
  ∧ posts (base s) = posts d.
Proof.
  intros s.
  assert (Hgen : ∀ s0, sound d s0 → sound d (serveAll s0 rs)).
  { induction rs as [|[now r] rest IH]; intros s0 H0; cbn [serveAll];
      [exact H0|].
    apply IH. destruct r; cbn [serve];
      [apply applicationsCreate_sound | apply applicationsRespond_sound];
      exact H0. }
  destruct (Hgen (fresh d)) as (Hp & Hpairs & Hids & _ & Hto).
  { repeat split; cbn; constructor. }
  auto.
Qed.

Lemma applications_once_and_never_own_witness :
  let s :=
    serveAll (fresh board)
      [ (1, Create (Some buyer) 1); (2, Create (Some buyer) 1);
        (3, Create (Some host) 1);
        (4, Respond (Some host) 1 Accepted None) ] in
  NoDup (pairs s) ∧ pairs s = [ (1, "buyer") ].
Proof.
  intros s.
  destruct (applications_once_and_never_own board
              [ (1, Create (Some buyer) 1); (2, Create (Some buyer) 1);
                (3, Create (Some host) 1);
                (4, Respond (Some host) 1 Accepted None) ]) as [H _].
  split; [exact H | vm_compute; reflexivity].
Defined.

(** X19. [POST /api/applications] answers 201 only when the applicant's
    plan is "elite" or the balance, opened with 3 credits if there was
    no row, is at least 1.  It then debits one credit whenever one is
    there, also on "elite", and leaves an elite balance of less than 1
    as it is.  Any other answer stores no application and debits
    nothing; nobody else's credits change either way. *)
Theorem application_debits_a_credit_if_there_is_one
    (s : Store) (usr : User) (postId : Z) :
  let out := applicationsCreate s (Some usr) postId in
  let u := sub usr in
  let before := opened (base s) u in
  (∀ v, v ≠ u → getCredits (base out.1) v = getCredits (base s) v)
  ∧ (codeOf out.2 = 201 →
     (getUserPlan (base s) u ≠ "elite" → 1 ≤ before)
     ∧ balanceOf (base out.1) u
       = (if 1 <=? before then before - 1 else before)
     ∧ length (applications out.1) = S (length (applications s)))
  ∧ (codeOf out.2 ≠ 201 →
     applications out.1 = applications s
     ∧ (base out.1 = base s ∨ balanceOf (base out.1) u = before)).
Proof.
  intros out u before.
  destruct (applicationsCreate_cases s usr postId) as [_ Hc].
  fold out u in Hc.
  assert (Hens : c_balance (ensureCredits (base s) u).2 = before
                 ∧ balanceOf (ensureCredits (base s) u).1 u = before
                 ∧ ∀ v, v ≠ u → getCredits (ensureCredits (base s) u).1 v
                                = getCredits (base s) v).
  { unfold before, opened, ensureCredits, initCredits, balanceOf.
    destruct (getCredits (base s) u) as [c|] eqn:Hg; cbn.
    - rewrite Hg. auto.
    - unfold getCredits; cbn. rewrite lookup_insert_eq. cbn.
      split; [reflexivity|]. split; [reflexivity|].
      intros v Hv. rewrite lookup_insert_ne by congruence. reflexivity. }
  destruct Hens as (Hbal & Hbal1 & Hothers).
  destruct Hc as [(Hcode & Ha & _ & Hb)
                 | (post & Hcode & _ & _ & _ & Hcan & Hb & Ha & _)].
  - split; [|split; [intros; contradiction|]].
    + intros v Hv. destruct Hb as [-> | ->]; [reflexivity | auto].
    + intros _. split; [exact Ha|].
      destruct Hb as [Hb | Hb]; [left; exact Hb | right].
      rewrite Hb. exact Hbal1.
  - set (d1 := (ensureCredits (base s) u).1) in *.
    destruct (deductCredits_cases d1 u 1 "apply"
                ("Applied to: " +:+ ip_title (p_data post)))
      as (Hiff & Hnone & Hsome).
    rewrite <- Hb in Hnone, Hsome.
    assert (Hrow : getCredits d1 u = Some (ensureCredits (base s) u).2)
      by apply ensureCredits_row.
    rewrite Hrow, Hbal in Hiff.
    split; [|split; [|intros; contradiction]].
    + intros v Hv.
      destruct (deductCredits d1 u 1 "apply" _).2 as [upd|] eqn:Hupd.
      * destruct (Hsome upd eq_refl) as (_ & _ & Ho & _).
        rewrite Ho by exact Hv. auto.
      * rewrite (Hnone eq_refl). auto.
    + intros _. split; [|split].
      * intros Hplan. unfold Credits.canAfford in Hcan.
        rewrite Hbal in Hcan.
        destruct (String.eqb_spec (getUserPlan (base s) u) "elite");
          [contradiction|].
        cbn in Hcan. apply Z.leb_le in Hcan. lia.
      * destruct (deductCredits d1 u 1 "apply" _).2 as [upd|] eqn:Hupd.
        -- destruct (Hsome upd eq_refl) as (Hu & Hg & _).
           assert (Hge : ¬ before < 1).
           { intros Hlt. apply Hiff in Hlt. discriminate. }
           destruct (Z.leb_spec 1 before); [|lia].
           unfold balanceOf at 1. rewrite Hg, Hu, Hbal1. reflexivity.
        -- rewrite (Hnone eq_refl).
           assert (Hlt : before < 1) by (apply Hiff; reflexivity).
           destruct (Z.leb_spec 1 before); [lia | exact Hbal1].
      * rewrite Ha, length_app. cbn. lia.
Qed.

Lemma application_debits_a_credit_if_there_is_one_witness :
  getUserPlan board "vip" = "elite"
  ∧ balanceOf board "vip" = 1
  ∧ balanceOf (base (applicationsCreate (fresh board) (Some vip) 1).1) "vip"
    = 0.
Proof.
  destruct (application_debits_a_credit_if_there_is_one (fresh board) vip 1)
    as (_ & H & _).
  destruct H as (_ & Hb & _); [vm_compute; reflexivity|].
  split; [vm_compute; reflexivity|]. split; [vm_compute; reflexivity|].
  exact Hb.
Defined.

Lemma filter_respond now st t k j (l : list Application) :
  filter (λ a, a_id a = j)
    (map (λ a, if bool_decide (a_id a = k) then respondTo now st t a else a) l)
  = map (λ a, if bool_decide (a_id a = k) then respondTo now st t a else a)
      (filter (λ a, a_id a = j) l).
Proof.
  induction l as [|a l IH]; [reflexivity|].
  cbn [map]. rewrite !filter_cons.
  assert (Hid : a_id (if bool_decide (a_id a = k)
                      then respondTo now st t a else a) = a_id a)
    by (destruct (bool_decide (a_id a = k)); reflexivity).
  rewrite Hid. destruct (decide (a_id a = j)); cbn [map]; rewrite IH;
    reflexivity.
Qed.

Lemma getApplication_updated now s k st t j :
  getApplication (updateApplicationStatus now s k st t).1 j
  = if bool_decide (j = k)
    then respondTo now st t <$> getApplication s j
    else getApplication s j.
Proof.
  unfold getApplication, updateApplicationStatus.
  cbn [fst applications]. rewrite filter_respond.
  destruct (filter (λ a, a_id a = j) (applications s)) as [|a l] eqn:Hf.
  - cbn. destruct (bool_decide (j = k)); reflexivity.
  - assert (Ha : a_id a = j).
    { assert (Hin : a ∈ filter (λ a, a_id a = j) (applications s))
        by (rewrite Hf; left).
      apply list_elem_of_filter in Hin as [Hin _]. exact Hin. }
    cbn. rewrite Ha.
    destruct (bool_decide (j = k)); reflexivity.
Qed.

(** X20. Only the owner of the post answers an application.  Asked by
    anyone else, [POST /api/applications/:id/respond] answers 403 and
    writes nothing.  Asked by the owner it sets the status to the
    verdict and the time of the answer, whatever the status was, keeps
    post and applicant, and changes no other application and no other
    table; a verdict is not final, a later answer by the owner replaces
    it. *)
Theorem only_the_poster_answers_an_application
    (now : Z) (s : Store) (usr : User) (k : Z) (v : Verdict)
    (t : option string) (a : Application) (post : Post) :
  getApplication s k = Some a →
  getPost (base s) (a_postId a) = Some post →
  let out := applicationsRespond now s (Some usr) k v t in
  (ip_userId (p_data post) ≠ sub usr → out.1 = s ∧ codeOf out.2 = 403)
  ∧ (ip_userId (p_data post) = sub usr →
     out.2 = Json 200 (Some (respondTo now (verdictName v) t a))
     ∧ getApplication out.1 k = Some (respondTo now (verdictName v) t a)
     ∧ (∀ j, j ≠ k → getApplication out.1 j = getApplication s j)
     ∧ base out.1 = base s
     ∧ ∀ now' v' t',
         getApplication
           (applicationsRespond now' out.1 (Some usr) k v' t').1 k
         ≫= a_status
         = Some (verdictName v')).
Proof.
  intros Ha Hp out.
  assert (Hok : ∀ now0 s0 a0 v0 t0,
            getApplication s0 k = Some a0 →
            getPost (base s0) (a_postId a0) = Some post →
            ip_userId (p_data post) = sub usr →
            applicationsRespond now0 s0 (Some usr) k v0 t0
            = ((updateApplicationStatus now0 s0 k (verdictName v0) t0).1,
               Json 200 (Some (respondTo now0 (verdictName v0) t0 a0)))).
  { intros now0 s0 a0 v0 t0 Ha0 Hp0 Hown. unfold applicationsRespond.
    rewrite Ha0, Hp0, Hown, String.eqb_refl. cbn [negb].
    unfold updateApplicationStatus at 1. cbn [fst].
    unfold getApplication in Ha0.
    destruct (filter (λ a, a_id a = k) (applications s0)) as [|x l];
      [discriminate|].
    injection Ha0 as ->. reflexivity. }
  split.
  - intros Hne. unfold out, applicationsRespond. rewrite Ha, Hp.
    apply String.eqb_neq in Hne. rewrite Hne. split; reflexivity.
  - intros Hown. unfold out. rewrite (Hok now s a v t Ha Hp Hown).
    cbn [fst snd].
    assert (Hk : getApplication
                   (updateApplicationStatus now s k (verdictName v) t).1 k
                 = Some (respondTo now (verdictName v) t a)).
    { rewrite getApplication_updated, bool_decide_eq_true_2 by reflexivity.
      rewrite Ha. reflexivity. }
    split; [reflexivity|]. split; [exact Hk|].
    split; [|split; [reflexivity|]].
    + intros j Hj. rewrite getApplication_updated.
      rewrite bool_decide_eq_false_2 by exact Hj. reflexivity.
    + intros now' v' t'.
      rewrite (Hok now' _ _ v' t' Hk); [|exact Hp | exact Hown].
      cbn [fst]. rewrite getApplication_updated.
      rewrite bool_decide_eq_true_2 by reflexivity.
      rewrite Hk. reflexivity.
Qed.

Lemma only_the_poster_answers_an_application_witness :
  let s := (applicationsCreate (fresh board) (Some buyer) 1).1 in
  let s1 := (applicationsRespond 5 s (Some host) 1 Accepted None).1 in
  (applicationsRespond 5 s (Some buyer) 1 Accepted None).1 = s
  ∧ getApplication s1 1 ≫= a_status = Some "accepted"
  ∧ getApplication (applicationsRespond 9 s1 (Some host) 1 Rejected None).1 1
    ≫= a_status
    = Some "rejected".
Proof.
  intros s s1.
  destruct (only_the_poster_answers_an_application 5 s buyer 1 Accepted None
              {| a_id := 1; a_postId := 1; a_applicantId := "buyer";
                 a_status := Some "pending"; a_posterResponse := None;
                 a_respondedAt := None |}
              {| p_id := 1; p_data := gig |})
    as [Hno _]; [vm_compute; reflexivity | vm_compute; reflexivity |].
  destruct (only_the_poster_answers_an_application 5 s host 1 Accepted None
              {| a_id := 1; a_postId := 1; a_applicantId := "buyer";
                 a_status := Some "pending"; a_posterResponse := None;
                 a_respondedAt := None |}
              {| p_id := 1; p_data := gig |})
    as [_ Hyes]; [vm_compute; reflexivity | vm_compute; reflexivity |].
  destruct Hyes as (_ & Hk & _ & _ & Hagain); [reflexivity|].
  split; [apply Hno; vm_compute; discriminate|].
  split; [unfold s1; rewrite Hk; reflexivity | apply Hagain].
Defined.

End ApplicationFacts.

(** ** Buying credits *)

Section PurchaseFacts.
Import Schema Storage Ledger Routes Samples Verification Applications
  Purchases.

Lemma ensureCredits_opened d u :
  balanceOf (ensureCredits d u).1 u = opened d u
  ∧ (∀ v, v ≠ u → getCredits (ensureCredits d u).1 v = getCredits d v)
  ∧ opened (ensureCredits d u).1 u = opened d u.
Proof.
  unfold opened, ensureCredits, initCredits, balanceOf.
  destruct (getCredits d u) as [c|] eqn:Hg; cbn.
  - rewrite Hg. auto.
  - unfold getCredits; cbn. rewrite lookup_insert_eq. cbn.
    split; [reflexivity|]. split; [|reflexivity].
    intros v Hv. rewrite lookup_insert_ne by congruence. reflexivity.
Qed.

Lemma addCredits_row d u c n act desc :
  getCredits d u = Some c →
  getCredits (addCredits d u n act desc).1 u
  = Some {| c_userId := u; c_balance := c_balance c + n |}
  ∧ (∀ v, v ≠ u → getCredits (addCredits d u n act desc).1 v
                  = getCredits d v)
  ∧ creditLogs (addCredits d u n act desc).1
    = (creditLogs d ++ [entry u act n desc])%list.
Proof.
  intros Hg. unfold addCredits, updateCredits. rewrite Hg.
  destruct (getCredits_Some _ _ _ Hg) as [Hc _]. rewrite Hc. cbn.
  unfold getCredits; cbn. rewrite lookup_insert_eq. cbn.
  split; [reflexivity|]. split; [|reflexivity].
  intros v Hv. rewrite lookup_insert_ne by congruence. reflexivity.
Qed.

Lemma fulfillCredits_paid retrieve d usr sid session n :
  sid ≠ "" → retrieve sid = Some session →
  ps_payment_status session = "paid" →
  ps_userId session = Some (sub usr) →
  ps_credits session = Some n → 0 < n →
  let out := fulfillCredits retrieve d (Some usr) (Some sid) in
  out.2 = Json 200 n
  ∧ balanceOf out.1 (sub usr) = opened d (sub usr) + n
  ∧ opened out.1 (sub usr) = opened d (sub usr) + n
  ∧ (∀ v, v ≠ sub usr → getCredits out.1 v = getCredits d v)
  ∧ last (creditLogs out.1)
    = Some (entry (sub usr) "purchase" n
              ("Purchased " +:+ pretty n +:+ " credits via Stripe")).
Proof.
  intros Hsid Hr Hpaid Hown Hn Hpos out. unfold out, fulfillCredits.
  assert (Ht : Js.truthy_str (Some sid) = true).
  { cbn. destruct sid; [contradiction | reflexivity]. }
  cbv zeta. rewrite Ht. cbn [negb].
  change (default "" (Some sid)) with sid. rewrite Hr, Hpaid, Hown, Hn.
  cbn [eqStr]. rewrite !String.eqb_refl. cbn [negb].
  destruct (Z.leb_spec n 0); [lia|].
  destruct (ensureCredits_opened d (sub usr)) as (Hb & Ho & _).
  pose proof (ensureCredits_row d (sub usr)) as Hrow.
  destruct (ensureCredits d (sub usr)) as [d1 c1]. cbn [fst snd] in *.
  destruct (addCredits_row d1 (sub usr) c1 n "purchase"
              ("Purchased " +:+ pretty n +:+ " credits via Stripe") Hrow)
    as (Ha & Hao & Hal).
  destruct (addCredits d1 (sub usr) n "purchase" _) as [d2 c2].
  cbn [fst snd] in *.
  assert (Hc1 : c_balance c1 = opened d (sub usr)).
  { unfold balanceOf in Hb. rewrite Hrow in Hb. exact Hb. }
  split; [reflexivity|].
  split; [unfold balanceOf; rewrite Ha; cbn; lia|].
  split; [unfold opened at 1; rewrite Ha; cbn; lia|].
  split; [intros v Hv; rewrite Hao, Ho by exact Hv; reflexivity|].
  rewrite Hal. apply last_snoc.
Qed.



End PurchaseFacts.

(** ** Follows and notifications *)

Section SocialFacts.
Import Schema Storage Routes Samples Verification Social.

Lemma isFollowing_iff s a b :
  isFollowing s a b = true ↔ (a, b) ∈ edges s.
Proof.
  unfold isFollowing, edges. rewrite bool_decide_eq_true. split.
  - intros [f Hf].
    destruct (filter _ (follows s)) as [|x l] eqn:Hl; [discriminate|].
    assert (Hin : x ∈ filter (λ f, f_followerUserId f = a
                                   ∧ f_followedUserId f = b) (follows s))
      by (rewrite Hl; left).
    apply list_elem_of_filter in Hin as [[<- <-] Hin].
    apply list_elem_of_In, in_map_iff. exists x.
    split; [reflexivity | apply list_elem_of_In, Hin].
  - intros Hin. apply list_elem_of_In, in_map_iff in Hin as (f & Heq & Hin).
    injection Heq as Ha Hb. apply list_elem_of_In in Hin.
    assert (Hf : f ∈ filter (λ f, f_followerUserId f = a
                                  ∧ f_followedUserId f = b) (follows s))
      by (apply list_elem_of_filter; auto).
    destruct (filter _ (follows s)); [inversion Hf | eauto].
Qed.

Lemma followsCreate_cases s usr target :
  let out := followsCreate s (Some usr) target in
  (codeOf out.2 = 400 ∧ out.1 = s
   ∧ (target = None ∨ target = Some "" ∨ target = Some (sub usr)
      ∨ ∃ t, target = Some t ∧ isFollowing s (sub usr) t = true))
  ∨ (∃ t, target = Some t ∧ t ≠ "" ∧ t ≠ sub usr
          ∧ isFollowing s (sub usr) t = false
          ∧ out = (withFollows s
                     (follows s ++ [ {| f_id := nextFollowId s;
                                       f_followerUserId := sub usr;
                                       f_followedUserId := t |} ])
                     (nextFollowId s + 1),
                   Json 201 {| f_id := nextFollowId s;
                               f_followerUserId := sub usr;
                               f_followedUserId := t |})).
Proof.
  intros out. unfold out, followsCreate.
  destruct target as [t|]; [|left; auto].
  destruct (decide (t = "")) as [->|Hne0]; [left; cbn; auto|].
  assert (Htr : Js.truthy_str (Some t) = true).
  { cbn. destruct t; [contradiction | reflexivity]. }
  rewrite Htr. cbn [negb].
  destruct (String.eqb_spec (sub usr) t) as [He|He];
    [left; cbn; subst; auto 6|].
  destruct (isFollowing s (sub usr) t) eqn:Hf;
    [left; cbn; eauto 8|].
  right. exists t. unfold createFollow.
  repeat split; auto; congruence.
Qed.

Lemma followsCreate_tidy s u target :
  tidy s → tidy (followsCreate s u target).1.
Proof.
  intros [Hn Hs]. destruct u as [usr|]; [|split; assumption].
  destruct (followsCreate_cases s usr target)
    as [(_ & -> & _) | (t & _ & _ & Hne & Hf & ->)]; [split; assumption|].
  unfold tidy, edges. cbn [fst follows withFollows].
  rewrite map_app. cbn [map]. split.
  - apply NoDup_app. split; [exact Hn|]. split; [|apply NoDup_singleton].
    intros x Hx Hx'. apply list_elem_of_singleton in Hx'. subst x.
    cbn [f_followerUserId f_followedUserId] in Hx.
    apply isFollowing_iff in Hx. congruence.
  - apply Forall_app. split; [exact Hs|].
    constructor; [cbn; congruence | constructor].
Qed.

Lemma followsDelete_tidy s u target :
  tidy s → tidy (followsDelete s u target).1.
Proof.
  intros [Hn Hs]. destruct u as [usr|]; [|split; assumption].
  unfold tidy, edges. cbn [followsDelete deleteFollow fst follows withFollows].
  split.
  - unfold edges in Hn. clear Hs. revert Hn.
    induction (follows s) as [|f l IH]; [intros; constructor|].
    cbn [map]. rewrite filter_cons. intros Hn.
    apply NoDup_cons in Hn as [Hf Hn].
    destruct (decide _); [|apply IH, Hn].
    cbn [map]. apply NoDup_cons. split; [|apply IH, Hn].
    intros Hin. apply Hf.
    apply list_elem_of_In, in_map_iff in Hin as (g & Heq & Hin).
    apply list_elem_of_In, list_elem_of_filter in Hin as [_ Hin].
    apply list_elem_of_In, in_map_iff. exists g.
    split; [exact Heq | apply list_elem_of_In, Hin].
  - apply Forall_forall. intros f Hf.
    apply list_elem_of_filter in Hf as [_ Hf].
    rewrite Forall_forall in Hs. apply Hs, Hf.
Qed.

Lemma notifyEach_follows post l : ∀ s,
  follows (notifyEach post s l) = follows s
  ∧ nextFollowId (notifyEach post s l) = nextFollowId s
  ∧ world (notifyEach post s l) = world s.
Proof.
  unfold notifyEach.
  induction l as [|f l IH]; intros s; [auto|].
  cbn [foldl]. destruct (IH (createNotification s
                               (notice post (f_followerUserId f))).1)
    as (H1 & H2 & H3).
  rewrite H1, H2, H3. auto.
Qed.

Lemma notifyFollowers_follows s u post :
  follows (notifyFollowers s u post) = follows s
  ∧ nextFollowId (notifyFollowers s u post) = nextFollowId s
  ∧ world (notifyFollowers s u post) = world s.
Proof. apply notifyEach_follows. Qed.

Lemma serve_tidy s now r : tidy s → tidy (serve s now r).
Proof.
  intros Ht. destruct r; cbn [serve].
  - apply followsCreate_tidy, Ht.
  - apply followsDelete_tidy, Ht.
  - unfold notificationsRead. destruct user; exact Ht.
  - unfold notificationsReadAll. destruct user; exact Ht.
  - unfold postsCreateNotifying.
    destruct (postsCreate now (world s) user input) as [w1 r].
    destruct user as [usr|]; [|exact Ht].
    destruct (body r); try exact Ht.
    cbv beta zeta. cbn [fst]. unfold tidy, edges.
    destruct (notifyFollowers_follows (withWorld s w1) (sub usr) post)
      as (H1 & _). rewrite H1. exact Ht.
Qed.

Lemma filter_all {A} (P : A → Prop) `{∀ x, Decision (P x)} (l : list A) :
  Forall P l → filter P l = l.
Proof.
  induction 1 as [|x l Hx Hl IH]; [reflexivity|].
  rewrite filter_cons, decide_True by exact Hx. rewrite IH. reflexivity.
Qed.

Lemma not_following s a b :
  isFollowing s a b = false →
  Forall (λ f, ¬ (f_followerUserId f = a ∧ f_followedUserId f = b))
    (follows s).
Proof.
  intros Hf. apply Forall_forall. intros f Hin [Ha Hb].
  assert (He : (a, b) ∈ edges s).
  { apply list_elem_of_In, in_map_iff. exists f.
    split; [congruence | apply list_elem_of_In, Hin]. }
  apply isFollowing_iff in He. congruence.
Qed.

(** X23. A signed-in user who asks to follow another user they do not
    follow yet is answered 201, follows that user from then on, and
    raises that user's follower count by one; asking again is answered
    400.  Unfollowing afterwards takes the row away again, so the
    follows are exactly as before, and no request changes who else
    follows whom. *)
Theorem follow_then_unfollow_restores
    (s : Net) (usr : User) (t : string) :
  t ≠ "" → t ≠ sub usr → isFollowing s (sub usr) t = false →
  let s1 := (followsCreate s (Some usr) (Some t)).1 in
  let s2 := (followsDelete s1 (Some usr) t).1 in
  codeOf (followsCreate s (Some usr) (Some t)).2 = 201
  ∧ isFollowing s1 (sub usr) t = true
  ∧ getFollowerCount s1 t = getFollowerCount s t + 1
  ∧ (∀ a b, (a, b) ≠ (sub usr, t) → isFollowing s1 a b = isFollowing s a b)
  ∧ (followsCreate s1 (Some usr) (Some t)).1 = s1
  ∧ codeOf (followsCreate s1 (Some usr) (Some t)).2 = 400
  ∧ follows s2 = follows s
  ∧ isFollowing s2 (sub usr) t = false.
Proof.
  intros Hne0 Hne Hf s1 s2.
  destruct (followsCreate_cases s usr (Some t))
    as [(_ & _ & [H | [H | [H | (t' & H & Hf')]]])
       | (t' & Ht & _ & _ & _ & Hout)];
    try (injection H as H); try congruence.
  injection Ht as <-.
  assert (Hs1 : s1 = withFollows s
                       (follows s ++ [ {| f_id := nextFollowId s;
                                         f_followerUserId := sub usr;
                                         f_followedUserId := t |} ])
                       (nextFollowId s + 1))
    by (unfold s1; rewrite Hout; reflexivity).
  assert (Hin1 : isFollowing s1 (sub usr) t = true).
  { apply isFollowing_iff. rewrite Hs1. unfold edges.
    cbn [follows withFollows]. rewrite map_app.
    apply elem_of_app. right. left. }
  split; [rewrite Hout; reflexivity|].
  split; [exact Hin1|].
  split.
  { rewrite Hs1. unfold getFollowerCount. cbn [follows withFollows].
    rewrite filter_app, length_app, filter_cons, filter_nil.
    rewrite decide_True by reflexivity. cbn [length]. lia. }
  split.
  { intros a b Hab.
    apply eq_true_iff_eq. rewrite !isFollowing_iff.
    rewrite Hs1. unfold edges. cbn [follows withFollows].
    rewrite map_app, elem_of_app. cbn [map].
    rewrite list_elem_of_singleton. cbn. intuition congruence. }
  destruct (followsCreate_cases s1 usr (Some t))
    as [(Hc & Hsame & _) | (t' & Ht & _ & _ & Hnot & _)];
    [|injection Ht as <-; congruence].
  split; [exact Hsame|]. split; [exact Hc|].
  assert (H2 : follows s2 = follows s).
  { unfold s2. rewrite Hs1.
    cbn [followsDelete deleteFollow fst follows withFollows].
    rewrite filter_app, filter_cons, filter_nil.
    rewrite decide_False by (cbn; tauto).
    rewrite app_nil_r. apply filter_all, not_following, Hf. }
  split; [exact H2|].
  unfold isFollowing in *. rewrite H2. exact Hf.
Qed.

Lemma follow_then_unfollow_restores_witness :
  let s := quiet (Samples.world emptyDb) in
  let s1 := (followsCreate s (Some buyer) (Some "host")).1 in
  getFollowerCount s1 "host" = 1
  ∧ follows (followsDelete s1 (Some buyer) "host").1 = [].
Proof.
  intros s s1.
  destruct (follow_then_unfollow_restores s buyer "host")
    as (_ & _ & Hc & _ & _ & _ & Hb & _);
    [discriminate | discriminate | reflexivity |].
  split; [exact Hc | exact Hb].
Defined.

(** How many rows of [l] name [v] as the follower. *)
Lemma followers_counted (l : list Follow) v u :
  NoDup (map (λ f, (f_followerUserId f, f_followedUserId f)) l) →
  length (filter (λ f, f_followerUserId f = v)
            (rev (filter (λ f, f_followedUserId f = u) l)))
  = if bool_decide
         ((v, u) ∈ map (λ f, (f_followerUserId f, f_followedUserId f)) l)
    then 1%nat else 0%nat.
Proof.
  intros Hn.
  assert (Hlen : ∀ (P : Follow → Prop) `{∀ x, Decision (P x)} k,
            length (filter P (rev k)) = length (filter P k)).
  { intros P HP k. induction k as [|x k IH]; [reflexivity|].
    cbn [rev]. rewrite filter_app, length_app, IH, !filter_cons, filter_nil.
    destruct (decide (P x)); cbn [length]; lia. }
  rewrite Hlen. clear Hlen.
  induction l as [|f l IH]; [reflexivity|].
  cbn [map] in *. apply NoDup_cons in Hn as [Hf Hn].
  specialize (IH Hn). rewrite filter_cons.
  destruct (decide (f_followedUserId f = u)) as [Hu|Hu].
  - rewrite filter_cons.
    destruct (decide (f_followerUserId f = v)) as [Hv|Hv].
    + cbn [length]. rewrite IH.
      rewrite bool_decide_eq_false_2.
      * rewrite bool_decide_eq_true_2; [reflexivity|].
        rewrite <- Hu, <- Hv. left.
      * rewrite <- Hu, <- Hv. exact Hf.
    + rewrite IH.
      match goal with
      | |- (if ?a then _ else _) = (if ?b then _ else _) =>
          replace b with a; [reflexivity|]
      end.
      apply bool_decide_ext. rewrite elem_of_cons. intuition congruence.
  - rewrite IH.
    match goal with
    | |- (if ?a then _ else _) = (if ?b then _ else _) =>
        replace b with a; [reflexivity|]
    end.
    apply bool_decide_ext. rewrite elem_of_cons. intuition congruence.
Qed.

Lemma notifyEach_unread post v l : ∀ s,
  getUnreadNotificationCount (notifyEach post s l) v
  = getUnreadNotificationCount s v
    + Z.of_nat (length (filter (λ f, f_followerUserId f = v) l)).
Proof.
  unfold notifyEach, getUnreadNotificationCount.
  induction l as [|f l IH]; intros s; [cbn; lia|].
  cbn [foldl]. rewrite IH. cbn [createNotification fst notifications
                                withNotifications].
  rewrite filter_app, length_app, !filter_cons, !filter_nil.
  cbn [n_userId n_read notice in_userId].
  destruct (decide (f_followerUserId f = v)) as [Hv|Hv].
  - rewrite decide_True by (split; [exact Hv | reflexivity]).
    cbn [length]. lia.
  - rewrite decide_False by tauto. cbn [length]. lia.
Qed.

Lemma postsCreate_created now w u input :
  (code (postsCreate now w u input).2 = 201
   ↔ ∃ post, body (postsCreate now w u input).2 = PostJson post)
  ∧ (code (postsCreate now w u input).2 = 201 → is_Some u).
Proof.
  unfold postsCreate.
  repeat case_match; simplify_eq; cbn [snd code body res];
    (split; [split; [try discriminate; eauto
                    | intros [? ?]; try discriminate; reflexivity]
            | try discriminate; eauto]).
Qed.

(** X24. When [POST /api/posts] stores a post, each user following the
    poster gets exactly one new unread notification and nobody else
    gets any; when it answers anything but 201 no notification is
    written.  The follows are untouched either way. *)
Theorem followers_are_notified_once
    (now : Z) (s : Net) (user : option User) (input : InsertPost) :
  NoDup (edges s) →
  let out := postsCreateNotifying now s user input in
  follows out.1 = follows s
  ∧ (code out.2 ≠ 201 → notifications out.1 = notifications s)
  ∧ (code out.2 = 201 →
     ∃ usr, user = Some usr
     ∧ ∀ v, getUnreadNotificationCount out.1 v
            = getUnreadNotificationCount s v
              + (if isFollowing s v (sub usr) then 1 else 0)).
Proof.
  intros Hn out. unfold out, postsCreateNotifying.
  destruct (postsCreate_created now (world s) user input) as [Hiff Hu].
  destruct (postsCreate now (world s) user input) as [w1 r].
  cbn [snd] in Hiff, Hu. cbv beta zeta.
  destruct user as [usr|].
  - destruct (body r) as [| | |post| |] eqn:Hb; cbn [fst snd];
      try (split; [reflexivity|]; split; [reflexivity|];
           intros Hc; apply Hiff in Hc as [? ?]; discriminate).
    destruct (notifyFollowers_follows (withWorld s w1) (sub usr) post)
      as (Hf & _).
    split; [exact Hf|]. split.
    + intros Hc. exfalso. apply Hc, Hiff. eauto.
    + intros _. exists usr. split; [reflexivity|]. intros v.
      unfold notifyFollowers. rewrite notifyEach_unread.
      unfold getFollowersByUser. cbn [follows withWorld].
      rewrite (followers_counted (follows s) v (sub usr) Hn).
      change (getUnreadNotificationCount (withWorld s w1) v)
        with (getUnreadNotificationCount s v).
      destruct (isFollowing s v (sub usr)) eqn:Hfol.
      * apply isFollowing_iff in Hfol.
        rewrite bool_decide_eq_true_2 by exact Hfol. reflexivity.
      * rewrite bool_decide_eq_false_2; [lia|].
        intros Hin. apply isFollowing_iff in Hin. congruence.
  - cbn [fst snd]. split; [reflexivity|]. split; [reflexivity|].
    intros Hc. destruct (Hu Hc) as [? [=]].
Qed.

Lemma followers_are_notified_once_witness :
  let s :=
    (followsCreate (quiet (Samples.world emptyDb)) (Some buyer)
       (Some "host")).1 in
  let out := postsCreateNotifying 7 s (Some host) ApplicationLaws.gig in
  getUnreadNotificationCount out.1 "buyer" = 1
  ∧ getUnreadNotificationCount out.1 "host" = 0.
Proof.
  intros s out.
  destruct (followers_are_notified_once 7 s (Some host) ApplicationLaws.gig)
    as (_ & _ & H);
    [change (NoDup [("buyer", "host")]); apply NoDup_singleton|].
  destruct H as (usr & Hu & Hv); [vm_compute; reflexivity|].
  injection Hu as <-.
  split; (etransitivity; [apply Hv | vm_compute; reflexivity]).
Defined.

Lemma filter_none {A} (P : A → Prop) `{∀ x, Decision (P x)} (l : list A) :
  Forall (λ x, ¬ P x) l → filter P l = [].
Proof.
  induction 1 as [|x l Hx Hl IH]; [reflexivity|].
  rewrite filter_cons, decide_False by exact Hx. exact IH.
Qed.

Lemma filter_same {A} (P Q : A → Prop) `{∀ x, Decision (P x)}
    `{∀ x, Decision (Q x)} (l : list A) :
  (∀ x, P x ↔ Q x) → filter P l = filter Q l.
Proof.
  intros HPQ. induction l as [|x l IH]; [reflexivity|].
  rewrite !filter_cons, IH.
  destruct (decide (P x)) as [HP|HP], (decide (Q x)) as [HQ|HQ];
    try reflexivity; exfalso; apply HPQ in HP || apply HPQ in HQ; tauto.
Qed.

Lemma unread_after_marking (P : Notification → Prop)
    `{∀ n, Decision (P n)} v (l : list Notification) :
  length (filter (λ n, n_userId n = v ∧ n_read n = Some false)
            (map (λ n, if bool_decide (P n) then markRead n else n) l))
  = length (filter (λ n, (n_userId n = v ∧ n_read n = Some false) ∧ ¬ P n)
              l).
Proof.
  induction l as [|n l IH]; [reflexivity|].
  cbn [map]. rewrite !filter_cons.
  destruct (bool_decide (P n)) eqn:HP.
  - apply bool_decide_eq_true in HP.
    rewrite decide_False by (cbn; intros [_ [=]]).
    rewrite decide_False by tauto. exact IH.
  - apply bool_decide_eq_false in HP.
    destruct (decide (n_userId n = v ∧ n_read n = Some false)).
    + rewrite decide_True by tauto. cbn [length]. rewrite IH. reflexivity.
    + rewrite decide_False by tauto. exact IH.
Qed.

(** X25. [POST /api/notifications/read-all] leaves the caller without
    unread notifications and everybody else's unread count as it was;
    no row is deleted and asking again changes nothing.
    [POST /api/notifications/:id/read] marks the row with that id read
    for whichever signed-in user asks, the owner or not, and touches no
    other row. *)
Theorem marking_notifications_read (s : Net) (usr : User) (k : Z) :
  let all := (notificationsReadAll s (Some usr)).1 in
  let one := (notificationsRead s (Some usr) k).1 in
  getUnreadNotificationCount all (sub usr) = 0
  ∧ (∀ v, v ≠ sub usr →
       getUnreadNotificationCount all v = getUnreadNotificationCount s v)
  ∧ map n_id (notifications all) = map n_id (notifications s)
  ∧ (notificationsReadAll all (Some usr)).1 = all
  ∧ Forall (λ n, n_id n = k → n_read n = Some true) (notifications one)
  ∧ filter (λ n, n_id n ≠ k) (notifications one)
    = filter (λ n, n_id n ≠ k) (notifications s)
  ∧ ∀ v, getUnreadNotificationCount one v
         = getUnreadNotificationCount s v
           - Z.of_nat (length
               (filter (λ n, (n_userId n = v ∧ n_read n = Some false)
                             ∧ n_id n = k) (notifications s))).
Proof.
  intros all one.
  split; [|split; [|split; [|split; [|split; [|split]]]]].
  - unfold all, getUnreadNotificationCount.
    cbn [notificationsReadAll markAllNotificationsRead fst notifications
         withNotifications].
    rewrite (unread_after_marking (λ n, n_userId n = sub usr)).
    rewrite filter_none; [reflexivity|].
    apply Forall_forall. intros n _. tauto.
  - intros v Hv. unfold all, getUnreadNotificationCount.
    cbn [notificationsReadAll markAllNotificationsRead fst notifications
         withNotifications].
    rewrite (unread_after_marking (λ n, n_userId n = sub usr)).
    do 2 f_equal. apply filter_same. intros n. split; [tauto|].
    intros [Hn Hr]. split; [tauto | congruence].
  - unfold all.
    cbn [notificationsReadAll markAllNotificationsRead fst notifications
         withNotifications].
    rewrite map_map. apply map_ext. intros n.
    destruct (bool_decide _); reflexivity.
  - unfold all, notificationsReadAll, markAllNotificationsRead,
      withNotifications.
    cbn [fst notifications world follows nextFollowId nextNotificationId].
    f_equal. rewrite map_map. apply map_ext. intros n.
    destruct (bool_decide (n_userId n = sub usr)) eqn:Hu; cbn;
      rewrite Hu; reflexivity.
  - unfold one.
    cbn [notificationsRead markNotificationRead fst notifications
         withNotifications].
    apply Forall_forall. intros n Hin Hk.
    apply list_elem_of_In, in_map_iff in Hin as (m & <- & _).
    destruct (bool_decide (n_id m = k)) eqn:Hm; [reflexivity|].
    apply bool_decide_eq_false in Hm. contradiction.
  - unfold one.
    cbn [notificationsRead markNotificationRead fst notifications
         withNotifications].
    induction (notifications s) as [|n l IH]; [reflexivity|].
    cbn [map]. rewrite !filter_cons.
    destruct (bool_decide (n_id n = k)) eqn:Hm.
    + apply bool_decide_eq_true in Hm.
      rewrite !decide_False by (cbn; tauto). exact IH.
    + apply bool_decide_eq_false in Hm.
      rewrite !decide_True by exact Hm. rewrite IH. reflexivity.
  - intros v. unfold one, getUnreadNotificationCount.
    cbn [notificationsRead markNotificationRead fst notifications
         withNotifications].
    rewrite (unread_after_marking (λ n, n_id n = k)).
    induction (notifications s) as [|n l IH]; [reflexivity|].
    rewrite !filter_cons.
    destruct (decide (n_userId n = v ∧ n_read n = Some false)) as [Hd|Hd].
    + destruct (decide (n_id n = k)) as [Hk|Hk].
      * rewrite decide_False by tauto. rewrite decide_True by tauto.
        cbn [length]. lia.
      * rewrite decide_True by tauto. rewrite decide_False by tauto.
        cbn [length]. lia.
    + rewrite !decide_False by tauto. exact IH.
Qed.

Lemma marking_notifications_read_witness :
  let s :=
    (followsCreate (quiet (Samples.world emptyDb)) (Some buyer)
       (Some "host")).1 in
  let s1 := (postsCreateNotifying 7 s (Some host) ApplicationLaws.gig).1 in
  getUnreadNotificationCount s1 "buyer" = 1
  ∧ getUnreadNotificationCount
      (notificationsRead s1 (Some stranger) 1).1 "buyer" = 0
  ∧ getUnreadNotificationCount
      (notificationsReadAll s1 (Some buyer)).1 "buyer" = 0.
Proof.
  intros s s1.
  destruct (marking_notifications_read s1 buyer 1) as (Hall & _).
  destruct (marking_notifications_read s1 stranger 1)
    as (_ & _ & _ & _ & _ & _ & Hone).
  split; [vm_compute; reflexivity|].
  split; [rewrite Hone; vm_compute; reflexivity | exact Hall].
Defined.

End SocialFacts.

(** ** Follow requests with any body *)

Section FollowBodyFacts.
Import Schema Storage Routes Samples Verification Social FollowBodies.

Lemma followsCreate_ofString s u o :
  Social.followsCreate s u o = followsCreate s u (ofString o).
Proof. destruct u, o; reflexivity. Qed.

Lemma createFollow_nodup s a b :
  NoDup (edges s) → isFollowing s a b = false →
  NoDup (edges (createFollow s a b).1).
Proof.
  intros Hn Hf. unfold edges, createFollow.
  cbn [fst follows withFollows]. rewrite map_app. cbn [map].
  apply NoDup_app. split; [exact Hn|]. split; [|apply NoDup_singleton].
  intros x Hx Hx'. apply list_elem_of_singleton in Hx'. subst x.
  cbn [f_followerUserId f_followedUserId] in Hx.
  apply isFollowing_iff in Hx. congruence.
Qed.

Lemma followsCreate_nodup s u v :
  NoDup (edges s) → NoDup (edges (followsCreate s u v).1).
Proof.
  intros Hn. destruct u as [usr|]; [|exact Hn].
  unfold followsCreate.
  destruct v as [followed|sent|]; [| |exact Hn].
  - destruct (negb _); [exact Hn|].
    destruct (String.eqb _ _); [exact Hn|].
    destruct (isFollowing s (sub usr) followed) eqn:Hf; [exact Hn|].
    apply (createFollow_nodup s (sub usr) followed Hn Hf).
  - destruct (isFollowing s (sub usr) sent) eqn:Hf; [exact Hn|].
    apply (createFollow_nodup s (sub usr) sent Hn Hf).
Qed.

Lemma social_serve_nodup s now r :
  NoDup (edges s) → NoDup (edges (Social.serve s now r)).
Proof.
  intros Hn. destruct r; cbn [Social.serve].
  - rewrite followsCreate_ofString. apply followsCreate_nodup, Hn.
  - destruct user as [usr|]; [|exact Hn].
    unfold edges.
    cbn [followsDelete deleteFollow fst follows withFollows].
    unfold edges in Hn. revert Hn.
    induction (follows s) as [|f l IH]; [intros; constructor|].
    cbn [map]. rewrite filter_cons. intros Hn.
    apply NoDup_cons in Hn as [Hf Hn].
    destruct (decide _); [|apply IH, Hn].
    cbn [map]. apply NoDup_cons. split; [|apply IH, Hn].
    intros Hin. apply Hf.
    apply list_elem_of_In, in_map_iff in Hin as (g & Heq & Hin).
    apply list_elem_of_In, list_elem_of_filter in Hin as [_ Hin].
    apply list_elem_of_In, in_map_iff. exists g.
    split; [exact Heq | apply list_elem_of_In, Hin].
  - unfold notificationsRead. destruct user; exact Hn.
  - unfold notificationsReadAll. destruct user; exact Hn.
  - unfold postsCreateNotifying.
    destruct (postsCreate now (world s) user input) as [w1 r].
    destruct user as [usr|]; [|exact Hn].
    destruct (body r); try exact Hn.
    cbv beta zeta. cbn [fst]. unfold edges.
    destruct (notifyFollowers_follows (withWorld s w1) (sub usr) post)
      as (H1 & _). rewrite H1. exact Hn.
Qed.

Lemma serveAll_nodup rs : ∀ s,
  NoDup (edges s) → NoDup (edges (serveAll s rs)).
Proof.
  induction rs as [|[now r] rest IH]; intros s Hn; cbn [serveAll];
    [exact Hn|].
  apply IH. destruct r as [u v|r]; cbn [serve];
    [apply followsCreate_nodup | apply social_serve_nodup]; exact Hn.
Qed.

Lemma serveAll_tidy rs : ∀ s,
  typed rs → tidy s → tidy (serveAll s rs).
Proof.
  induction rs as [|[now r] rest IH]; intros s Ht Hs; cbn [serveAll];
    [exact Hs|].
  apply Forall_cons in Ht as [Hr Ht]. apply IH; [exact Ht|].
  destruct r as [u v|r]; cbn [serve]; [|apply serve_tidy, Hs].
  destruct v as [f|sent|]; [| contradiction |].
  - change (Str f) with (ofString (Some f)).
    rewrite <- followsCreate_ofString. apply followsCreate_tidy, Hs.
  - change Falsy with (ofString None).
    rewrite <- followsCreate_ofString. apply followsCreate_tidy, Hs.
Qed.

(** X22. Whatever follow, unfollow, notification and post requests are
    served, one after the other, starting without follows, and whatever
    JSON value a follow request carries as [followedUserId], nobody
    follows the same user twice, so the follower count of a user is the
    number of distinct users following them.  When every
    [followedUserId] sent is a string, nobody follows themselves either;
    the comparison with the caller's id is strict, so it does not stop a
    value that is no string.  A caller who sends a string or nothing is
    served as by the handler read with a string body. *)
Theorem nobody_follows_twice_or_themselves
    (w : World) (rs : list (Z * Request)) :
  let s := serveAll (quiet w) rs in
  NoDup (edges s)
  ∧ (∀ u, NoDup (map f_followerUserId (getFollowersByUser s u))
          ∧ getFollowerCount s u
            = Z.of_nat (length (getFollowersByUser s u)))
  ∧ (typed rs →
     Forall (λ f, f_followerUserId f ≠ f_followedUserId f) (follows s))
  ∧ (∀ s0 u o,
       Social.followsCreate s0 u o = followsCreate s0 u (ofString o)).
Proof.
  intros s.
  assert (Hn : NoDup (edges s)) by (apply serveAll_nodup; constructor).
  split; [exact Hn|]. split; [|split].
  - intros u. split.
    + unfold getFollowersByUser. rewrite map_rev.
      apply NoDup_ListNoDup, NoDup_rev, NoDup_ListNoDup.
      unfold edges in Hn. revert Hn.
      induction (follows s) as [|f l IH]; [intros; constructor|].
      cbn [map]. rewrite filter_cons. intros Hn.
      apply NoDup_cons in Hn as [Hf Hn].
      destruct (decide _) as [Hu|]; [|apply IH, Hn].
      cbn [map]. apply NoDup_cons. split; [|apply IH, Hn].
      intros Hin. apply Hf.
      apply list_elem_of_In, in_map_iff in Hin as (g & Heq & Hin).
      apply list_elem_of_In, list_elem_of_filter in Hin as [Hg Hin].
      apply list_elem_of_In, in_map_iff. exists g.
      split; [congruence | apply list_elem_of_In, Hin].
    + unfold getFollowerCount, getFollowersByUser.
      rewrite length_rev. reflexivity.
  - intros Ht.
    destruct (serveAll_tidy rs (quiet w) Ht) as [_ Hs];
      [split; constructor | exact Hs].
  - intros s0 u o. apply followsCreate_ofString.
Qed.

(** Four follow requests with string bodies leave two followers of the
    host.  The user whose id is the numeral 123 and who sends the number
    123 is stored as following themselves. *)
Lemma nobody_follows_twice_or_themselves_witness :
  let s :=
    serveAll (quiet (Samples.world emptyDb))
      [ (1, Follows (Some buyer) (Str "host"));
        (2, Follows (Some buyer) (Str "host"));
        (3, Follows (Some host) (Str "host"));
        (4, Follows (Some stranger) (Str "host")) ] in
  let s' :=
    serveAll (quiet (Samples.world emptyDb))
      [ (1, Follows (Some {| sub := "123"; email := None |})
              (Truthy "123")) ] in
  Forall (λ f, f_followerUserId f ≠ f_followedUserId f) (follows s)
  ∧ getFollowerCount s "host" = 2
  ∧ edges s' = [ ("123", "123") ]
  ∧ NoDup (edges s').
Proof.
  intros s s'.
  destruct (nobody_follows_twice_or_themselves (Samples.world emptyDb)
              [ (1, Follows (Some buyer) (Str "host"));
                (2, Follows (Some buyer) (Str "host"));
                (3, Follows (Some host) (Str "host"));
                (4, Follows (Some stranger) (Str "host")) ])
    as (_ & _ & H & _).
  destruct (nobody_follows_twice_or_themselves (Samples.world emptyDb)
              [ (1, Follows (Some {| sub := "123"; email := None |})
                      (Truthy "123")) ]) as (Hn & _).
  split; [apply H; repeat constructor|].
  split; [vm_compute; reflexivity|].
  split; [vm_compute; reflexivity | exact Hn].
Defined.

End FollowBodyFacts.

(** ** Reviews *)

Section ReviewFacts.
Import Schema Storage Routes Samples Verification Reviews.

Lemma reviewsCreate_cases t usr p ty st c :
  let out := reviewsCreate t (Some usr) p ty st c in
  (out.1 = t ∧ codeOf out.2 = 400)
  ∨ (∃ profileId type stars,
       p = Some profileId ∧ ty = Some type ∧ st = Some stars
       ∧ profileId ≠ 0
       ∧ (type = "poster" ∨ type = "talent")
       ∧ (stars = 1 ∨ stars = -1)
       ∧ getReviewByReviewerAndTarget t (sub usr) profileId type = None
       ∧ out
         = ({| rows := rows t
                       ++ [ {| r_id := nextReviewId t;
                               r_reviewerUserId := sub usr;
                               r_targetProfileId := profileId;
                               r_targetType := type; r_rating := stars;
                               r_comment :=
                                 if Js.truthy_str c then c else None |} ];
               nextReviewId := nextReviewId t + 1 |},
            Json 201 {| r_id := nextReviewId t;
                        r_reviewerUserId := sub usr;
                        r_targetProfileId := profileId;
                        r_targetType := type; r_rating := stars;
                        r_comment :=
                          if Js.truthy_str c then c else None |})).
Proof.
  intros out. unfold out, reviewsCreate.
  destruct p as [profileId|]; [|left; auto].
  destruct ty as [type|]; [|left; auto].
  destruct st as [stars|]; [|left; auto].
  destruct (Js.truthy_int (Some profileId)) eqn:Hp; cbn [negb orb];
    [|left; auto].
  destruct (Js.truthy_str (Some type)) eqn:Hty; cbn [negb];
    [|left; auto].
  destruct (Js.includes ["poster"; "talent"] type) eqn:Hin; cbn [negb];
    [|left; auto].
  destruct (bool_decide (stars ∈ [1; -1])) eqn:Hst; cbn [negb];
    [|left; auto].
  destruct (getReviewByReviewerAndTarget t (sub usr) profileId type) eqn:Hex;
    [left; auto|].
  right. exists profileId, type, stars.
  apply includes_In in Hin. apply bool_decide_eq_true in Hst.
  repeat split; try reflexivity; try assumption.
  - intros ->. discriminate.
  - destruct Hin as [<- | [<- | []]]; auto.
  - apply elem_of_cons in Hst as [-> | Hst]; [auto|].
    apply list_elem_of_singleton in Hst. auto.
Qed.

Lemma serve_orderly t q : orderly t → orderly (serve t q).
Proof.
  intros [Hn Hw]. unfold serve. destruct (q_user q) as [usr|];
    [|split; assumption].
  destruct (reviewsCreate_cases t usr (q_targetProfileId q) (q_targetType q)
              (q_rating q) (q_comment q))
    as [[-> _] | (p & ty & st & _ & _ & _ & Hp & Hty & Hst & Hnew & ->)];
    [split; assumption|].
  unfold orderly, votes. cbn [fst rows]. rewrite map_app. cbn [map]. split.
  - apply NoDup_app. split; [exact Hn|]. split; [|apply NoDup_singleton].
    intros x Hx Hx'. apply list_elem_of_singleton in Hx'. subst x.
    apply list_elem_of_In, in_map_iff in Hx as (r & Heq & Hin).
    cbn in Heq. injection Heq as H1 H2 H3.
    unfold getReviewByReviewerAndTarget in Hnew.
    assert (Hf : r ∈ filter (λ r, r_reviewerUserId r = sub usr
                                  ∧ r_targetProfileId r = p
                                  ∧ r_targetType r = ty) (rows t)).
    { apply list_elem_of_filter. split; [auto|]. apply list_elem_of_In, Hin. }
    destruct (filter _ (rows t)); [inversion Hf | discriminate].
  - apply Forall_app. split; [exact Hw|].
    constructor; [|constructor]. repeat split; assumption.
Qed.

Lemma summary_counts (l : list Review) :
  Forall wellFormed l →
  (length (filter (λ r, r_rating r = 1%Z) l)
   + length (filter (λ r, r_rating r = (-1)%Z) l))%nat
  = length l.
Proof.
  induction 1 as [|r l Hr Hl IH]; [reflexivity|].
  rewrite !filter_cons. destruct Hr as ([Hr | Hr] & _).
  - rewrite decide_True by exact Hr. rewrite decide_False by lia.
    cbn [length]. lia.
  - rewrite decide_False by lia. rewrite decide_True by exact Hr.
    cbn [length]. lia.
Qed.



End ReviewFacts.

(** ** Documents and share links *)

Section DocumentFacts.
Import Schema Storage Routes Samples Verification Documents.

Lemma filter_share_id tok e k j (l : list UserDocument) :
  filter (λ d, ud_id d = j)
    (map (λ d, if bool_decide (ud_id d = k) then shared tok e d else d) l)
  = map (λ d, if bool_decide (ud_id d = k) then shared tok e d else d)
      (filter (λ d, ud_id d = j) l).
Proof.
  induction l as [|d l IH]; [reflexivity|].
  cbn [map]. rewrite !filter_cons.
  assert (Hid : ud_id (if bool_decide (ud_id d = k)
                       then shared tok e d else d) = ud_id d)
    by (destruct (bool_decide (ud_id d = k)); reflexivity).
  rewrite Hid. destruct (decide (ud_id d = j)); cbn [map]; rewrite IH;
    reflexivity.
Qed.

(** The rows carrying a token after [createShareLink]. *)
Lemma filter_share_token tok e k t (l : list UserDocument) :
  filter (λ d, ud_shareToken d = Some t)
    (map (λ d, if bool_decide (ud_id d = k) then shared tok e d else d) l)
  = map (λ d, if bool_decide (ud_id d = k) then shared tok e d else d)
      (filter (λ d, (ud_id d = k ∧ tok = t)
                    ∨ (ud_id d ≠ k ∧ ud_shareToken d = Some t)) l).
Proof.
  induction l as [|d l IH]; [reflexivity|].
  cbn [map]. rewrite !filter_cons.
  destruct (bool_decide (ud_id d = k)) eqn:Hk; cbn [ud_shareToken shared].
  - apply bool_decide_eq_true in Hk.
    destruct (decide (tok = t)) as [->|Hne].
    + rewrite decide_True by reflexivity.
      rewrite decide_True by tauto. cbn [map].
      rewrite bool_decide_eq_true_2 by exact Hk. rewrite IH. reflexivity.
    + rewrite decide_False by congruence.
      rewrite decide_False by tauto. exact IH.
  - apply bool_decide_eq_false in Hk.
    destruct (decide (ud_shareToken d = Some t)).
    + rewrite decide_True by tauto. cbn [map].
      rewrite bool_decide_eq_false_2 by exact Hk. rewrite IH. reflexivity.
    + rewrite decide_False by tauto. exact IH.
Qed.

Lemma filter_same_in {A} (P Q : A → Prop) `{∀ x, Decision (P x)}
    `{∀ x, Decision (Q x)} (l : list A) :
  (∀ x, x ∈ l → (P x ↔ Q x)) → filter P l = filter Q l.
Proof.
  induction l as [|x l IH]; intros HPQ; [reflexivity|].
  rewrite !filter_cons, IH by (intros y Hy; apply HPQ; right; exact Hy).
  pose proof (HPQ x ltac:(left)) as Hx.
  destruct (decide (P x)), (decide (Q x)); try reflexivity; tauto.
Qed.

Lemma getDocument_id s k doc : getDocument s k = Some doc → ud_id doc = k.
Proof.
  unfold getDocument. intros Hdoc.
  destruct (filter (λ d, ud_id d = k) (documents s)) as [|x l] eqn:Hf;
    [discriminate|]. injection Hdoc as ->.
  assert (Hin : doc ∈ filter (λ d, ud_id d = k) (documents s))
    by (rewrite Hf; left).
  apply list_elem_of_filter in Hin as [Hin _]. exact Hin.
Qed.

(** X27. The owner of a document, and nobody else, can share or delete
    it: anyone else is answered 403 and nothing changes.  A share by the
    owner with a token no document carries yet makes the document
    readable under that token without sign-in up to and including the
    moment a week later, and answers 410 from then on; a token the
    document carried before stops working at once, and after the owner
    deletes the document its token is answered 404. *)
Theorem share_link_opens_for_a_week
    (now : Z) (appUrl token : string) (s : Shelf) (usr : User) (k : Z)
    (doc : UserDocument) :
  getDocument s k = Some doc →
  unused s token →
  let out := documentsShare now appUrl token s (Some usr) k in
  (ud_userId doc ≠ sub usr →
   out.1 = s ∧ codeOf out.2 = 403
   ∧ (documentsDelete s (Some usr) k).1 = s
   ∧ codeOf (documentsDelete s (Some usr) k).2 = 403)
  ∧ (ud_userId doc = sub usr →
     out.2 = Json 200 (appUrl +:+ "/api/documents/shared/" +:+ token,
                       now + WEEK, token)
     ∧ getDocument out.1 k = Some (shared token (now + WEEK) doc)
     ∧ (∀ later, later ≤ now + WEEK →
          documentsShared later out.1 token
          = Json 200 (ud_name doc, ud_docType doc, ud_description doc,
                      ud_filePath doc))
     ∧ (∀ later, now + WEEK < later →
          codeOf (documentsShared later out.1 token) = 410)
     ∧ (∀ later old, old ≠ token →
          Forall (λ d, ud_shareToken d = Some old → ud_id d = k)
            (documents s) →
          codeOf (documentsShared later out.1 old) = 404)
     ∧ (∀ later,
          codeOf (documentsShared later
                    (documentsDelete out.1 (Some usr) k).1 token) = 404)).
Proof.
  intros Hdoc Hfree out.
  pose proof (getDocument_id s k doc Hdoc) as Hk.
  split.
  - intros Hne. apply String.eqb_neq in Hne.
    unfold out, documentsShare, documentsDelete. rewrite Hdoc, Hne.
    repeat split; reflexivity.
  - intros Hown. unfold out, documentsShare.
    rewrite Hdoc, Hown, String.eqb_refl. cbn [negb fst snd createShareLink].
    set (e := now + WEEK).
    set (s1 := {| documents :=
                    map (λ d, if bool_decide (ud_id d = k)
                              then shared token e d else d) (documents s);
                  nextDocumentId := nextDocumentId s |}).
    assert (Hget : getDocument s1 k = Some (shared token e doc)).
    { unfold getDocument, s1. cbn [documents]. rewrite filter_share_id.
      unfold getDocument in Hdoc.
      destruct (filter (λ d, ud_id d = k) (documents s)) as [|x l];
        [discriminate|]. injection Hdoc as ->.
      cbn [map head]. rewrite bool_decide_eq_true_2 by exact Hk.
      reflexivity. }
    assert (Htok : getDocumentByShareToken s1 token
                   = Some (shared token e doc)).
    { unfold getDocumentByShareToken, s1. cbn [documents].
      rewrite filter_share_token.
      rewrite (filter_same_in _ (λ d, ud_id d = k)).
      - unfold getDocument in Hdoc.
        destruct (filter (λ d, ud_id d = k) (documents s)) as [|x l];
          [discriminate|]. injection Hdoc as ->.
        cbn [map head]. rewrite bool_decide_eq_true_2 by exact Hk.
        reflexivity.
      - intros d Hin. split; [|tauto].
        intros [[Hd _] | [_ Hd]]; [exact Hd|].
        exfalso. unfold unused in Hfree. rewrite Forall_forall in Hfree.
        apply (Hfree d Hin Hd). }
    split; [reflexivity|]. split; [exact Hget|].
    split; [|split; [|split]].
    + intros later Hle. unfold documentsShared. rewrite Htok.
      cbn [ud_shareExpiresAt shared].
      destruct (Z.ltb_spec e later); [lia | reflexivity].
    + intros later Hlt. unfold documentsShared. rewrite Htok.
      cbn [ud_shareExpiresAt shared].
      destruct (Z.ltb_spec e later); [reflexivity | lia].
    + intros later old Hne Honly. unfold documentsShared.
      assert (Hnone : getDocumentByShareToken s1 old = None).
      { unfold getDocumentByShareToken, s1. cbn [documents].
        rewrite filter_share_token.
        rewrite filter_none; [reflexivity|].
        apply Forall_forall. intros d Hd [[_ Ht] | [Hdk Ht]];
          [congruence|].
        rewrite Forall_forall in Honly. apply Hdk, (Honly d Hd Ht). }
      rewrite Hnone. reflexivity.
    + intros later. unfold documentsDelete. rewrite Hget.
      cbn [ud_userId shared]. rewrite Hown, String.eqb_refl. cbn [negb fst].
      unfold documentsShared.
      assert (Hnone : getDocumentByShareToken (deleteDocument s1 k) token
                      = None).
      { unfold getDocumentByShareToken, deleteDocument, s1. cbn [documents].
        rewrite filter_none; [reflexivity|].
        apply Forall_forall. intros d Hd Ht.
        apply list_elem_of_filter in Hd as [Hdk Hd].
        apply list_elem_of_In, in_map_iff in Hd as (d0 & <- & Hd0).
        apply list_elem_of_In in Hd0.
        destruct (bool_decide (ud_id d0 = k)) eqn:Hb.
        - apply bool_decide_eq_true in Hb. apply Hdk. exact Hb.
        - unfold unused in Hfree. rewrite Forall_forall in Hfree.
          apply (Hfree d0 Hd0 Ht). }
      rewrite Hnone. reflexivity.
Qed.

Lemma share_link_opens_for_a_week_witness :
  let s :=
    (documentsCreate noDocuments (Some buyer) (Some "Rider")
       (Some "other") (Some "/files/rider.pdf") None).1 in
  let s1 := (documentsShare 1000 "https://app" "tok" s (Some buyer) 1).1 in
  codeOf (documentsShared (1000 + WEEK) s1 "tok") = 200
  ∧ codeOf (documentsShared (1001 + WEEK) s1 "tok") = 410
  ∧ (documentsShare 1000 "https://app" "tok" s (Some stranger) 1).1 = s.
Proof.
  intros s s1.
  destruct (share_link_opens_for_a_week 1000 "https://app" "tok" s buyer 1
              {| ud_id := 1; ud_userId := "buyer"; ud_name := "Rider";
                 ud_docType := "other"; ud_filePath := "/files/rider.pdf";
                 ud_description := None; ud_shareToken := None;
                 ud_shareExpiresAt := None |})
    as [_ Hown]; [reflexivity | repeat constructor; discriminate |].
  destruct (share_link_opens_for_a_week 1000 "https://app" "tok" s stranger 1
              {| ud_id := 1; ud_userId := "buyer"; ud_name := "Rider";
                 ud_docType := "other"; ud_filePath := "/files/rider.pdf";
                 ud_description := None; ud_shareToken := None;
                 ud_shareExpiresAt := None |})
    as [Hno _]; [reflexivity | repeat constructor; discriminate |].
  destruct Hown as (_ & _ & Hin & Hout & _); [reflexivity|].
  destruct Hno as (Hs & _); [discriminate|].
  split; [unfold s1; rewrite Hin; [reflexivity | lia]|].
  split; [apply Hout; lia | exact Hs].
Defined.

End DocumentFacts.

(** ** The toast hook *)

Section ToastFacts.
Import Toasts.

Lemma pretty_N_go_nonempty (x : N) : ∀ s, s ≠ "" → pretty_N_go x s ≠ "".
Proof.
  induction (N.lt_wf_0 x) as [x _ IH]. intros s Hs.
  destruct (decide (x = 0%N)) as [->|Hx]; [rewrite pretty_N_go_0; exact Hs|].
  rewrite pretty_N_go_step by lia.
  apply IH; [apply N.div_lt; lia | discriminate].
Qed.

Lemma pretty_Z_nonempty (z : Z) : pretty z ≠ "".
Proof.
  assert (HN : ∀ n : N, pretty n ≠ "").
  { intros n. unfold pretty, pretty_N.
    destruct (decide (n = 0)%N) as [->|Hn]; [discriminate|].
    rewrite pretty_N_go_step by lia.
    apply pretty_N_go_nonempty. discriminate. }
  unfold pretty, pretty_Z. destruct z; [discriminate | apply HN |].
  discriminate.
Qed.

Lemma truthy_nonempty (i : string) : i ≠ "" → Js.truthy_str (Some i) = true.
Proof. destruct i; [contradiction | reflexivity]. Qed.

Lemma queue_known now h i :
  is_Some (toastTimeouts h !! i) → queueToastRemoval now h i = h.
Proof.
  intros Hs. unfold queueToastRemoval.
  rewrite bool_decide_eq_true_2 by exact Hs. reflexivity.
Qed.

Lemma queue_new now h i :
  toastTimeouts h !! i = None →
  queueToastRemoval now h i
  = {| count := count h; toasts := toasts h;
       toastTimeouts := <[i := nextHandle h]> (toastTimeouts h);
       timers := timers h ++ [ {| handle := nextHandle h;
                                  due := now + TOAST_REMOVE_DELAY;
                                  removes := i |} ];
       nextHandle := S (nextHandle h) |}.
Proof.
  intros Hn. unfold queueToastRemoval.
  rewrite bool_decide_eq_false_2; [reflexivity|].
  rewrite Hn. intros [? [=]].
Qed.

Lemma queue_coherent now h i :
  coherent h → coherent (queueToastRemoval now h i).
Proof.
  intros Hc. destruct (toastTimeouts h !! i) as [k|] eqn:Hi.
  { rewrite queue_known by eauto. exact Hc. }
  rewrite (queue_new now h i Hi).
  destruct Hc as (Hmap & Hback & Hlt & Hnd & Hlen & Hcnt).
  unfold coherent. cbn [timers toastTimeouts nextHandle toasts count].
  split; [|split; [|split; [|split; [|split]]]]; try assumption.
  - apply Forall_app. split.
    + eapply Forall_impl; [exact Hmap|]. cbv beta. intros t Ht.
      destruct (decide (i = removes t)) as [->|Hne];
        [congruence | rewrite lookup_insert_ne by exact Hne; exact Ht].
    + constructor; [|constructor]. cbn. apply lookup_insert_eq.
  - intros j k. destruct (decide (i = j)) as [->|Hne].
    + rewrite lookup_insert_eq. intros [= <-].
      eexists. split; [apply elem_of_app; right; left|]. auto.
    + rewrite lookup_insert_ne by exact Hne. intros Hj.
      destruct (Hback j k Hj) as (t & Ht & Hk & Hr).
      exists t. split; [apply elem_of_app; left; exact Ht | auto].
  - apply Forall_app. split.
    + eapply Forall_impl; [exact Hlt|]. cbv beta. intros; lia.
    + constructor; [cbn; lia | constructor].
  - rewrite map_app. apply NoDup_app. split; [exact Hnd|]. split.
    + intros x Hx Hx'. cbn in Hx'. apply list_elem_of_singleton in Hx'.
      subst x. apply list_elem_of_In, in_map_iff in Hx as (t & Ht & Hin).
      rewrite Forall_forall in Hlt. apply list_elem_of_In in Hin.
      specialize (Hlt t Hin). cbv beta in Hlt. lia.
    + cbn. apply NoDup_singleton.
Qed.

Lemma queueAll_coherent now (l : list Toast) : ∀ h,
  coherent h →
  coherent (foldl (λ acc t, queueToastRemoval now acc (t_id t)) h l).
Proof.
  induction l as [|t l IH]; intros h Hc; [exact Hc|].
  cbn [foldl]. apply IH, queue_coherent, Hc.
Qed.

Lemma queue_toasts now h i :
  toasts (queueToastRemoval now h i) = toasts h
  ∧ count (queueToastRemoval now h i) = count h.
Proof.
  unfold queueToastRemoval. destruct (bool_decide _); auto.
Qed.

Lemma queueAll_toasts now (l : list Toast) : ∀ h,
  toasts (foldl (λ acc t, queueToastRemoval now acc (t_id t)) h l)
  = toasts h
  ∧ count (foldl (λ acc t, queueToastRemoval now acc (t_id t)) h l)
    = count h.
Proof.
  induction l as [|t l IH]; intros h; [auto|].
  cbn [foldl]. destruct (IH (queueToastRemoval now h (t_id t))) as [H1 H2].
  destruct (queue_toasts now h (t_id t)) as [H3 H4].
  split; congruence.
Qed.

Lemma withToasts_coherent h l :
  coherent h → (length l ≤ TOAST_LIMIT)%nat → coherent (withToasts h l).
Proof.
  intros (Hmap & Hback & Hlt & Hnd & Hlen & Hcnt) Hl.
  unfold coherent. cbn. auto 10.
Qed.

Lemma dispatch_coherent now h action :
  coherent h → coherent (dispatch now h action).
Proof.
  intros Hc. unfold dispatch.
  destruct action as [t|id p|toastId|toastId]; cbn [reducer].
  - apply withToasts_coherent; [exact Hc|]. rewrite length_take. lia.
  - apply withToasts_coherent; [exact Hc|]. rewrite length_map. apply Hc.
  - destruct (Js.truthy_str toastId);
      [apply queue_coherent | apply queueAll_coherent]; exact Hc.
  - destruct toastId as [i|];
      (apply withToasts_coherent; [exact Hc|]).
    + etransitivity; [apply length_filter | apply Hc].
    + cbn. unfold TOAST_LIMIT. lia.
Qed.

Lemma genId_coherent h :
  coherent h → coherent (genId h).1 ∧ (genId h).2 ≠ "".
Proof.
  intros (Hmap & Hback & Hlt & Hnd & Hlen & Hcnt).
  split; [|apply pretty_Z_nonempty].
  unfold coherent, genId. cbn [fst count toasts toastTimeouts timers nextHandle].
  split; [|split; [|split; [|split; [|split]]]]; try assumption.
  apply Z.mod_pos_bound. unfold MAX_SAFE_INTEGER. lia.
Qed.

Lemma toast_coherent now h input :
  coherent h → coherent (toast now h input).1.
Proof.
  intros Hc. unfold toast.
  destruct (genId_coherent h Hc) as [Hc1 _].
  destruct (genId h) as [h1 id]. cbn [fst] in *.
  apply dispatch_coherent, Hc1.
Qed.

Lemma find_handle (l : list Timer) (k : nat) (t : Timer) :
  find (λ t, Nat.eqb (handle t) k) l = Some t → t ∈ l ∧ handle t = k.
Proof.
  induction l as [|x l IH]; cbn [find]; [discriminate|].
  destruct (Nat.eqb_spec (handle x) k) as [He|Hne].
  - intros [= <-]. split; [left | exact He].
  - intros Hf. destruct (IH Hf). split; [right; assumption | assumption].
Qed.

Lemma handle_unique (l : list Timer) (x y : Timer) :
  NoDup (map handle l) → x ∈ l → y ∈ l → handle x = handle y → x = y.
Proof.
  induction l as [|z l IH]; intros Hnd Hx Hy He; [inversion Hx|].
  cbn [map] in Hnd. apply NoDup_cons in Hnd as [Hz Hl].
  assert (Hmem : ∀ t, t ∈ l → handle t ∈ map handle l).
  { intros t Ht. apply list_elem_of_In, in_map_iff. exists t.
    split; [reflexivity | apply list_elem_of_In, Ht]. }
  apply elem_of_cons in Hx as [->|Hx]; apply elem_of_cons in Hy as [->|Hy].
  - reflexivity.
  - exfalso. apply Hz. rewrite He. apply Hmem, Hy.
  - exfalso. apply Hz. rewrite <- He. apply Hmem, Hx.
  - apply IH; assumption.
Qed.

Lemma fire_coherent now h k : coherent h → coherent (fire now h k).
Proof.
  intros Hc. unfold fire.
  destruct (find _ (timers h)) as [t|] eqn:Hf; [|exact Hc].
  destruct (due t <=? now); [|exact Hc].
  apply dispatch_coherent.
  destruct (find_handle _ _ _ Hf) as [Hin Hk].
  destruct Hc as (Hmap & Hback & Hlt & Hnd & Hlen & Hcnt).
  unfold coherent. cbn [timers toastTimeouts nextHandle toasts count].
  assert (Hother : ∀ x, x ∈ timers h → handle x ≠ k →
                        removes x ≠ removes t).
  { intros x Hx Hne Heq. rewrite Forall_forall in Hmap.
    pose proof (Hmap x Hx) as H1. pose proof (Hmap t Hin) as H2.
    cbv beta in H1, H2. rewrite Heq in H1. congruence. }
  split; [|split; [|split; [|split; [|split]]]]; try assumption.
  - apply Forall_forall. intros x Hx.
    apply list_elem_of_filter in Hx as [Hne Hx].
    rewrite lookup_delete_ne by (apply not_eq_sym, Hother; assumption).
    rewrite Forall_forall in Hmap. apply Hmap, Hx.
  - intros i k'. destruct (decide (removes t = i)) as [<-|Hne].
    + rewrite lookup_delete_eq. discriminate.
    + rewrite lookup_delete_ne by exact Hne. intros Hi.
      destruct (Hback i k' Hi) as (x & Hx & Hk' & Hr).
      exists x. split; [|auto]. apply list_elem_of_filter. split; [|exact Hx].
      intros Hxk. rewrite Forall_forall in Hmap.
      pose proof (Hmap x Hx) as H1. pose proof (Hmap t Hin) as H2.
      cbv beta in H1, H2.
      assert (x = t) by (apply (handle_unique (timers h)); congruence).
      congruence.
  - apply Forall_forall. intros x Hx.
    apply list_elem_of_filter in Hx as [_ Hx].
    rewrite Forall_forall in Hlt. apply Hlt, Hx.
  - clear -Hnd. induction (timers h) as [|x l IH]; [constructor|].
    cbn [map] in Hnd. apply NoDup_cons in Hnd as [Hx Hl].
    rewrite filter_cons. destruct (decide _); [|apply IH, Hl].
    cbn [map]. apply NoDup_cons. split; [|apply IH, Hl].
    intros Hin. apply Hx.
    apply list_elem_of_In, in_map_iff in Hin as (y & Hy & Hin).
    apply list_elem_of_In, list_elem_of_filter in Hin as [_ Hin].
    apply list_elem_of_In, in_map_iff. exists y.
    split; [exact Hy | apply list_elem_of_In, Hin].
Qed.

Lemma step_coherent h now e : coherent h → coherent (step h now e).
Proof.
  intros Hc. destruct e; cbn [step].
  - apply toast_coherent, Hc.
  - apply dispatch_coherent, Hc.
  - apply dispatch_coherent, Hc.
  - apply fire_coherent, Hc.
Qed.

Lemma run_coherent es : ∀ h, coherent h → coherent (run h es).
Proof.
  induction es as [|[now e] es IH]; intros h Hc; [exact Hc|].
  cbn [run]. apply IH, step_coherent, Hc.
Qed.

Lemma initial_coherent : coherent initial.
Proof.
  unfold coherent, initial. cbn.
  split; [constructor|]. split; [intros i k H; rewrite lookup_empty in H; discriminate|].
  split; [constructor|]. split; [constructor|].
  unfold TOAST_LIMIT, MAX_SAFE_INTEGER. lia.
Qed.

Lemma update_ids id p (l : list Toast) :
  map t_id (map (λ t, if String.eqb (t_id t) id then merge t p else t) l)
  = map t_id l.
Proof.
  induction l as [|t l IH]; [reflexivity|]. cbn [map]. rewrite IH.
  destruct (String.eqb (t_id t) id); reflexivity.
Qed.

Lemma filter_ids i (l : list Toast) : ∀ js,
  map t_id l = map pretty js →
  map t_id (filter (λ t, t_id t ≠ i) l)
  = map pretty (filter (λ j : Z, pretty j ≠ i) js).
Proof.
  induction l as [|t l IH]; intros [|j js] Hm; try discriminate;
    [reflexivity|].
  cbn [map] in Hm. injection Hm as Ht Hl.
  rewrite !filter_cons. rewrite <- Ht.
  destruct (decide (t_id t ≠ i)); cbn [map]; rewrite (IH js Hl);
    congruence.
Qed.

Lemma step_numbered h now e :
  numbered h → 0 ≤ count h → count h + 1 < MAX_SAFE_INTEGER →
  numbered (step h now e) ∧ count h ≤ count (step h now e) ≤ count h + 1.
Proof.
  intros (js & Hm & Hr & Hnd) H0 Hlt.
  destruct e as [input|toastId|id p|k]; cbn [step].
  - unfold toast, genId, dispatch. cbn [reducer fst withToasts count toasts].
    rewrite Z.mod_small by lia. split; [|lia].
    exists (take TOAST_LIMIT ((count h + 1) :: js)).
    cbn [withToasts toasts count].
    split; [|split].
    + rewrite <- !firstn_map. cbn [map t_id]. rewrite Hm. reflexivity.
    + apply Forall_take. constructor; [lia|].
      eapply Forall_impl; [exact Hr|]. cbv beta. intros; lia.
    + eapply sublist_NoDup; [|apply sublist_take].
      apply NoDup_cons. split; [|exact Hnd].
      intros Hin. rewrite Forall_forall in Hr. specialize (Hr _ Hin).
      cbv beta in Hr. lia.
  - unfold dismiss, dispatch. cbn [reducer].
    destruct (Js.truthy_str toastId).
    + destruct (queue_toasts now h (default "" toastId)) as [Ht Hc].
      split; [|lia]. exists js. rewrite Ht, Hc. auto.
    + destruct (queueAll_toasts now (toasts h) h) as [Ht Hc].
      split; [|lia]. exists js. rewrite Ht, Hc. auto.
  - unfold update, dispatch. cbn [reducer withToasts count toasts].
    split; [|lia]. exists js. cbn [withToasts toasts count].
    rewrite update_ids. auto.
  - unfold fire. destruct (find _ (timers h)) as [t|];
      [|split; [exists js; auto | lia]].
    destruct (due t <=? now); [|split; [exists js; auto | lia]].
    unfold dispatch. cbn [reducer withToasts count toasts].
    split; [|lia].
    exists (filter (λ j : Z, pretty j ≠ removes t) js).
    cbn [withToasts toasts count].
    split; [apply filter_ids, Hm|]. split.
    + apply Forall_forall. intros j Hj.
      apply list_elem_of_filter in Hj as [_ Hj].
      rewrite Forall_forall in Hr. apply Hr, Hj.
    + apply NoDup_filter, Hnd.
Qed.

Lemma run_numbered es : ∀ h,
  numbered h → 0 ≤ count h →
  count h + Z.of_nat (length es) < MAX_SAFE_INTEGER →
  numbered (run h es).
Proof.
  induction es as [|[now e] es IH]; intros h Hn H0 Hlt; [exact Hn|].
  cbn [run]. cbn [length] in Hlt.
  destruct (step_numbered h now e Hn H0) as [Hn1 Hc1]; [lia|].
  apply IH; [exact Hn1 | lia | lia].
Qed.

Lemma numbered_distinct h : numbered h → NoDup (map t_id (toasts h)).
Proof.
  intros (js & Hm & _ & Hnd). rewrite Hm.
  change (NoDup (pretty <$> js)). apply NoDup_fmap_2; [|exact Hnd].
  apply pretty_Z_inj.
Qed.

(** X28. Whatever calls and timers run, at most five toasts are shown
    and the counter stays below [Number.MAX_SAFE_INTEGER]; until that
    many events have run the shown toasts have different ids.  A call of
    [toast] returns the numeral of the counter's next value and puts a
    toast with that id and the properties of the input, and no others,
    before the toasts shown until then, of which the four newest stay;
    it registers no timer.  [update] changes neither the ids nor their
    order, and leaves a toast with another id as it is. *)
Theorem at_most_five_toasts_are_shown (es : list (Z * Event)) :
  let h := run initial es in
  (length (toasts h) ≤ 5)%nat
  ∧ 0 ≤ count h < MAX_SAFE_INTEGER
  ∧ (Z.of_nat (length es) < MAX_SAFE_INTEGER →
     NoDup (map t_id (toasts h)))
  ∧ (∀ now input,
       let out := toast now h input in
       out.2 = pretty ((count h + 1) `mod` MAX_SAFE_INTEGER)
       ∧ toasts out.1 = take 5 (made out.2 input :: toasts h)
       ∧ toastTimeouts out.1 = toastTimeouts h
       ∧ timers out.1 = timers h)
  ∧ (∀ now id p,
       map t_id (toasts (update now h id p)) = map t_id (toasts h)
       ∧ ∀ t, t ∈ toasts h → t_id t ≠ id →
           t ∈ toasts (update now h id p)).
Proof.
  intros h.
  pose proof (run_coherent es initial initial_coherent) as Hc. fold h in Hc.
  split; [apply Hc|]. split; [apply Hc|]. split; [|split].
  - intros Hlen. apply numbered_distinct.
    apply run_numbered; cbn [count initial]; [|lia|lia].
    exists []. split; [reflexivity|]. split; constructor.
  - intros now input out. unfold out, toast, genId, dispatch.
    cbn [reducer fst snd withToasts toasts toastTimeouts timers].
    auto.
  - intros now id p. unfold update, dispatch.
    cbn [reducer withToasts toasts]. split; [apply update_ids|].
    intros t Hin Hne. apply list_elem_of_In, in_map_iff. exists t.
    split; [|apply list_elem_of_In, Hin].
    destruct (String.eqb_spec (t_id t) id); [contradiction | reflexivity].
Qed.

(** Six toasts: the first made is no longer shown, the newest comes
    first. *)
Lemma at_most_five_toasts_are_shown_witness :
  let saved :=
    {| i_title := Some (Some "Saved"); i_description := None;
       i_action := None; i_variant := None; i_duration := None |} in
  let h := run initial (repeat (0, CallToast saved) 6) in
  NoDup (map t_id (toasts h))
  ∧ map t_id (toasts h) = [ "6"; "5"; "4"; "3"; "2" ]
  ∧ timers h = [].
Proof.
  intros saved h.
  destruct (at_most_five_toasts_are_shown (repeat (0, CallToast saved) 6))
    as (_ & _ & Hd & _).
  split; [apply Hd; vm_compute; reflexivity|].
  split; vm_compute; reflexivity.
Defined.

Lemma find_last_handle (l : list Timer) (n : nat) (tm : Timer) :
  Forall (λ t, (handle t < n)%nat) l → handle tm = n →
  find (λ t, Nat.eqb (handle t) n) (l ++ [tm]) = Some tm.
Proof.
  intros Hl Hn. induction Hl as [|x l Hx Hl IH]; cbn [app find].
  - rewrite Hn, Nat.eqb_refl. reflexivity.
  - destruct (Nat.eqb_spec (handle x) n); [lia | exact IH].
Qed.

Lemma find_unique (l : list Timer) (t : Timer) :
  NoDup (map handle l) → t ∈ l →
  find (λ x, Nat.eqb (handle x) (handle t)) l = Some t.
Proof.
  intros Hnd Hin.
  destruct (find _ l) as [x|] eqn:Hf.
  - destruct (find_handle _ _ _ Hf) as [Hx Hk].
    f_equal. apply (handle_unique l); assumption.
  - exfalso. apply list_elem_of_In in Hin.
    apply (find_none _ _ Hf) in Hin. cbv beta in Hin.
    rewrite Nat.eqb_refl in Hin. discriminate.
Qed.

Lemma filter_below (l : list Timer) (n : nat) :
  Forall (λ t, (handle t < n)%nat) l →
  filter (λ x, handle x ≠ n) l = l.
Proof.
  induction 1 as [|x l Hx Hl IH]; [reflexivity|].
  rewrite filter_cons, decide_True by lia. rewrite IH. reflexivity.
Qed.

Lemma queue_keeps now h i j :
  is_Some (toastTimeouts h !! j) →
  is_Some (toastTimeouts (queueToastRemoval now h i) !! j).
Proof.
  intros Hj. unfold queueToastRemoval.
  destruct (bool_decide _); [exact Hj|]. cbn [toastTimeouts].
  destruct (decide (i = j)) as [->|Hne];
    [rewrite lookup_insert_eq; eauto
    | rewrite lookup_insert_ne by exact Hne; exact Hj].
Qed.

Lemma queue_sets now h i :
  is_Some (toastTimeouts (queueToastRemoval now h i) !! i).
Proof.
  unfold queueToastRemoval.
  destruct (bool_decide (is_Some (toastTimeouts h !! i))) eqn:Hb.
  - apply bool_decide_eq_true in Hb. exact Hb.
  - cbn [toastTimeouts]. rewrite lookup_insert_eq. eauto.
Qed.

Lemma queueAll_sets now (l : list Toast) : ∀ h,
  (∀ j, is_Some (toastTimeouts h !! j) →
        is_Some (toastTimeouts
          (foldl (λ acc t, queueToastRemoval now acc (t_id t)) h l) !! j))
  ∧ ∀ t, t ∈ l →
      is_Some (toastTimeouts
        (foldl (λ acc t, queueToastRemoval now acc (t_id t)) h l)
        !! t_id t).
Proof.
  induction l as [|x l IH]; intros h; cbn [foldl].
  - split; [auto | intros t Ht; inversion Ht].
  - destruct (IH (queueToastRemoval now h (t_id x))) as [Hk Hs].
    split.
    + intros j Hj. apply Hk, queue_keeps, Hj.
    + intros t Ht. apply elem_of_cons in Ht as [->|Ht];
        [apply Hk, queue_sets | apply Hs, Ht].
Qed.

(** X29. Dismissing a toast leaves it shown and, unless a removal is
    already pending for its id, registers the timer that removes it:
    run before a second has passed since the dismissal that timer does
    nothing, run from then on it takes the toasts with that id off and
    those alone, and takes the id out of [toastTimeouts].  While the
    removal is pending a further dismissal of the id changes nothing.
    A dismissal without an id registers a removal for every toast
    shown. *)
Theorem dismissed_toast_leaves_after_a_second
    (es0 : list (Z * Event)) (now : Z) (i : string) :
  let h := run initial es0 in
  let h1 := dismiss now h (Some i) in
  i ≠ "" →
  toasts h1 = toasts h
  ∧ is_Some (toastTimeouts h1 !! i)
  ∧ (∀ now1, dismiss now1 h1 (Some i) = h1)
  ∧ (toastTimeouts h !! i = None →
     toastTimeouts h1 !! i = Some (nextHandle h)
     ∧ (∀ now2, now2 < now + TOAST_REMOVE_DELAY →
          fire now2 h1 (nextHandle h) = h1)
     ∧ (∀ now2, now + TOAST_REMOVE_DELAY ≤ now2 →
          toasts (fire now2 h1 (nextHandle h))
          = filter (λ t, t_id t ≠ i) (toasts h)
          ∧ toastTimeouts (fire now2 h1 (nextHandle h)) = toastTimeouts h
          ∧ timers (fire now2 h1 (nextHandle h)) = timers h))
  ∧ (∀ k, toastTimeouts h !! i = Some k →
     h1 = h
     ∧ ∃ t, t ∈ timers h ∧ handle t = k ∧ removes t = i
          ∧ ∀ now2, due t ≤ now2 →
              toasts (fire now2 h k) = filter (λ t, t_id t ≠ i) (toasts h)
              ∧ toastTimeouts (fire now2 h k) !! i = None)
  ∧ (toasts (dismiss now h None) = toasts h
     ∧ ∀ t, t ∈ toasts h →
         is_Some (toastTimeouts (dismiss now h None) !! t_id t)).
Proof.
  intros h h1 Hi.
  pose proof (run_coherent es0 initial initial_coherent) as Hc. fold h in Hc.
  assert (Hh1 : h1 = queueToastRemoval now h i).
  { unfold h1, dismiss, dispatch. cbn [reducer].
    rewrite (truthy_nonempty _ Hi). reflexivity. }
  split; [rewrite Hh1; apply queue_toasts|].
  split; [rewrite Hh1; apply queue_sets|].
  split.
  { intros now1. unfold dismiss, dispatch. cbn [reducer].
    rewrite (truthy_nonempty _ Hi).
    change (default "" (Some i)) with i.
    apply queue_known. rewrite Hh1. apply queue_sets. }
  destruct Hc as (Hmap & Hback & Hlt & Hnd & Hlen & Hcnt).
  split; [|split].
  - intros Hnone. rewrite Hh1, (queue_new now h i Hnone).
    cbn [toastTimeouts]. split; [apply lookup_insert_eq|].
    assert (Hfind : ∀ m c ts,
      find (λ t, Nat.eqb (handle t) (nextHandle h))
        (timers {| count := c; toasts := ts; toastTimeouts := m;
                   timers := timers h ++
                     [ {| handle := nextHandle h;
                          due := now + TOAST_REMOVE_DELAY; removes := i |} ];
                   nextHandle := S (nextHandle h) |})
      = Some {| handle := nextHandle h; due := now + TOAST_REMOVE_DELAY;
                removes := i |}).
    { intros. cbn [timers]. apply find_last_handle; [exact Hlt|reflexivity]. }
    split.
    + intros now2 Hlt2. unfold fire. rewrite Hfind. cbn [due].
      destruct (Z.leb_spec (now + TOAST_REMOVE_DELAY) now2);
        [lia | reflexivity].
    + intros now2 Hle. unfold fire. rewrite Hfind. cbn [due removes].
      destruct (Z.leb_spec (now + TOAST_REMOVE_DELAY) now2); [|lia].
      unfold dispatch.
      cbn [reducer withToasts toasts toastTimeouts timers].
      split; [reflexivity|].
      split; [apply delete_insert_id, Hnone|].
      rewrite filter_app, filter_below by exact Hlt.
      rewrite filter_cons, filter_nil. cbn [handle].
      rewrite decide_False by (intros Hn; apply Hn; reflexivity).
      apply app_nil_r.
  - intros k Hk. split.
    { rewrite Hh1. apply queue_known. eauto. }
    destruct (Hback i k Hk) as (t & Hin & Hhk & Hr).
    exists t. split; [exact Hin|]. split; [exact Hhk|]. split; [exact Hr|].
    intros now2 Hdue. unfold fire. rewrite <- Hhk.
    rewrite (find_unique _ _ Hnd Hin).
    destruct (Z.leb_spec (due t) now2); [|lia].
    unfold dispatch. cbn [reducer withToasts toasts toastTimeouts].
    rewrite Hr. split; [reflexivity | apply lookup_delete_eq].
  - unfold dismiss, dispatch. cbn [reducer].
    split; [apply queueAll_toasts | apply queueAll_sets].
Qed.

(** A toast shown at 0 and dismissed at 10, and again at 500: it is
    still shown at 1009 and gone at 1010. *)
Lemma dismissed_toast_leaves_after_a_second_witness :
  let saved :=
    {| i_title := Some (Some "Saved"); i_description := None;
       i_action := None; i_variant := None; i_duration := None |} in
  let h := run initial [ (0, CallToast saved) ] in
  let h1 := dismiss 10 h (Some "1") in
  dismiss 500 h1 (Some "1") = h1
  ∧ map t_id (toasts (fire 1009 h1 0)) = [ "1" ]
  ∧ toasts (fire 1010 h1 0) = [].
Proof.
  intros saved h h1.
  destruct (dismissed_toast_leaves_after_a_second
              [ (0, CallToast saved) ] 10 "1")
    as (_ & _ & Hagain & Hnew & _); [discriminate|].
  destruct Hnew as (_ & Hearly & Hlate); [reflexivity|].
  split; [apply Hagain|]. split.
  - change (fire 1009 h1 0) with (fire 1009 h1 (nextHandle h)).
    fold h h1 in Hearly. rewrite Hearly by (unfold TOAST_REMOVE_DELAY; lia).
    reflexivity.
  - destruct (Hlate 1010) as [Ht _]; [unfold TOAST_REMOVE_DELAY; lia|].
    exact Ht.
Defined.

End ToastFacts.

(** ** Earnings *)

Section EarningFacts.
Import Schema Storage StorageLaws Routes Samples Verification Earnings.

Lemma platformFeeCents_div (t : Z) : platformFeeCents t = (6 * t + 50) / 100.
Proof.
  unfold platformFeeCents, Js.round, PLATFORM_FEE_PERCENT, Qfloor. simpl.
  rewrite !Z.mul_1_r.
  Z.to_euclidean_division_equations. lia.
Qed.

Lemma sums_from (l : list Booking) : ∀ g f,
  foldl (λ sum b, sum + totalAmount b) g l = g + grossOf l
  ∧ foldl (λ sum b, sum + platformFeeCents (totalAmount b)) f l
    = f + feesOf l.
Proof.
  unfold grossOf, feesOf.
  induction l as [|b l IH]; intros g f; cbn [foldl]; [lia|].
  destruct (IH (g + totalAmount b) (f + platformFeeCents (totalAmount b)))
    as [-> ->].
  destruct (IH (0 + totalAmount b) (0 + platformFeeCents (totalAmount b)))
    as [-> ->].
  lia.
Qed.

Lemma fees_bounded (l : list Booking) :
  Forall (λ b, 0 ≤ totalAmount b) l →
  0 ≤ feesOf l ≤ grossOf l
  ∧ Z.abs (100 * feesOf l - 6 * grossOf l) ≤ 50 * Z.of_nat (length l).
Proof.
  induction 1 as [|b l Hb Hl IH]; [cbn; lia|].
  unfold grossOf, feesOf in *. cbn [foldl length].
  destruct (sums_from l (0 + totalAmount b)
              (0 + platformFeeCents (totalAmount b))) as [-> ->].
  unfold grossOf, feesOf. rewrite platformFeeCents_div in *.
  assert (Hfee : 0 ≤ (6 * totalAmount b + 50) / 100 ≤ totalAmount b
                 ∧ Z.abs (100 * ((6 * totalAmount b + 50) / 100)
                          - 6 * totalAmount b) ≤ 50).
  { Z.to_euclidean_division_equations. lia. }
  lia.
Qed.

Lemma sums_as_foldr (l : list Booking) :
  grossOf l = foldr Z.add 0 (map totalAmount l)
  ∧ feesOf l
    = foldr Z.add 0 (map (λ b, (6 * totalAmount b + 50) / 100) l).
Proof.
  induction l as [|b l [IHg IHf]]; [split; reflexivity|].
  unfold grossOf, feesOf. cbn [foldl map foldr].
  destruct (sums_from l (0 + totalAmount b)
              (0 + platformFeeCents (totalAmount b))) as [-> ->].
  rewrite IHg, IHf, platformFeeCents_div. split; lia.
Qed.

Lemma stored_once (d : Db) :
  idsFresh d → NoDup (map snd (map_to_list (bookings d))).
Proof.
  intros Hf. change (NoDup (snd <$> map_to_list (bookings d))).
  apply NoDup_fmap_2_strong; [|apply NoDup_map_to_list].
  intros [k1 b1] [k2 b2] H1 H2 Heq. cbn in Heq. subst b2.
  apply elem_of_map_to_list in H1, H2.
  destruct (Hf k1 b1 H1) as [_ <-]. destruct (Hf k2 b1 H2) as [_ <-].
  reflexivity.
Qed.

(** X30. The earnings report of a worker counts the stored bookings
    made with their profile whose status is [confirmed] and whose
    payment method is "stripe", each once, and no others: the gross is
    the sum of their totals, the fee the sum of 6 percent of each
    total rounded to the cent, the net the gross less the fee.  With
    totals that are not negative the fee lies between nothing and the
    gross and differs from 6 percent of the gross by at most half a
    cent for each booking.  (The method "stripe" is what opening a
    checkout sets; a booking captured from escrow carries "escrow" and
    is not counted.) *)
Theorem earnings_are_gross_less_six_percent
    (profileSlugOf : string → option string) (d : Db) (usr : User)
    (slug : string) :
  profileSlugOf (sub usr) = Some slug →
  let counted := confirmedByStripe (getBookingsByWorker d slug) in
  let gross := foldr Z.add 0 (map totalAmount counted) in
  let fees :=
    foldr Z.add 0 (map (λ b, (6 * totalAmount b + 50) / 100) counted) in
  connectEarnings profileSlugOf d (Some usr)
  = Json 200
      (Report gross fees (gross - fees) (Z.of_nat (length counted)) 6)
  ∧ (∀ b, b ∈ counted ↔
          ∃ k, getBooking d k = Some b ∧ workerSlug b = Some slug
               ∧ status b = Some "confirmed"
               ∧ paymentMethod b = Some "stripe")
  ∧ (idsFresh d → NoDup counted)
  ∧ (Forall (λ b, 0 ≤ totalAmount b) counted →
     0 ≤ fees ≤ gross
     ∧ Z.abs (100 * fees - 6 * gross) ≤ 50 * Z.of_nat (length counted)).
Proof.
  intros Hslug counted gross fees.
  destruct (sums_as_foldr counted) as [Hg Hf].
  fold gross in Hg. fold fees in Hf.
  split; [|split; [|split]].
  - unfold connectEarnings. rewrite Hslug. cbv zeta.
    fold counted. rewrite Hg, Hf. reflexivity.
  - intros b.
    unfold counted, confirmedByStripe, getBookingsByWorker, getBooking.
    rewrite !list_elem_of_filter. split.
    + intros [[Hs Hp] [Hw Hin]].
      apply list_elem_of_fmap in Hin as ([k b'] & -> & Hin).
      apply elem_of_map_to_list in Hin. exists k. auto.
    + intros (k & Hk & Hw & Hs & Hp). split; [auto|]. split; [exact Hw|].
      apply list_elem_of_fmap. exists (k, b). split; [reflexivity|].
      apply elem_of_map_to_list. exact Hk.
  - intros Hfresh. unfold counted, confirmedByStripe, getBookingsByWorker.
    apply NoDup_filter, NoDup_filter, stored_once, Hfresh.
  - intros Hpos. rewrite <- Hg, <- Hf. apply fees_bounded, Hpos.
Qed.

(** A booking of 10000 cents for which a checkout was opened and which
    an admin then confirmed is reported with a fee of 600, within the
    bounds; the same booking released from escrow is not reported. *)
Lemma earnings_are_gross_less_six_percent_witness :
  let opened :=
    (updateBookingStripeInfo oneFullBooking 1
       {| si_stripeSessionId := Some "cs_1";
          si_stripePaymentIntentId := None;
          si_paymentMethod := Some "stripe";
          si_status := None |}).1 in
  let d := db (bookingsConfirm (world opened) (Some admin) 1 None).1 in
  let released :=
    db (escrowRelease 60 okStripe Scenarios.authorizedWorld (Some buyer)
          (Some 1)).1 in
  connectEarnings (λ _, Some "dj-nova") d (Some host)
  = Json 200 (Report 10000 600 9400 1 6)
  ∧ Z.abs (100 * 600 - 6 * 10000) ≤ 50 * 1
  ∧ statusOf (world released) 1 = Some "confirmed"
  ∧ connectEarnings (λ _, Some "dj-nova") released (Some host)
    = Json 200 (Report 0 0 0 0 6).
Proof.
  intros opened d released.
  destruct (earnings_are_gross_less_six_percent (λ _, Some "dj-nova") d host
              "dj-nova") as (He & _ & _ & Hb); [reflexivity|].
  destruct Hb as [_ Hb]; [vm_compute; repeat constructor; discriminate|].
  destruct (earnings_are_gross_less_six_percent (λ _, Some "dj-nova")
              released host "dj-nova") as (Hr & _); [reflexivity|].
  split; [rewrite He; vm_compute; reflexivity|].
  split; [exact Hb|].
  split; [vm_compute; reflexivity|].
  rewrite Hr. vm_compute. reflexivity.
Defined.

End EarningFacts.
